(** * Patient monitoring system: event detection agents and alert fusion

  A shallow embedding of the Python sources

    - [utils/temporal_buffer.py]            (module [TemporalBuffer])
    - [utils/geometry.py]                   ([compute_iou])
    - [agents/fall_detection_agent.py]      (module [Fall])
    - [agents/seizure_detection_agent.py]   (module [Seizure])
    - [agents/vital_signs_agent.py] and
      [models/rppg_processor.py]            (module [Vital])
    - [agents/bed_exit_agent.py]            (module [BedExit])
    - [agents/immobility_agent.py]          (module [Immobility])
    - [core/orchestrator.py]                (module [Orchestrator])

  followed by the vocabulary in which the properties are stated (modules
  [FallSpec], [SeizureSpec], [VitalSpec], [BedExitSpec], [OrchestratorSpec]),
  concrete scenarios (module [Examples]), the properties themselves (modules
  [...Facts] and [SeizureEpisodes]) and their instances on the scenarios
  (module [Scenarios]).

  Conventions of the embedding.

  - A Python [float] is a rational number ([Q]): every finite binary64
    value is one, and the sources only add, subtract, multiply, divide and
    compare them.  Rounding, infinities and NaN are outside the model.
  - [time.time()], [datetime.now().hour] and [uuid.uuid4()] are read from
    an environment [Env]; the [World] counts how often each was read, so
    the n-th read of a run always yields the same value.
  - The transcendental and signal-processing primitives of numpy and scipy
    (arctangent, square root, Fourier analysis, Butterworth filtering) are
    fields of [Env] as well: the agents are verified for every
    implementation of them.
  - A method is a function from the world and the object's fields to an
    outcome [Res]: either a returned value or a raised exception, both
    with the world and the fields as the method left them. *)

From Stdlib Require Import String Ascii List Bool Arith ZArith QArith Qabs Lia Lqa.
Import ListNotations.
Local Open Scope string_scope.
Local Open Scope list_scope.
Local Open Scope Q_scope.

Set Implicit Arguments.

(** ** Numbers *)

Definition Qltb (x y : Q) : bool := negb (Qle_bool y x).
Definition Qleb (x y : Q) : bool := Qle_bool x y.

Declare Scope py_scope.
Delimit Scope py_scope with py.
Infix "<?" := Qltb (at level 70, no associativity) : py_scope.
Infix "<=?" := Qleb (at level 70, no associativity) : py_scope.
Notation "x >? y" := (Qltb y x) (at level 70, no associativity) : py_scope.
Notation "x >=? y" := (Qleb y x) (at level 70, no associativity) : py_scope.
Local Open Scope py_scope.

(** [min(1.0, x)] *)
Definition min1 (x : Q) : Q := if x <? 1 then x else 1.

(** [sum(xs) / len(xs)], the value of [np.mean] on a non-empty vector. *)
Definition Qsum (xs : list Q) : Q := fold_right Qplus 0 xs.
Definition np_mean (xs : list Q) : Q := Qsum xs / inject_Z (Z.of_nat (length xs)).

(** [int(x)] on a float: truncation toward zero. *)
Definition py_int (x : Q) : Z := Z.quot (Qnum x) (Zpos (Qden x)).

(** ** Exceptions, the world and outcomes *)

Inductive exn : Type :=
| IndexError
| ZeroDivisionError
| AttributeError.

(** How many times the wall clock, the local time and the uuid generator have
  been read so far. *)
Record World : Type := mkWorld {
  time_reads : nat;
  hour_reads : nat;
  uuid_draws : nat
}.

Definition world0 : World := mkWorld 0 0 0.

(** The world after one read of the wall clock. *)
Definition tick (w : World) : World :=
  mkWorld (S (time_reads w)) (hour_reads w) (uuid_draws w).

(** The result of [np.fft]-based analysis of one limb ([_fft_analysis]). *)
Record FftResult : Type := mkFft {
  is_seizure_pattern : bool;
  fft_frequency : Q;
  fft_magnitude : Q
}.

(** The dictionary returned by [RPPGProcessor.process]. *)
Record VitalSigns : Type := mkVitalSigns {
  vs_heart_rate : Q;
  vs_respiratory_rate : Q;
  vs_signal_quality : Q;
  vs_hr_confidence : Q;
  vs_rr_confidence : Q
}.

Record Env : Type := mkEnv {
  (** [time.time()] at its n-th read *)
  clock : nat -> Q;
  (** [datetime.now().hour] at its n-th read *)
  local_hour : nat -> Z;
  (** [str(uuid.uuid4())] at its n-th draw *)
  uuid4 : nat -> string;
  (** [np.degrees(np.arctan2(a, b))] *)
  arctan2_deg : Q -> Q -> Q;
  (** [np.sqrt] *)
  np_sqrt : Q -> Q;
  (** [SeizureDetectionAgent._fft_analysis] for a frequency range and a
    magnitude threshold, on a trajectory of mean limb positions *)
  fft_analysis : Q * Q -> Q -> list (Q * Q) -> FftResult;
  (** the body of the [try] block of [RPPGProcessor.process] after the RGB
    means were extracted, for an algorithm name and a frame rate; [None]
    when it raised and the [except] clause returned [None] *)
  pulse_analysis : string -> Q -> list (Q * Q * Q) -> option VitalSigns;
  (** [str] of a float, as an f-string renders it *)
  str_float : Q -> string
}.

Inductive Res (St A : Type) : Type :=
| Ok (a : A) (w : World) (s : St)
| Raised (e : exn) (w : World) (s : St).
Arguments Ok {St A} a w s.
Arguments Raised {St A} e w s.

Definition M (St A : Type) : Type := World -> St -> Res St A.

Definition ret {St A} (a : A) : M St A := fun w s => Ok a w s.
Definition raise {St A} (e : exn) : M St A := fun w s => Raised e w s.
Definition bind {St A B} (m : M St A) (k : A -> M St B) : M St B :=
  fun w s => match m w s with
           | Ok a w' s' => k a w' s'
           | Raised e w' s' => Raised e w' s'
           end.
Definition get {St} : M St St := fun w s => Ok s w s.
Definition modify {St} (f : St -> St) : M St unit := fun w s => Ok tt w (f s).

Notation "x <- m ;; k" := (bind m (fun x => k))
  (at level 61, m at next level, right associativity) : py_scope.
Notation "m ;;; k" := (bind m (fun _ => k))
  (at level 61, right associativity) : py_scope.

(** [xs[i]] for a non-negative literal index. *)
Definition index {St A} (xs : list A) (i : nat) : M St A :=
  match nth_error xs i with
  | Some x => ret x
  | None => raise IndexError
  end.

(** [x / y] on Python floats. *)
Definition py_div {St} (x y : Q) : M St Q :=
  if Qeq_bool y 0 then raise ZeroDivisionError else ret (x / y).

Section WithEnv.
Variable env : Env.

(** [time.time()] *)
Definition time_time {St} : M St Q :=
  fun w s => Ok (clock env (time_reads w))
              (mkWorld (S (time_reads w)) (hour_reads w) (uuid_draws w)) s.

(** [datetime.now().hour] *)
Definition now_hour {St} : M St Z :=
  fun w s => Ok (local_hour env (hour_reads w))
              (mkWorld (time_reads w) (S (hour_reads w)) (uuid_draws w)) s.

(** [str(uuid.uuid4())] *)
Definition new_uuid {St} : M St string :=
  fun w s => Ok (uuid4 env (uuid_draws w))
              (mkWorld (time_reads w) (hour_reads w) (S (uuid_draws w))) s.

End WithEnv.

(** ** schemas.py *)

Record BoundingBox : Type := mkBBox {
  x1 : Q; y1 : Q; x2 : Q; y2 : Q;
  bb_confidence : Q
}.

Record Keypoint : Type := mkKeypoint {
  kx : Q; ky : Q; kz : Q;
  kp_confidence : Q;
  visibility : Q
}.

Record PoseData : Type := mkPose {
  keypoints : list Keypoint;
  pose_timestamp : Q
}.

Record PersonDetection : Type := mkDetection {
  track_id : Z;
  bbox : BoundingBox;
  det_confidence : Q;
  pose : option PoseData;
  face_bbox : option BoundingBox
}.

Record FrameMetadata : Type := mkMeta {
  frame_id : Z;
  timestamp : Q;
  width : Z;
  height : Z;
  fps : Q;
  detections : list PersonDetection
}.

(** An RGB frame, [frame[y][x]] being one pixel. *)
Definition Pixel : Type := (Q * Q * Q)%type.
Definition Image : Type := list (list Pixel).

(** The fields each event class adds to [BaseEvent]. *)
Record FallData : Type := mkFallData {
  fall_type : string;
  fall_bbox : option BoundingBox;
  pose_vector : option (list Q);
  torso_angle : option Q;
  hip_height : option Q;
  vertical_velocity : option Q
}.

Record EmotionData : Type := mkEmotionData {
  emotion : string;
  valence : Q;
  arousal : Q;
  emotion_face_bbox : option BoundingBox;
  emotion_probabilities : option (list (string * Q))
}.

Record VitalData : Type := mkVitalData {
  heart_rate : option Q;
  respiratory_rate : option Q;
  signal_quality : Q;
  hr_confidence : Q;
  rr_confidence : Q
}.

Record BedExitData : Type := mkBedExitData {
  state : string;
  previous_state : option string;
  transition : bool;
  duration_in_state : Q;
  event_bed_region : option BoundingBox;
  person_bbox : option BoundingBox
}.

Record ImmobilityData : Type := mkImmobilityData {
  immobility_duration : Q;
  event_last_movement_time : Q;
  risk_level : string;
  posture : option string;
  movement_magnitude : Q;
  event_posture_change_count : Z
}.

Record SeizureData : Type := mkSeizureData {
  seizure_detected : bool;
  motion_frequency : Q;
  affected_limbs : list string;
  duration : Q;
  magnitude : Q
}.

(** The class of an event object; [PBase] is a plain [BaseEvent]. *)
Inductive Payload : Type :=
| PFall (d : FallData)
| PEmotion (d : EmotionData)
| PVital (d : VitalData)
| PBedExit (d : BedExitData)
| PImmobility (d : ImmobilityData)
| PSeizure (d : SeizureData)
| PBase.

Record Event : Type := mkEvent {
  event_type : string;
  event_timestamp : Q;
  confidence : Q;
  agent_name : string;
  event_frame_id : Z;
  payload : Payload
}.

Record ConsolidatedAlert : Type := mkAlert {
  alert_id : string;
  level : string;
  message : string;
  alert_timestamp : Q;
  events : list Event;
  metadata : list (string * string)
}.

(** Whether a float is true in a condition: it is not zero. *)
Definition truthy (x : Q) : bool := negb (Qeq_bool x 0).

(** [VitalSignsEvent.is_valid], as the truth value of what it returns: a
    missing or zero rate makes its [and] chain false. *)
Definition is_valid (d : VitalData) : bool :=
  let hr_valid := match heart_rate d with
                  | Some hr => truthy hr && ((40 <=? hr) && (hr <=? 180))
                  | None => false
                  end in
  let rr_valid := match respiratory_rate d with
                  | Some rr => truthy rr && ((8 <=? rr) && (rr <=? 30))
                  | None => false
                  end in
  hr_valid && rr_valid && (signal_quality d >? 0.6).

(** [ImmobilityEvent.is_alert_worthy] *)
Definition is_alert_worthy (d : ImmobilityData) : bool :=
  immobility_duration d >? 7200.

(** [SeizureDetectionEvent.is_critical] *)
Definition is_critical (d : SeizureData) : bool :=
  seizure_detected d && (duration d >? 5).

(** ** utils/temporal_buffer.py *)

Module TemporalBuffer.

(** [buffer] lists the deque from its left (oldest) to its right (newest)
  end. *)
Record t (A : Type) : Type := mk {
  maxlen : nat;
  buffer : list A
}.
Arguments mk {A} maxlen buffer.

Section Ops.
Context {A : Type}.

(** [TemporalBuffer(maxlen)] *)
Definition init (n : nat) : t A := mk n [].

(** [deque.append] under a [maxlen]: append on the right, then drop the
  leftmost item if the bound is exceeded. *)
Definition add (x : A) (b : t A) : t A :=
  let l := buffer b ++ [x] in
  mk (maxlen b) (if (maxlen b <? length l)%nat then tl l else l).

Definition len (b : t A) : nat := length (buffer b).

Definition get_latest (b : t A) : option A :=
  if (0 <? len b)%nat then nth_error (buffer b) (len b - 1) else None.

Definition get_oldest (b : t A) : option A :=
  if (0 <? len b)%nat then nth_error (buffer b) 0 else None.

Definition get_all (b : t A) : list A := buffer b.

(** [l[i:]] for a Python list: a negative start counts from the end and
  is clamped at the front, a non-negative one is clamped at the
  back. *)
Definition slice_from (i : Z) (l : list A) : list A :=
  let n := Z.of_nat (length l) in
  let start := if (i <? 0)%Z then Z.max (n + i) 0 else Z.min i n in
  skipn (Z.to_nat start) l.

Definition get_window (window_size : Z) (b : t A) : list A :=
  if (window_size >=? Z.of_nat (len b))%Z then buffer b
  else slice_from (- window_size) (buffer b).

Definition is_full (b : t A) : bool := (len b =? maxlen b)%nat.

Definition clear (b : t A) : t A := mk (maxlen b) [].

(** The buffer after [add] was called on each item of [xs] in turn. *)
Definition add_all (xs : list A) (b : t A) : t A :=
  fold_left (fun acc x => add x acc) xs b.

(** [__getitem__]: [deque[index]], a negative index counting from the
    right end. *)
Definition getitem {St} (index : Z) (b : t A) : M St A :=
  let n := Z.of_nat (len b) in
  let i := if (index <? 0)%Z then (index + n)%Z else index in
  if ((i <? 0) || (i >=? n))%Z then raise IndexError
  else match nth_error (buffer b) (Z.to_nat i) with
       | Some x => ret x
       | None => raise IndexError
       end.

End Ops.

End TemporalBuffer.

(** The midpoints and angles every pose agent computes from the shoulders
    (keypoints 11 and 12) and the hips (keypoints 23 and 24). *)
Definition mid (a b : Q) : Q := (a + b) / 2.

(** ** agents/fall_detection_agent.py *)

Module Fall.

Record Sample : Type := mkSample {
  sample_pose : PoseData;
  sample_timestamp : Q;
  sample_bbox : BoundingBox
}.

(** The attributes [__init__] reads from the configuration; no method
    assigns them afterwards. *)
Record Config : Type := mkConfig {
  sequence_length : nat;
  confidence_threshold : Q;
  fall_angle_threshold : Q;
  hip_height_threshold : Q;
  velocity_threshold : Q;
  event_cooldown : Q
}.

Definition default_config : Config := mkConfig 30 0.7 60 0.3 0.5 3.

(** The attributes the methods assign. *)
Record State : Type := mkState {
  enabled : bool;
  frame_count : Z;
  pose_buffer : TemporalBuffer.t Sample;
  last_event_time : Q
}.

Definition init (cfg : Config) : State :=
  mkState true 0 (TemporalBuffer.init (sequence_length cfg)) 0.

Definition set_frame_count (n : Z) (s : State) : State :=
  mkState (enabled s) n (pose_buffer s) (last_event_time s).
Definition set_pose_buffer (b : TemporalBuffer.t Sample) (s : State) : State :=
  mkState (enabled s) (frame_count s) b (last_event_time s).
Definition set_last_event_time (t : Q) (s : State) : State :=
  mkState (enabled s) (frame_count s) (pose_buffer s) t.

(** The dictionary [_analyze_fall_indicators] returns. *)
Record Indicators : Type := mkIndicators {
  ind_torso_angle : Q;
  ind_hip_height : Q;
  ind_vertical_velocity : Q;
  is_lying : bool;
  is_falling : bool;
  is_near_fall : bool;
  lying_confidence : Q;
  fall_confidence : Q;
  near_fall_confidence : Q
}.

Section WithEnv.
Variable env : Env.
Variable cfg : Config.

Definition _compute_vertical_velocity : M State Q :=
  s <- get ;;
  if (TemporalBuffer.len (pose_buffer s) <? 2)%nat then ret 0 else
  match TemporalBuffer.get_oldest (pose_buffer s),
        TemporalBuffer.get_latest (pose_buffer s) with
  | Some first_frame, Some last_frame =>
      let first_pose := sample_pose first_frame in
      let last_pose := sample_pose last_frame in
      f23 <- index (keypoints first_pose) 23 ;;
      f24 <- index (keypoints first_pose) 24 ;;
      l23 <- index (keypoints last_pose) 23 ;;
      l24 <- index (keypoints last_pose) 24 ;;
      let first_hip_y := mid (ky f23) (ky f24) in
      let last_hip_y := mid (ky l23) (ky l24) in
      let time_diff := sample_timestamp last_frame - sample_timestamp first_frame in
      if time_diff >? 0 then
        let velocity := Qabs (last_hip_y - first_hip_y) / time_diff in
        ret (min1 (velocity / 100))
      else ret 0
  | _, _ => ret 0
  end.

Definition _analyze_fall_indicators (pose : PoseData) (frame_height : Z)
  : M State Indicators :=
  let kps := keypoints pose in
  _nose <- index kps 0 ;;
  left_shoulder <- index kps 11 ;;
  right_shoulder <- index kps 12 ;;
  left_hip <- index kps 23 ;;
  right_hip <- index kps 24 ;;
  _left_knee <- index kps 25 ;;
  _right_knee <- index kps 26 ;;
  let mid_shoulder_y := mid (ky left_shoulder) (ky right_shoulder) in
  let mid_hip_y := mid (ky left_hip) (ky right_hip) in
  let mid_shoulder_x := mid (kx left_shoulder) (kx right_shoulder) in
  let mid_hip_x := mid (kx left_hip) (kx right_hip) in
  let torso_angle :=
    Qabs (arctan2_deg env (mid_shoulder_x - mid_hip_x) (mid_shoulder_y - mid_hip_y)) in
  ratio <- py_div mid_hip_y (inject_Z frame_height) ;;
  let hip_height := 1 - ratio in
  vertical_velocity <- _compute_vertical_velocity ;;
  ret (mkIndicators torso_angle hip_height vertical_velocity
        ((hip_height <? hip_height_threshold cfg)
           && (torso_angle >? fall_angle_threshold cfg))
        ((vertical_velocity >? velocity_threshold cfg)
           && (torso_angle >? fall_angle_threshold cfg / 2))
        ((vertical_velocity >? velocity_threshold cfg * 0.7)
           && (torso_angle >? fall_angle_threshold cfg * 0.7))
        (min1 ((1 - hip_height) * (torso_angle / 90)))
        (min1 (vertical_velocity * (torso_angle / 90)))
        (min1 (vertical_velocity * 0.8))).

Definition _get_pose_vector (pose : PoseData) : list Q :=
  flat_map (fun kp => [kx kp; ky kp; kz kp]) (keypoints pose).

(** The [if]/[elif] chain of [detect]: the fall type, [None] when no branch
    was taken, and its confidence. *)
Definition classify (ind : Indicators) : option string * Q :=
  if is_lying ind then (Some "lying", lying_confidence ind)
  else if is_falling ind then (Some "fall", fall_confidence ind)
  else if is_near_fall ind then (Some "near_fall", near_fall_confidence ind)
  else (None, 0).

Definition detect (frame : Image) (metadata : FrameMetadata) : M State (option Event) :=
  s <- get ;;
  if negb (enabled s) then ret None else
  modify (set_frame_count (frame_count s + 1)) ;;;
  match detections metadata with
  | [] => ret None
  | detection :: _ =>
    match pose detection with
    | None => ret None
    | Some pose =>
      modify (fun s => set_pose_buffer
        (TemporalBuffer.add (mkSample pose (timestamp metadata) (bbox detection))
                            (pose_buffer s)) s) ;;;
      s <- get ;;
      if (TemporalBuffer.len (pose_buffer s) <? sequence_length cfg)%nat then ret None else
      now <- time_time env ;;
      if now - last_event_time s <? event_cooldown cfg then ret None else
      fall_indicators <- _analyze_fall_indicators pose (height metadata) ;;
      match classify fall_indicators with
      | (Some fall_type, confidence) =>
          if confidence >? confidence_threshold cfg then
            now' <- time_time env ;;
            modify (set_last_event_time now') ;;;
            ret (Some (mkEvent "fall_detection" (timestamp metadata) confidence
                         "fall_detection" (frame_id metadata)
                         (PFall (mkFallData fall_type (Some (bbox detection))
                                   (Some (_get_pose_vector pose))
                                   (Some (ind_torso_angle fall_indicators))
                                   (Some (ind_hip_height fall_indicators))
                                   (Some (ind_vertical_velocity fall_indicators))))))
          else ret None
      | (None, _) => ret None
      end
    end
  end.

Definition reset : M State unit :=
  modify (fun s => mkState (enabled s) 0 (TemporalBuffer.clear (pose_buffer s)) 0).

End WithEnv.

End Fall.

(** The dictionary [{"pose": ..., "timestamp": ...}] the seizure and the
    immobility agent buffer per frame. *)
Record PoseSample : Type := mkPoseSample {
  ps_pose : PoseData;
  ps_timestamp : Q
}.

(** Python's [max(a, b)]: the first argument unless the second is greater. *)
Definition py_max (a b : Q) : Q := if a <? b then b else a.

(** ** agents/seizure_detection_agent.py *)

Module Seizure.

Record Config : Type := mkConfig {
  frequency_range : Q * Q;
  magnitude_threshold : Q;
  duration_threshold : Q;
  confidence_threshold : Q;
  affected_limbs_min : Z;
  buffer_size : nat;
  event_cooldown : Q
}.

Definition default_config : Config := mkConfig (3, 10) 0.3 5 0.75 2 150 10.

Record State : Type := mkState {
  enabled : bool;
  frame_count : Z;
  pose_buffer : TemporalBuffer.t PoseSample;
  seizure_start_time : option Q;
  last_event_time : Q
}.

Definition init (cfg : Config) : State :=
  mkState true 0 (TemporalBuffer.init (buffer_size cfg)) None 0.

Definition set_frame_count (n : Z) (s : State) : State :=
  mkState (enabled s) n (pose_buffer s) (seizure_start_time s) (last_event_time s).
Definition set_pose_buffer (b : TemporalBuffer.t PoseSample) (s : State) : State :=
  mkState (enabled s) (frame_count s) b (seizure_start_time s) (last_event_time s).
Definition set_seizure_start_time (t : option Q) (s : State) : State :=
  mkState (enabled s) (frame_count s) (pose_buffer s) t (last_event_time s).
Definition set_last_event_time (t : Q) (s : State) : State :=
  mkState (enabled s) (frame_count s) (pose_buffer s) (seizure_start_time s) t.

(** The [limbs] dictionary of [_analyze_limb_movements], in its order. *)
Definition limbs : list (string * list nat) :=
  [ ("left_arm", [11; 13; 15]%nat);
    ("right_arm", [12; 14; 16]%nat);
    ("left_leg", [23; 25; 27]%nat);
    ("right_leg", [24; 26; 28]%nat) ].

(** The list [positions] built for one frame: the (x, y) of each keypoint of
    the limb that exists in the pose and whose visibility exceeds 0.5. *)
Definition positions (keypoint_indices : list nat) (pose : PoseData) : list (Q * Q) :=
  flat_map (fun idx =>
              match nth_error (keypoints pose) idx with
              | Some kp => if visibility kp >? 0.5 then [(kx kp, ky kp)] else []
              | None => []
              end) keypoint_indices.

(** [np.mean(positions, axis=0)] *)
Definition mean_position (ps : list (Q * Q)) : Q * Q :=
  (np_mean (map fst ps), np_mean (map snd ps)).

(** The loop of [_extract_trajectories] over the buffered frames: [None] as
    soon as a frame has no position to average. *)
Fixpoint collect (keypoint_indices : list nat) (frames : list PoseSample)
  : option (list (Q * Q)) :=
  match frames with
  | [] => Some []
  | frame_data :: rest =>
      match positions keypoint_indices (ps_pose frame_data) with
      | [] => None
      | ps =>
          match collect keypoint_indices rest with
          | Some trajectories => Some (mean_position ps :: trajectories)
          | None => None
          end
      end
  end.

(** The dictionary [_analyze_limb_movements] returns. *)
Record Indicators : Type := mkIndicators {
  ind_seizure_detected : bool;
  ind_affected_limbs : list string;
  ind_magnitude : Q;
  ind_dominant_frequency : Q;
  ind_confidence : Q
}.

Section WithEnv.
Variable env : Env.
Variable cfg : Config.

Definition _extract_trajectories (keypoint_indices : list nat) (s : State)
  : option (list (Q * Q)) :=
  match collect keypoint_indices (TemporalBuffer.buffer (pose_buffer s)) with
  | None => None
  | Some trajectories =>
      if (length trajectories <? buffer_size cfg)%nat then None
      else Some trajectories
  end.

(** One iteration of the loop over the limbs, on the triple
    (affected_limbs, max_magnitude, dominant_frequency). *)
Definition analyze_limb (s : State) (acc : list string * Q * Q)
  (limb : string * list nat) : list string * Q * Q :=
  let '(affected, max_magnitude, dominant_frequency) := acc in
  match _extract_trajectories (snd limb) s with
  | None => acc
  | Some trajectories =>
      let fft_result :=
        fft_analysis env (frequency_range cfg) (magnitude_threshold cfg) trajectories in
      if is_seizure_pattern fft_result then
        (affected ++ [fst limb],
         py_max max_magnitude (fft_magnitude fft_result),
         py_max dominant_frequency (fft_frequency fft_result))
      else acc
  end.

(** The limbs that enter the Fourier analysis: those with a trajectory. *)
Definition analyzed_limbs (s : State) : list string :=
  map fst (filter (fun limb => match _extract_trajectories (snd limb) s with
                               | Some _ => true
                               | None => false
                               end) limbs).

(** [max_magnitude / self.magnitude_threshold]: with a zero threshold the
    division raises for the float 0.0 of an empty limb list, and is the
    numpy infinity otherwise, which [min(1.0, ...)] caps. *)
Definition _analyze_limb_movements : M State Indicators :=
  s <- get ;;
  let '(affected, max_magnitude, dominant_frequency) :=
    fold_left (analyze_limb s) limbs ([], 0, 0) in
  let detected := (affected_limbs_min cfg <=? Z.of_nat (length affected))%Z in
  confidence <-
    (if Qeq_bool (magnitude_threshold cfg) 0 then
       match affected with
       | [] => raise ZeroDivisionError
       | _ => ret 1
       end
     else ret (min1 ((inject_Z (Z.of_nat (length affected)) / 4)
                       * (max_magnitude / magnitude_threshold cfg)))) ;;
  ret (mkIndicators detected affected max_magnitude dominant_frequency confidence).

(** Whether a call of [detect] evaluated the seizure condition of its
    frame, and what the condition was. *)
Inductive Stage : Type :=
| Skipped
| Evaluated (seizure_detected : bool).

(** [detect], returning next to its result whether it reached the analysis
    of the limb movements. *)
Definition detect_staged (frame : Image) (metadata : FrameMetadata)
  : M State (Stage * option Event) :=
  s <- get ;;
  if negb (enabled s) then ret (Skipped, None) else
  modify (set_frame_count (frame_count s + 1)) ;;;
  match detections metadata with
  | [] => ret (Skipped, None)
  | detection :: _ =>
    match pose detection with
    | None => ret (Skipped, None)
    | Some pose =>
      modify (fun s => set_pose_buffer
        (TemporalBuffer.add (mkPoseSample pose (timestamp metadata)) (pose_buffer s)) s) ;;;
      s <- get ;;
      if (TemporalBuffer.len (pose_buffer s) <? buffer_size cfg)%nat
      then ret (Skipped, None) else
      now <- time_time env ;;
      if now - last_event_time s <? event_cooldown cfg then ret (Skipped, None) else
      seizure_indicators <- _analyze_limb_movements ;;
      if ind_seizure_detected seizure_indicators then
        start <- match seizure_start_time s with
                 | None =>
                     t <- time_time env ;;
                     modify (set_seizure_start_time (Some t)) ;;;
                     ret t
                 | Some t => ret t
                 end ;;
        now' <- time_time env ;;
        let duration := now' - start in
        if duration >? duration_threshold cfg then
          now'' <- time_time env ;;
          modify (set_last_event_time now'') ;;;
          ret (Evaluated true,
               Some (mkEvent "seizure_detection" (timestamp metadata)
                       (ind_confidence seizure_indicators)
                       "seizure_detection" (frame_id metadata)
                       (PSeizure (mkSeizureData true
                                    (ind_dominant_frequency seizure_indicators)
                                    (ind_affected_limbs seizure_indicators)
                                    duration
                                    (ind_magnitude seizure_indicators)))))
        else ret (Evaluated true, None)
      else
        modify (set_seizure_start_time None) ;;;
        ret (Evaluated false, None)
    end
  end.

Definition detect (frame : Image) (metadata : FrameMetadata) : M State (option Event) :=
  r <- detect_staged frame metadata ;;
  ret (snd r).

Definition reset : M State unit :=
  modify (fun s => mkState (enabled s) 0 (TemporalBuffer.clear (pose_buffer s)) None 0).

End WithEnv.

End Seizure.

(** ** models/rppg_processor.py and agents/vital_signs_agent.py *)

Module Vital.

Record Config : Type := mkConfig {
  algorithm : string;
  fps : Q;
  window_size : nat;
  hr_range : Q * Q;
  rr_range : Q * Q;
  signal_quality_threshold : Q;
  update_interval : Z
}.

Definition default_config : Config :=
  mkConfig "CHROM" 30 300 (40, 180) (8, 30) 0.6 30.

Record State : Type := mkState {
  enabled : bool;
  frame_count : Z;
  face_roi_buffer : TemporalBuffer.t Image;
  last_update_frame : Z
}.

Definition init (cfg : Config) : State :=
  mkState true 0 (TemporalBuffer.init (window_size cfg)) 0.

Definition set_frame_count (n : Z) (s : State) : State :=
  mkState (enabled s) n (face_roi_buffer s) (last_update_frame s).
Definition set_face_roi_buffer (b : TemporalBuffer.t Image) (s : State) : State :=
  mkState (enabled s) (frame_count s) b (last_update_frame s).
Definition set_last_update_frame (n : Z) (s : State) : State :=
  mkState (enabled s) (frame_count s) (face_roi_buffer s) n.

(** [frame.shape[0]] and [frame.shape[1]] *)
Definition shape0 (frame : Image) : Z := Z.of_nat (length frame).
Definition shape1 (frame : Image) : Z := Z.of_nat (length (hd [] frame)).

(** [frame[y1:y2, x1:x2]] for bounds within the frame. *)
Definition crop (frame : Image) (y1 y2 x1 x2 : Z) : Image :=
  map (fun row => firstn (Z.to_nat (x2 - x1)) (skipn (Z.to_nat x1) row))
      (firstn (Z.to_nat (y2 - y1)) (skipn (Z.to_nat y1) frame)).

(** [np.mean(roi, axis=(0, 1))] *)
Definition mean_rgb (roi : Image) : Q * Q * Q :=
  let px := concat roi in
  (np_mean (map (fun p => fst (fst p)) px),
   np_mean (map (fun p => snd (fst p)) px),
   np_mean (map snd px)).

(** [RPPGProcessor._extract_rgb_signals]: empty crops are skipped. *)
Definition _extract_rgb_signals (cfg : Config) (face_rois : list Image)
  : option (list (Q * Q * Q)) :=
  let rgb_values :=
    flat_map (fun roi => match concat roi with
                         | [] => []
                         | _ => [mean_rgb roi]
                         end) face_rois in
  if (length rgb_values <? window_size cfg)%nat then None else Some rgb_values.

Section WithEnv.
Variable env : Env.
Variable cfg : Config.

(** [RPPGProcessor.process] *)
Definition process (face_rois : list Image) : option VitalSigns :=
  if (length face_rois <? window_size cfg)%nat then None else
  match _extract_rgb_signals cfg face_rois with
  | None => None
  | Some rgb_signals => pulse_analysis env (algorithm cfg) (fps cfg) rgb_signals
  end.

(** The three range checks of [detect]. *)
Definition valid (vital_signs : VitalSigns) : bool :=
  let hr_valid := (fst (hr_range cfg) <=? vs_heart_rate vital_signs)
                    && (vs_heart_rate vital_signs <=? snd (hr_range cfg)) in
  let rr_valid := (fst (rr_range cfg) <=? vs_respiratory_rate vital_signs)
                    && (vs_respiratory_rate vital_signs <=? snd (rr_range cfg)) in
  let quality_valid := vs_signal_quality vital_signs >=? signal_quality_threshold cfg in
  hr_valid && rr_valid && quality_valid.

(** Where a call of [detect] returned. *)
Inductive Stage : Type :=
| Disabled
| NoDetection
| NoFace
| EmptyCrop
| Throttled
| Filling
| Processed (result : option VitalSigns).

(** [detect], returning next to its result the [return] statement it left
    through. *)
Definition detect_staged (frame : Image) (metadata : FrameMetadata)
  : M State (Stage * option Event) :=
  s <- get ;;
  if negb (enabled s) then ret (Disabled, None) else
  modify (set_frame_count (frame_count s + 1)) ;;;
  match detections metadata with
  | [] => ret (NoDetection, None)
  | detection :: _ =>
    match face_bbox detection with
    | None => ret (NoFace, None)
    | Some face_bbox =>
      let fx1 := Z.max 0 (py_int (x1 face_bbox)) in
      let fy1 := Z.max 0 (py_int (y1 face_bbox)) in
      let fx2 := Z.min (shape1 frame) (py_int (x2 face_bbox)) in
      let fy2 := Z.min (shape0 frame) (py_int (y2 face_bbox)) in
      if ((fx2 <=? fx1) || (fy2 <=? fy1))%Z then ret (EmptyCrop, None) else
      let face_roi := crop frame fy1 fy2 fx1 fx2 in
      modify (fun s => set_face_roi_buffer
                         (TemporalBuffer.add face_roi (face_roi_buffer s)) s) ;;;
      s <- get ;;
      if (frame_count s - last_update_frame s <? update_interval cfg)%Z
      then ret (Throttled, None) else
      if (TemporalBuffer.len (face_roi_buffer s) <? window_size cfg)%nat
      then ret (Filling, None) else
      match process (TemporalBuffer.buffer (face_roi_buffer s)) with
      | None => ret (Processed None, None)
      | Some vital_signs =>
          if valid vital_signs then
            modify (set_last_update_frame (frame_count s)) ;;;
            ret (Processed (Some vital_signs),
                 Some (mkEvent "vital_signs" (timestamp metadata)
                         (vs_signal_quality vital_signs)
                         "vital_signs" (frame_id metadata)
                         (PVital (mkVitalData
                                    (Some (vs_heart_rate vital_signs))
                                    (Some (vs_respiratory_rate vital_signs))
                                    (vs_signal_quality vital_signs)
                                    (vs_hr_confidence vital_signs)
                                    (vs_rr_confidence vital_signs)))))
          else ret (Processed (Some vital_signs), None)
      end
    end
  end.

Definition detect (frame : Image) (metadata : FrameMetadata) : M State (option Event) :=
  r <- detect_staged frame metadata ;;
  ret (snd r).

Definition reset : M State unit :=
  modify (fun s => mkState (enabled s) 0 (TemporalBuffer.clear (face_roi_buffer s)) 0).

End WithEnv.

End Vital.

(** ** utils/geometry.py *)

Definition compute_iou (bbox1 bbox2 : BoundingBox) : Q :=
  let ix1 := py_max (x1 bbox1) (x1 bbox2) in
  let iy1 := py_max (y1 bbox1) (y1 bbox2) in
  let ix2 := if x2 bbox2 <? x2 bbox1 then x2 bbox2 else x2 bbox1 in
  let iy2 := if y2 bbox2 <? y2 bbox1 then y2 bbox2 else y2 bbox1 in
  let intersection := py_max 0 (ix2 - ix1) * py_max 0 (iy2 - iy1) in
  let area1 := (x2 bbox1 - x1 bbox1) * (y2 bbox1 - y1 bbox1) in
  let area2 := (x2 bbox2 - x1 bbox2) * (y2 bbox2 - y1 bbox2) in
  let union := area1 + area2 - intersection in
  if union >? 0 then intersection / union else 0.

(** The loop of [normalize_keypoints]; a zero width or height raises at the
    first keypoint. *)
Fixpoint normalize_keypoints {St} (kps : list Keypoint) (width height : Z)
  : M St (list Keypoint) :=
  match kps with
  | [] => ret []
  | kp :: rest =>
      nx <- py_div (kx kp) (inject_Z width) ;;
      ny <- py_div (ky kp) (inject_Z height) ;;
      normalized <- normalize_keypoints rest width height ;;
      ret (mkKeypoint nx ny (kz kp) (kp_confidence kp) (visibility kp) :: normalized)
  end.

(** ** agents/bed_exit_agent.py *)

Module BedExit.

Record Config : Type := mkConfig {
  transition_confidence : Q;
  sitting_angle_threshold : Q;
  standing_height_threshold : Q;
  alert_on_states : list string
}.

Definition default_config : Config :=
  mkConfig 0.7 45 0.6 ["STANDING"; "OUT_OF_BED"].

Record State : Type := mkState {
  enabled : bool;
  frame_count : Z;
  bed_region : option BoundingBox;
  current_state : string;
  state_start_time : Q;
  last_transition_time : Q;
  calibration_frames : Z;
  calibration_bboxes : list BoundingBox
}.

(** [__init__] for a configured bed region (or none) at wall-clock time
    [now]. *)
Definition init (region : option BoundingBox) (now : Q) : State :=
  mkState true 0 region "IN_BED" now 0 0 [].

Definition set_frame_count (n : Z) (s : State) : State :=
  mkState (enabled s) n (bed_region s) (current_state s) (state_start_time s)
          (last_transition_time s) (calibration_frames s) (calibration_bboxes s).
Definition set_bed_region (r : option BoundingBox) (s : State) : State :=
  mkState (enabled s) (frame_count s) r (current_state s) (state_start_time s)
          (last_transition_time s) (calibration_frames s) (calibration_bboxes s).
Definition set_transition (new_state : string) (now : Q) (s : State) : State :=
  mkState (enabled s) (frame_count s) (bed_region s) new_state now now
          (calibration_frames s) (calibration_bboxes s).
Definition add_calibration (b : BoundingBox) (s : State) : State :=
  mkState (enabled s) (frame_count s) (bed_region s) (current_state s)
          (state_start_time s) (last_transition_time s)
          (calibration_frames s + 1) (calibration_bboxes s ++ [b]).

Definition in_states (st : string) (l : list string) : bool :=
  existsb (String.eqb st) l.

Section WithEnv.
Variable env : Env.
Variable cfg : Config.

Definition _determine_state (person_bbox : BoundingBox) (pose : PoseData)
  (frame_height : Z) : M State string :=
  s <- get ;;
  let kps := keypoints pose in
  left_hip <- index kps 23 ;;
  right_hip <- index kps 24 ;;
  left_shoulder <- index kps 11 ;;
  right_shoulder <- index kps 12 ;;
  let mid_hip_y := mid (ky left_hip) (ky right_hip) in
  let mid_shoulder_y := mid (ky left_shoulder) (ky right_shoulder) in
  ratio <- py_div mid_hip_y (inject_Z frame_height) ;;
  let hip_height := 1 - ratio in
  let torso_angle :=
    Qabs (arctan2_deg env
            (mid (kx left_shoulder) (kx right_shoulder) - mid (kx left_hip) (kx right_hip))
            (mid_shoulder_y - mid_hip_y)) in
  let overlap := match bed_region s with
                 | Some region => compute_iou person_bbox region
                 | None => 0
                 end in
  if (hip_height >? standing_height_threshold cfg) && (torso_angle <? 30)
  then ret "STANDING"
  else if overlap <? 0.3 then ret "OUT_OF_BED"
  else if (torso_angle >? sitting_angle_threshold cfg) && (hip_height >? 0.3)
  then ret "SITTING_UP"
  else ret "IN_BED".

Definition _calibrate_bed_region (metadata : FrameMetadata) : M State (option Event) :=
  match detections metadata with
  | [] => ret None
  | detection :: _ =>
      modify (add_calibration (bbox detection)) ;;;
      s <- get ;;
      (if (calibration_frames s >=? 30)%Z then
         let avg_x1 := np_mean (map x1 (calibration_bboxes s)) in
         let avg_y1 := np_mean (map y1 (calibration_bboxes s)) in
         let avg_x2 := np_mean (map x2 (calibration_bboxes s)) in
         let avg_y2 := np_mean (map y2 (calibration_bboxes s)) in
         let w := avg_x2 - avg_x1 in
         let h := avg_y2 - avg_y1 in
         modify (set_bed_region
                   (Some (mkBBox (avg_x1 - w * 0.1) (avg_y1 - h * 0.1)
                                 (avg_x2 + w * 0.1) (avg_y2 + h * 0.1) 1)))
       else ret tt) ;;;
      ret None
  end.

Definition detect (frame : Image) (metadata : FrameMetadata) : M State (option Event) :=
  s <- get ;;
  if negb (enabled s) then ret None else
  modify (set_frame_count (frame_count s + 1)) ;;;
  match bed_region s with
  | None => _calibrate_bed_region metadata
  | Some region =>
    match detections metadata with
    | [] => ret None
    | detection :: _ =>
      let person_bbox := bbox detection in
      match pose detection with
      | None => ret None
      | Some pose =>
        new_state <- _determine_state person_bbox pose (height metadata) ;;
        let transition := negb (String.eqb new_state (current_state s)) in
        if transition then
          let previous_state := current_state s in
          now <- time_time env ;;
          modify (set_transition new_state now) ;;;
          if in_states new_state (alert_on_states cfg) then
            ret (Some (mkEvent "bed_exit" (timestamp metadata)
                         (transition_confidence cfg)
                         "bed_exit" (frame_id metadata)
                         (PBedExit (mkBedExitData new_state (Some previous_state)
                                      true 0 (Some region) (Some person_bbox)))))
          else ret None
        else ret None
      end
    end
  end.

Definition reset : M State unit :=
  now <- time_time env ;;
  modify (fun s => mkState (enabled s) 0 (bed_region s) "IN_BED" now 0
                           (calibration_frames s) (calibration_bboxes s)).

End WithEnv.

End BedExit.

(** A [for] loop threading a local accumulator. *)
Fixpoint foldM {St A B} (f : B -> A -> M St B) (xs : list A) (acc : B) : M St B :=
  match xs with
  | [] => ret acc
  | x :: rest => acc' <- f acc x ;; foldM f rest acc'
  end.

(** ** agents/immobility_agent.py *)

Module Immobility.

Record Config : Type := mkConfig {
  movement_threshold : Q;
  alert_duration : Q;
  warning_duration : Q;
  check_interval : Q;
  posture_change_threshold : Q
}.

Definition default_config : Config := mkConfig 0.05 7200 5400 60 15.

Record State : Type := mkState {
  enabled : bool;
  frame_count : Z;
  last_pose : option PoseData;
  last_movement_time : Q;
  last_check_time : Q;
  posture_change_count : Z;
  current_posture : string;
  pose_buffer : TemporalBuffer.t PoseSample
}.

(** [__init__] at wall-clock times [t1] and [t2] of its two clock reads. *)
Definition init (t1 t2 : Q) : State :=
  mkState true 0 None t1 t2 0 "unknown" (TemporalBuffer.init 30).

Definition set_frame_count (n : Z) (s : State) : State :=
  mkState (enabled s) n (last_pose s) (last_movement_time s) (last_check_time s)
          (posture_change_count s) (current_posture s) (pose_buffer s).
Definition set_last_pose (p : option PoseData) (s : State) : State :=
  mkState (enabled s) (frame_count s) p (last_movement_time s) (last_check_time s)
          (posture_change_count s) (current_posture s) (pose_buffer s).
Definition set_last_movement_time (t : Q) (s : State) : State :=
  mkState (enabled s) (frame_count s) (last_pose s) t (last_check_time s)
          (posture_change_count s) (current_posture s) (pose_buffer s).
Definition set_last_check_time (t : Q) (s : State) : State :=
  mkState (enabled s) (frame_count s) (last_pose s) (last_movement_time s) t
          (posture_change_count s) (current_posture s) (pose_buffer s).
Definition set_posture (p : string) (s : State) : State :=
  mkState (enabled s) (frame_count s) (last_pose s) (last_movement_time s)
          (last_check_time s) (posture_change_count s + 1) p (pose_buffer s).
Definition set_pose_buffer (b : TemporalBuffer.t PoseSample) (s : State) : State :=
  mkState (enabled s) (frame_count s) (last_pose s) (last_movement_time s)
          (last_check_time s) (posture_change_count s) (current_posture s) b.

Section WithEnv.
Variable env : Env.
Variable cfg : Config.

Definition _compute_movement (pose1 pose2 : PoseData) : M State Q :=
  r <- foldM (fun (acc : Q * Z) idx =>
                kp1 <- index (keypoints pose1) idx ;;
                kp2 <- index (keypoints pose2) idx ;;
                if (visibility kp1 >? 0.5) && (visibility kp2 >? 0.5) then
                  let displacement :=
                    np_sqrt env ((kx kp1 - kx kp2) * (kx kp1 - kx kp2)
                                 + (ky kp1 - ky kp2) * (ky kp1 - ky kp2)) in
                  ret (fst acc + displacement, (snd acc + 1)%Z)
                else ret acc)
             [0; 11; 12; 23; 24]%nat (0, 0%Z) ;;
  if (snd r >? 0)%Z then ret (fst r / inject_Z (snd r)) else ret 0.

Definition _determine_posture (pose : PoseData) : M State string :=
  let kps := keypoints pose in
  left_shoulder <- index kps 11 ;;
  right_shoulder <- index kps 12 ;;
  left_hip <- index kps 23 ;;
  right_hip <- index kps 24 ;;
  let mid_shoulder_y := mid (ky left_shoulder) (ky right_shoulder) in
  let mid_hip_y := mid (ky left_hip) (ky right_hip) in
  let mid_shoulder_x := mid (kx left_shoulder) (kx right_shoulder) in
  let mid_hip_x := mid (kx left_hip) (kx right_hip) in
  let torso_angle :=
    Qabs (arctan2_deg env (mid_shoulder_x - mid_hip_x) (mid_shoulder_y - mid_hip_y)) in
  if torso_angle >? 60 then ret "lying_side"
  else if mid_shoulder_y <? mid_hip_y then ret "prone"
  else ret "supine".

Definition detect (frame : Image) (metadata : FrameMetadata) : M State (option Event) :=
  s <- get ;;
  if negb (enabled s) then ret None else
  modify (set_frame_count (frame_count s + 1)) ;;;
  match detections metadata with
  | [] => ret None
  | detection :: _ =>
    match pose detection with
    | None => ret None
    | Some pose =>
      modify (fun s => set_pose_buffer
        (TemporalBuffer.add (mkPoseSample pose (timestamp metadata)) (pose_buffer s)) s) ;;;
      match last_pose s with
      | Some previous =>
          movement_magnitude <- _compute_movement previous pose ;;
          (if movement_magnitude >? movement_threshold cfg then
             t <- time_time env ;; modify (set_last_movement_time t)
           else ret tt) ;;;
          new_posture <- _determine_posture pose ;;
          s <- get ;;
          if negb (String.eqb new_posture (current_posture s))
          then modify (set_posture new_posture)
          else ret tt
      | None => ret tt
      end ;;;
      modify (set_last_pose (Some pose)) ;;;
      current_time <- time_time env ;;
      s <- get ;;
      if current_time - last_check_time s <? check_interval cfg then ret None else
      modify (set_last_check_time current_time) ;;;
      let immobility_duration := current_time - last_movement_time s in
      let risk_level :=
        if immobility_duration >? alert_duration cfg then "HIGH"
        else if immobility_duration >? warning_duration cfg then "MEDIUM"
        else "LOW" in
      if String.eqb risk_level "MEDIUM" || String.eqb risk_level "HIGH" then
        ratio <- py_div immobility_duration (alert_duration cfg) ;;
        ret (Some (mkEvent "immobility" (timestamp metadata) (min1 ratio)
                     "immobility" (frame_id metadata)
                     (PImmobility (mkImmobilityData immobility_duration
                                     (last_movement_time s) risk_level
                                     (Some (current_posture s)) 0
                                     (posture_change_count s)))))
      else ret None
    end
  end.

Definition reset : M State unit :=
  t1 <- time_time env ;;
  t2 <- time_time env ;;
  modify (fun s => mkState (enabled s) 0 None t1 t2 0 (current_posture s)
                           (TemporalBuffer.clear (pose_buffer s))).

End WithEnv.

End Immobility.

(** ** core/orchestrator.py *)

Module Orchestrator.

Record Rule : Type := mkRule {
  conditions : list string;
  rule_level : string;
  rule_message : string
}.

Record Config : Type := mkConfig {
  deduplication_window : Q;
  rules : list (string * Rule)
}.

(** [ORCHESTRATOR_CONFIG] of config.py *)
Definition default_config : Config :=
  mkConfig 5
    [ ("critical_fall",
       mkRule ["fall_detected"; "low_heart_rate"] "CRITICAL"
              "Critical: Fall detected with abnormal vital signs");
      ("bed_exit_night",
       mkRule ["bed_exit"; "nighttime"] "HIGH"
              "High Alert: Patient exited bed during nighttime");
      ("prolonged_immobility",
       mkRule ["immobility_alert"] "MEDIUM"
              "Warning: Prolonged immobility detected");
      ("seizure_detected",
       mkRule ["seizure"] "CRITICAL"
              "Critical: Seizure activity detected") ].

Record State : Type := mkState {
  recent_alerts : list ConsolidatedAlert;
  event_buffer : list Event
}.

Definition init : State := mkState [] [].

Definition of_type (ty : string) (evs : list Event) : list Event :=
  filter (fun e => String.eqb (event_type e) ty) evs.

Section WithEnv.
Variable env : Env.
Variable cfg : Config.

(** [is_nighttime] of config.py *)
Definition is_nighttime : M State bool :=
  hour <- now_hour env ;;
  ret ((hour >=? 22)%Z || (hour <? 6)%Z).

(** The [for ve in vital_events] loop with its [else] clause: the first
    event with a non-zero heart rate below 50, [None] when the loop ends
    without a [break]. *)
Fixpoint first_low_heart_rate (vital_events : list Event) : M State (option Event) :=
  match vital_events with
  | [] => ret None
  | ve :: rest =>
      match payload ve with
      | PVital d =>
          match heart_rate d with
          | Some hr =>
              if negb (Qeq_bool hr 0) && (hr <? 50) then ret (Some ve)
              else first_low_heart_rate rest
          | None => first_low_heart_rate rest
          end
      | _ => raise AttributeError
      end
  end.

(** The loop of [_apply_rule] over the conditions: the matched events, or
    [None] where the source returns [None] from inside the loop. *)
Fixpoint match_conditions (conds : list string) (evs matched : list Event)
  : M State (option (list Event)) :=
  match conds with
  | [] => ret (Some matched)
  | condition :: rest =>
      let require ty :=
        match of_type ty evs with
        | [] => ret None
        | found => match_conditions rest evs (matched ++ found)
        end in
      if String.eqb condition "fall_detected" then require "fall_detection"
      else if String.eqb condition "low_heart_rate" then
        match of_type "vital_signs" evs with
        | [] => ret None
        | vital_events =>
            r <- first_low_heart_rate vital_events ;;
            match r with
            | Some ve => match_conditions rest evs (matched ++ [ve])
            | None => ret None
            end
        end
      else if String.eqb condition "bed_exit" then require "bed_exit"
      else if String.eqb condition "nighttime" then
        night <- is_nighttime ;;
        if night then match_conditions rest evs matched else ret None
      else if String.eqb condition "immobility_alert" then require "immobility"
      else if String.eqb condition "seizure" then require "seizure_detection"
      else match_conditions rest evs matched
  end.

Definition _apply_rule (rule_name : string) (rule_config : Rule) (evs : list Event)
  : M State (option ConsolidatedAlert) :=
  r <- match_conditions (conditions rule_config) evs [] ;;
  match r with
  | Some (e :: es) =>
      alert_id <- new_uuid env ;;
      timestamp <- time_time env ;;
      ret (Some (mkAlert alert_id (rule_level rule_config) (rule_message rule_config)
                   timestamp (e :: es) [("rule", rule_name)]))
  | _ => ret None
  end.

(** [level_map.get(event.event_type, "INFO")] *)
Definition individual_level (event : Event) : string :=
  let ty := event_type event in
  if String.eqb ty "fall_detection" then "HIGH"
  else if String.eqb ty "seizure_detection" then "CRITICAL"
  else if String.eqb ty "bed_exit" then "MEDIUM"
  else if String.eqb ty "immobility" then "MEDIUM"
  else "INFO".

Definition str_optional (x : option Q) : string :=
  match x with
  | Some v => str_float env v
  | None => "None"
  end.

(** [message_map.get(event.event_type, f"Event: {event.event_type}")]; an
    attribute the event object lacks is rendered by the fallback text of
    its [hasattr] test. *)
Definition individual_message (event : Event) : string :=
  let ty := event_type event in
  if String.eqb ty "fall_detection" then
    "Fall detected: " ++ match payload event with PFall d => fall_type d | _ => "unknown" end
  else if String.eqb ty "seizure_detection" then "Seizure activity detected"
  else if String.eqb ty "bed_exit" then
    "Bed exit: " ++ match payload event with PBedExit d => state d | _ => "unknown" end
  else if String.eqb ty "immobility" then
    "Immobility detected: "
      ++ match payload event with PImmobility d => risk_level d | _ => "unknown" end
      ++ " risk"
  else if String.eqb ty "emotion_detection" then
    "Emotion: " ++ match payload event with PEmotion d => emotion d | _ => "unknown" end
  else if String.eqb ty "vital_signs" then
    "HR: " ++ match payload event with
              | PVital d => str_optional (heart_rate d)
              | _ => "N/A"
              end
      ++ " bpm, RR: " ++ match payload event with
                         | PVital d => str_optional (respiratory_rate d)
                         | _ => "N/A"
                         end
  else "Event: " ++ ty.

Definition _create_individual_alert (event : Event) : M State ConsolidatedAlert :=
  alert_id <- new_uuid env ;;
  ret (mkAlert alert_id (individual_level event) (individual_message event)
         (event_timestamp event) [event] [("source", agent_name event)]).

Definition _is_covered_by_rules (event : Event) : bool :=
  negb (String.eqb (event_type event) "emotion_detection"
        || String.eqb (event_type event) "vital_signs").

(** The test of [_is_duplicate] at wall-clock time [current_time]. *)
Definition duplicate_at (current_time : Q) (recent : list ConsolidatedAlert)
  (alert : ConsolidatedAlert) : bool :=
  existsb (fun recent_alert =>
             (current_time - alert_timestamp recent_alert <? deduplication_window cfg)
               && String.eqb (message recent_alert) (message alert)) recent.

Definition _is_duplicate (alert : ConsolidatedAlert) : M State bool :=
  current_time <- time_time env ;;
  s <- get ;;
  ret (duplicate_at current_time (recent_alerts s) alert).

Definition _add_to_recent (alert : ConsolidatedAlert) : M State unit :=
  modify (fun s => mkState (recent_alerts s ++ [alert]) (event_buffer s)).

Definition _cleanup_recent_alerts : M State unit :=
  current_time <- time_time env ;;
  modify (fun s =>
            mkState (filter (fun alert =>
                               current_time - alert_timestamp alert
                                 <? deduplication_window cfg * 2)
                            (recent_alerts s))
                    (event_buffer s)).

(** [if not self._is_duplicate(alert): consolidated_alerts.append(alert);
    self._add_to_recent(alert)] *)
Definition offer (consolidated_alerts : list ConsolidatedAlert)
  (alert : ConsolidatedAlert) : M State (list ConsolidatedAlert) :=
  dup <- _is_duplicate alert ;;
  if dup then ret consolidated_alerts
  else _add_to_recent alert ;;; ret (consolidated_alerts ++ [alert]).

Definition rule_step (evs : list Event) (consolidated_alerts : list ConsolidatedAlert)
  (rule : string * Rule) : M State (list ConsolidatedAlert) :=
  alert <- _apply_rule (fst rule) (snd rule) evs ;;
  match alert with
  | Some a => offer consolidated_alerts a
  | None => ret consolidated_alerts
  end.

Definition individual_step (consolidated_alerts : list ConsolidatedAlert)
  (event : Event) : M State (list ConsolidatedAlert) :=
  if negb (_is_covered_by_rules event) then
    alert <- _create_individual_alert event ;;
    offer consolidated_alerts alert
  else ret consolidated_alerts.

Definition process_events (evs : list Event) : M State (list ConsolidatedAlert) :=
  match evs with
  | [] => ret []
  | _ =>
      modify (fun s => mkState (recent_alerts s) (event_buffer s ++ evs)) ;;;
      consolidated_alerts <- foldM (rule_step evs) (rules cfg) [] ;;
      consolidated_alerts <- foldM individual_step evs consolidated_alerts ;;
      _cleanup_recent_alerts ;;;
      ret consolidated_alerts
  end.

Definition reset : M State unit := modify (fun _ => mkState [] []).

End WithEnv.

End Orchestrator.

(** ** perception/person_tracker.py: the fallback tracker *)

Module Tracker.

Record Config : Type := mkConfig {
  max_age : Z;
  min_hits : Z;
  iou_threshold : Q
}.

Definition default_config : Config := mkConfig 30 3 0.3.

(** A dict with integer keys, as the list of its items in insertion
    order. *)
Definition dict (V : Type) : Type := list (Z * V).

(** [d[k] = v]: an existing key keeps its place, a new one goes last. *)
Fixpoint dict_set {V} (k : Z) (v : V) (d : dict V) : dict V :=
  match d with
  | [] => [(k, v)]
  | (k', v') :: rest =>
      if (k' =? k)%Z then (k, v) :: rest else (k', v') :: dict_set k v rest
  end.

(** [k in d] *)
Definition dict_mem {V} (k : Z) (d : dict V) : bool :=
  existsb (fun item => (fst item =? k)%Z) d.

(** [del d[k]] for a key of the dict. *)
Definition dict_del {V} (k : Z) (d : dict V) : dict V :=
  filter (fun item => negb (fst item =? k)%Z) d.

(** [d[k]] in a [defaultdict(int)]: a missing key reads as 0. *)
Definition age_of (k : Z) (d : dict Z) : Z :=
  match find (fun item => (fst item =? k)%Z) d with
  | Some item => snd item
  | None => 0%Z
  end.

Record State : Type := mkState {
  next_id : Z;
  tracks : dict BoundingBox;
  track_ages : dict Z
}.

Definition init : State := mkState 0 [] [].

(** The dictionary [{"track_id": ..., "bbox": ..., "confidence": ...}]. *)
Record TrackedObject : Type := mkTracked {
  obj_track_id : Z;
  obj_bbox : BoundingBox;
  obj_confidence : Q
}.

Section WithConfig.
Variable cfg : Config.

(** The inner loop over the tracks: the pair (best_iou, best_track_id). *)
Definition best_track (det : BoundingBox) (trks : dict BoundingBox) : Q * option Z :=
  fold_left (fun (best : Q * option Z) (item : Z * BoundingBox) =>
               let iou := compute_iou det (snd item) in
               if (iou >? fst best) && (iou >? iou_threshold cfg)
               then (iou, Some (fst item))
               else best)
            trks (0, None).

(** One iteration of the loop over the detections, on the triple
    (matched_tracks, unmatched_detections, track_ages). *)
Definition match_step (trks : dict BoundingBox)
  (acc : dict BoundingBox * list BoundingBox * dict Z) (det : BoundingBox)
  : dict BoundingBox * list BoundingBox * dict Z :=
  let '(matched_tracks, unmatched_detections, ages) := acc in
  match snd (best_track det trks) with
  | Some best_track_id =>
      (dict_set best_track_id det matched_tracks, unmatched_detections,
       dict_set best_track_id 0%Z ages)
  | None => (matched_tracks, unmatched_detections ++ [det], ages)
  end.

(** The loop that updates the matched tracks. *)
Definition update_matched (matched_tracks trks : dict BoundingBox) : dict BoundingBox :=
  fold_left (fun t item => dict_set (fst item) (snd item) t) matched_tracks trks.

Definition tracked (track_id : Z) (b : BoundingBox) : TrackedObject :=
  mkTracked track_id b (bb_confidence b).

(** One iteration of the loop that creates a track per unmatched
    detection, on (next_id, tracks, track_ages, tracked_objects). *)
Definition create_step (acc : Z * dict BoundingBox * dict Z * list TrackedObject)
  (det : BoundingBox) : Z * dict BoundingBox * dict Z * list TrackedObject :=
  let '(nid, trks, ages, tracked_objects) := acc in
  ((nid + 1)%Z, dict_set nid det trks, dict_set nid 0%Z ages,
   tracked_objects ++ [tracked nid det]).

(** One iteration of the loop that ages the tracks, on
    (track_ages, tracks_to_remove). *)
Definition age_step (matched_tracks : dict BoundingBox) (acc : dict Z * list Z)
  (track_id : Z) : dict Z * list Z :=
  if dict_mem track_id matched_tracks then acc
  else
    let ages := dict_set track_id (age_of track_id (fst acc) + 1)%Z (fst acc) in
    if (age_of track_id ages >? max_age cfg)%Z
    then (ages, snd acc ++ [track_id])
    else (ages, snd acc).

Definition remove_step (acc : dict BoundingBox * dict Z) (track_id : Z)
  : dict BoundingBox * dict Z :=
  (dict_del track_id (fst acc), dict_del track_id (snd acc)).

Definition _update_simple (s : State) (detections : list BoundingBox)
  : list TrackedObject * State :=
  let '(matched_tracks, unmatched_detections, ages1) :=
    fold_left (match_step (tracks s)) detections ([], [], track_ages s) in
  let tracks2 := update_matched matched_tracks (tracks s) in
  let tracked_objects := map (fun item => tracked (fst item) (snd item)) matched_tracks in
  let '(nid, tracks3, ages3, tracked_objects) :=
    fold_left create_step unmatched_detections
              (next_id s, tracks2, ages1, tracked_objects) in
  let '(ages4, tracks_to_remove) :=
    fold_left (age_step matched_tracks) (map fst tracks3) (ages3, []) in
  let '(tracks5, ages5) := fold_left remove_step tracks_to_remove (tracks3, ages4) in
  (tracked_objects, mkState nid tracks5 ages5).

(** [reset] of the fallback tracker *)
Definition reset (s : State) : State := mkState 0 [] [].

End WithConfig.

End Tracker.

(** ** The agents behind the common [BaseAgent] interface *)

Inductive AgentKind : Type :=
| FallAgent
| SeizureAgent
| VitalSignsAgent
| BedExitAgent
| ImmobilityAgent.

Definition agent_config (k : AgentKind) : Type :=
  match k with
  | FallAgent => Fall.Config
  | SeizureAgent => Seizure.Config
  | VitalSignsAgent => Vital.Config
  | BedExitAgent => BedExit.Config
  | ImmobilityAgent => Immobility.Config
  end.

Definition agent_state (k : AgentKind) : Type :=
  match k with
  | FallAgent => Fall.State
  | SeizureAgent => Seizure.State
  | VitalSignsAgent => Vital.State
  | BedExitAgent => BedExit.State
  | ImmobilityAgent => Immobility.State
  end.

Definition agent_enabled (k : AgentKind) : agent_state k -> bool :=
  match k with
  | FallAgent => Fall.enabled
  | SeizureAgent => Seizure.enabled
  | VitalSignsAgent => Vital.enabled
  | BedExitAgent => BedExit.enabled
  | ImmobilityAgent => Immobility.enabled
  end.

(** [self.frame_count += 1], the first statement of every enabled
    [detect]. *)
Definition agent_count_frame (k : AgentKind) : agent_state k -> agent_state k :=
  match k with
  | FallAgent => fun s => Fall.set_frame_count (Fall.frame_count s + 1) s
  | SeizureAgent => fun s => Seizure.set_frame_count (Seizure.frame_count s + 1) s
  | VitalSignsAgent => fun s => Vital.set_frame_count (Vital.frame_count s + 1) s
  | BedExitAgent => fun s => BedExit.set_frame_count (BedExit.frame_count s + 1) s
  | ImmobilityAgent => fun s => Immobility.set_frame_count (Immobility.frame_count s + 1) s
  end.

Definition agent_detect (env : Env) (k : AgentKind)
  : agent_config k -> Image -> FrameMetadata -> M (agent_state k) (option Event) :=
  match k with
  | FallAgent => Fall.detect env
  | SeizureAgent => Seizure.detect env
  | VitalSignsAgent => Vital.detect env
  | BedExitAgent => BedExit.detect env
  | ImmobilityAgent => Immobility.detect env
  end.

(** A run of a method over successive inputs.  Each call is recorded with
    the world and the state it started from and with what it returned; the
    run ends at the first call that raises.  Next to the record come the
    world and the state after the last call. *)
Record Call (St In A : Type) : Type := mkCall {
  world_before : World;
  state_before : St;
  input : In;
  returned : A
}.
Arguments mkCall {St In A} world_before state_before input returned.

Fixpoint run {St In A} (step : In -> M St A) (inputs : list In) (w : World) (s : St)
  : list (Call St In A) * World * St :=
  match inputs with
  | [] => ([], w, s)
  | i :: rest =>
      match step i w s with
      | Ok a w' s' =>
          let '(calls, w'', s'') := run step rest w' s' in
          (mkCall w s i a :: calls, w'', s'')
      | Raised _ w' s' => ([], w', s')
      end
  end.

(** The states a run went through: the one before each call, then the
    final one. *)
Definition states_of {St In A} (calls : list (Call St In A)) (final : St) : list St :=
  map (@state_before St In A) calls ++ [final].

(** * The vocabulary of the properties *)

Unset Implicit Arguments.

(** ** The fall agent *)

Module FallSpec.
Import Fall.

(** The priority order of the classification, on the indicators of a
    frame: the fall type and the confidence that goes with it. *)
Inductive Classified (cfg : Config) (ind : Indicators) : option (string * Q) -> Prop :=
| Lying :
    ind_hip_height ind < hip_height_threshold cfg ->
    ind_torso_angle ind > fall_angle_threshold cfg ->
    Classified cfg ind (Some ("lying", lying_confidence ind))
| Falling :
    ~ (ind_hip_height ind < hip_height_threshold cfg
       /\ ind_torso_angle ind > fall_angle_threshold cfg) ->
    ind_vertical_velocity ind > velocity_threshold cfg ->
    ind_torso_angle ind > fall_angle_threshold cfg / 2 ->
    Classified cfg ind (Some ("fall", fall_confidence ind))
| NearFall :
    ~ (ind_hip_height ind < hip_height_threshold cfg
       /\ ind_torso_angle ind > fall_angle_threshold cfg) ->
    ~ (ind_vertical_velocity ind > velocity_threshold cfg
       /\ ind_torso_angle ind > fall_angle_threshold cfg / 2) ->
    ind_vertical_velocity ind > 0.7 * velocity_threshold cfg ->
    ind_torso_angle ind > 0.7 * fall_angle_threshold cfg ->
    Classified cfg ind (Some ("near_fall", near_fall_confidence ind))
| Unclassified :
    ~ (ind_hip_height ind < hip_height_threshold cfg
       /\ ind_torso_angle ind > fall_angle_threshold cfg) ->
    ~ (ind_vertical_velocity ind > velocity_threshold cfg
       /\ ind_torso_angle ind > fall_angle_threshold cfg / 2) ->
    ~ (ind_vertical_velocity ind > 0.7 * velocity_threshold cfg
       /\ ind_torso_angle ind > 0.7 * fall_angle_threshold cfg) ->
    Classified cfg ind None.

(** The flags of an indicator dictionary are the comparisons of its own
    three measurements with the thresholds. *)
Definition flags_of_measurements (cfg : Config) (ind : Indicators) : Prop :=
  is_lying ind
  = (ind_hip_height ind <? hip_height_threshold cfg)
      && (ind_torso_angle ind >? fall_angle_threshold cfg)
  /\ is_falling ind
     = (ind_vertical_velocity ind >? velocity_threshold cfg)
         && (ind_torso_angle ind >? fall_angle_threshold cfg / 2)
  /\ is_near_fall ind
     = (ind_vertical_velocity ind >? velocity_threshold cfg * 0.7)
         && (ind_torso_angle ind >? fall_angle_threshold cfg * 0.7).

(** The measurements of a frame, from the pose, the frame height and the
    window: keypoint [i] of a pose, the height of the hip midpoint in the
    image, the torso angle as the code takes it, from the vector that leads
    from the hip midpoint to the shoulder midpoint, the normalised hip
    height, and the speed of the hip midpoint between the oldest and the
    latest sample of the window. *)
Definition keypoint_of (pose : PoseData) (i : nat) : Keypoint :=
  nth i (keypoints pose) (mkKeypoint 0 0 0 0 0).

Definition hip_y_of (pose : PoseData) : Q :=
  mid (ky (keypoint_of pose 23)) (ky (keypoint_of pose 24)).

Definition torso_angle_of (env : Env) (pose : PoseData) : Q :=
  Qabs (arctan2_deg env
          (mid (kx (keypoint_of pose 11)) (kx (keypoint_of pose 12))
           - mid (kx (keypoint_of pose 23)) (kx (keypoint_of pose 24)))
          (mid (ky (keypoint_of pose 11)) (ky (keypoint_of pose 12))
           - hip_y_of pose)).

Definition hip_height_of (pose : PoseData) (frame_height : Z) : Q :=
  1 - hip_y_of pose / inject_Z frame_height.

Definition vertical_velocity_of (window : TemporalBuffer.t Sample) : Q :=
  if (TemporalBuffer.len window <? 2)%nat then 0 else
  match TemporalBuffer.get_oldest window, TemporalBuffer.get_latest window with
  | Some first_frame, Some last_frame =>
      let time_diff := sample_timestamp last_frame - sample_timestamp first_frame in
      if time_diff >? 0 then
        min1 (Qabs (hip_y_of (sample_pose last_frame) - hip_y_of (sample_pose first_frame))
              / time_diff / 100)
      else 0
  | _, _ => 0
  end.

(** The indicators [ind] hold the measurements of the pose [pose] in a frame
    of height [frame_height] with the window [window], and the three
    confidences computed from them. *)
Definition measured (env : Env) (pose : PoseData) (frame_height : Z)
  (window : TemporalBuffer.t Sample) (ind : Indicators) : Prop :=
  ind_torso_angle ind = torso_angle_of env pose
  /\ ind_hip_height ind = hip_height_of pose frame_height
  /\ ind_vertical_velocity ind = vertical_velocity_of window
  /\ lying_confidence ind
     = min1 ((1 - ind_hip_height ind) * (ind_torso_angle ind / 90))
  /\ fall_confidence ind
     = min1 (ind_vertical_velocity ind * (ind_torso_angle ind / 90))
  /\ near_fall_confidence ind = min1 (ind_vertical_velocity ind * 0.8).

(** The torso angle in the words of the specification: the angle from
    vertical of the vector that leads from the shoulder midpoint to the hip
    midpoint, by the arctangent of (dx, dy). *)
Definition spec_torso_angle (env : Env) (pose : PoseData) : Q :=
  Qabs (arctan2_deg env
          (mid (kx (keypoint_of pose 23)) (kx (keypoint_of pose 24))
           - mid (kx (keypoint_of pose 11)) (kx (keypoint_of pose 12)))
          (hip_y_of pose
           - mid (ky (keypoint_of pose 11)) (ky (keypoint_of pose 12)))).

(** Every buffered pose has at least [n] keypoints. *)
Definition poses_have (n : nat) (b : TemporalBuffer.t Sample) : Prop :=
  Forall (fun smp => (n <= length (keypoints (sample_pose smp)))%nat)
         (TemporalBuffer.buffer b).

(** The state [detect] has reached when it evaluates a frame with pose [p]:
    the frame is counted and its sample buffered. *)
Definition buffered (metadata : FrameMetadata) (detection : PersonDetection)
  (p : PoseData) (s : State) : State :=
  set_pose_buffer
    (TemporalBuffer.add (mkSample p (timestamp metadata) (bbox detection)) (pose_buffer s))
    (set_frame_count (frame_count s + 1) s).

(** One call of [detect] in a run over (frame, metadata) pairs. *)
Definition step (env : Env) (cfg : Config) (i : Image * FrameMetadata)
  : M State (option Event) :=
  detect env cfg (fst i) (snd i).

(** The names [detect] gives to a fall. *)
Definition fall_types : list string := ["lying"; "fall"; "near_fall"].

End FallSpec.

(** ** The seizure agent *)

Module SeizureSpec.
Import Seizure.

(** The state in which [detect] evaluates a frame with the pose [p]: the
    frame is counted and its sample buffered. *)
Definition buffered (metadata : FrameMetadata) (p : PoseData) (s : State) : State :=
  set_pose_buffer
    (TemporalBuffer.add (mkPoseSample p (timestamp metadata)) (pose_buffer s))
    (set_frame_count (frame_count s + 1) s).

Section WithEnv.
Variable env : Env.
Variable cfg : Config.

(** One call of [detect] in a run over (frame, metadata) pairs. *)
Definition step (i : Image * FrameMetadata) : M State (Stage * option Event) :=
  detect_staged env cfg (fst i) (snd i).

(** One call of [detect] itself in such a run. *)
Definition call (i : Image * FrameMetadata) : M State (option Event) :=
  detect env cfg (fst i) (snd i).

(** The seizure condition of a frame is evaluated, and the analysis finds
    the indicators [ind]: the agent is enabled, the first detection of the
    frame has a pose, the window with the sample of the frame is full, the
    cooldown has elapsed at the first clock reading of the call, and the
    analysis of the limb movements of that window returns [ind]. *)
Definition evaluates (w : World) (s : State) (metadata : FrameMetadata) (ind : Indicators)
  : Prop :=
  enabled s = true
  /\ exists detection rest p,
       detections metadata = detection :: rest
       /\ pose detection = Some p
       /\ (buffer_size cfg
           <= TemporalBuffer.len (pose_buffer (buffered metadata p s)))%nat
       /\ event_cooldown cfg <= clock env (time_reads w) - last_event_time s
       /\ _analyze_limb_movements env cfg (tick w) (buffered metadata p s)
          = Ok ind (tick w) (buffered metadata p s).

(** The per-frame seizure condition evaluates to [b]. *)
Definition condition (w : World) (s : State) (metadata : FrameMetadata) (b : bool)
  : Prop :=
  exists ind, evaluates w s metadata ind /\ ind_seizure_detected ind = b.

(** The same, of a call recorded in a run. *)
Definition condition_at (c : Call State (Image * FrameMetadata) (option Event))
  (b : bool) : Prop :=
  condition (world_before c) (state_before c) (snd (input c)) b.

(** What one call does to the episode start time, by the way it returned. *)
Definition step_spec (w : World) (s : State) (res : Res State (Stage * option Event)) : Prop :=
  match res with
  | Ok (Skipped, r) w' s' =>
      r = None /\ seizure_start_time s' = seizure_start_time s
  | Ok (Evaluated false, r) w' s' =>
      r = None /\ seizure_start_time s' = None
  | Ok (Evaluated true, r) w' s' =>
      exists t0,
        seizure_start_time s' = Some t0
        /\ (seizure_start_time s = Some t0
            \/ (seizure_start_time s = None /\ t0 = clock env (S (time_reads w))))
        /\ forall ev, r = Some ev ->
             exists d k, payload ev = PSeizure d
                         /\ duration d = clock env k - t0
                         /\ (time_reads w < k)%nat
                         /\ duration d > duration_threshold cfg
  | Raised _ w' s' => seizure_start_time s' = seizure_start_time s
  end.

End WithEnv.

End SeizureSpec.

(** ** The vital signs agent *)

Module VitalSpec.
Import Vital.

(** The first detection of the frame has a face box whose crop, clipped to
    the frame, is not empty. *)
Definition frame_has_face (frame : Image) (metadata : FrameMetadata) : Prop :=
  exists detection rest fb,
    detections metadata = detection :: rest
    /\ face_bbox detection = Some fb
    /\ (Z.max 0 (py_int (x1 fb)) < Z.min (shape1 frame) (py_int (x2 fb)))%Z
    /\ (Z.max 0 (py_int (y1 fb)) < Z.min (shape0 frame) (py_int (y2 fb)))%Z.

(** The face region of a frame: the face box of its first detection,
    truncated to integers and clipped to the frame; [None] when there is no
    detection, no face box, or nothing left of the box inside the frame. *)
Definition face_crop (frame : Image) (metadata : FrameMetadata) : option Image :=
  match detections metadata with
  | [] => None
  | detection :: _ =>
      match face_bbox detection with
      | None => None
      | Some fb =>
          let fx1 := Z.max 0 (py_int (x1 fb)) in
          let fy1 := Z.max 0 (py_int (y1 fb)) in
          let fx2 := Z.min (shape1 frame) (py_int (x2 fb)) in
          let fy2 := Z.min (shape0 frame) (py_int (y2 fb)) in
          if ((fx2 <=? fx1) || (fy2 <=? fy1))%Z then None
          else Some (crop frame fy1 fy2 fx1 fx2)
      end
  end.

(** The window once the face region [roi] of a frame is buffered. *)
Definition window_with (roi : Image) (s : State) : TemporalBuffer.t Image :=
  TemporalBuffer.add roi (face_roi_buffer s).

(** The event that reports the readings [v] on the frame of [metadata]. *)
Definition event_of (metadata : FrameMetadata) (v : VitalSigns) : Event :=
  mkEvent "vital_signs" (timestamp metadata) (vs_signal_quality v)
          "vital_signs" (frame_id metadata)
          (PVital (mkVitalData (Some (vs_heart_rate v)) (Some (vs_respiratory_rate v))
                               (vs_signal_quality v)
                               (vs_hr_confidence v) (vs_rr_confidence v))).

Section WithEnv.
Variable env : Env.
Variable cfg : Config.

(** One call of [detect] in a run over (frame, metadata) pairs. *)
Definition step (i : Image * FrameMetadata) : M State (Stage * option Event) :=
  detect_staged env cfg (fst i) (snd i).

(** One call of [detect] itself in such a run. *)
Definition call (i : Image * FrameMetadata) : M State (option Event) :=
  detect env cfg (fst i) (snd i).

(** Nothing keeps the window of this frame from being processed: the agent
    is enabled, the frame has the face region [roi], the update interval
    has elapsed at this frame and the window with [roi] is full. *)
Definition processes (frame : Image) (metadata : FrameMetadata) (s : State) (roi : Image)
  : Prop :=
  enabled s = true
  /\ face_crop frame metadata = Some roi
  /\ (update_interval cfg <= frame_count s + 1 - last_update_frame s)%Z
  /\ (window_size cfg <= TemporalBuffer.len (window_with roi s))%nat.

(** What the processing of a window makes [detect] return: the event of
    the readings when they pass the three checks, nothing otherwise. *)
Definition answer (metadata : FrameMetadata) (window : TemporalBuffer.t Image)
  : option Event :=
  match process env cfg (TemporalBuffer.buffer window) with
  | Some v => if valid cfg v then Some (event_of metadata v) else None
  | None => None
  end.

(** The readings are within the configured ranges and the quality reaches
    its threshold. *)
Definition in_range (v : VitalSigns) : Prop :=
  fst (hr_range cfg) <= vs_heart_rate v <= snd (hr_range cfg)
  /\ fst (rr_range cfg) <= vs_respiratory_rate v <= snd (rr_range cfg)
  /\ signal_quality_threshold cfg <= vs_signal_quality v.

(** Nothing throttles the next analysis: the agent is enabled, the update
    interval has elapsed and the buffer is full. *)
Definition due (s : State) : Prop :=
  enabled s = true
  /\ (update_interval cfg <= frame_count s + 1 - last_update_frame s)%Z
  /\ (window_size cfg <= TemporalBuffer.len (face_roi_buffer s))%nat.

(** What one call does, by the [return] statement it left through. *)
Definition staged_spec (frame : Image) (metadata : FrameMetadata) (w : World) (s : State)
  (res : Res State (Stage * option Event)) : Prop :=
  match res with
  | Ok (st, r) w' s' =>
      w' = w
      /\ enabled s' = enabled s
      /\ (frame_count s <= frame_count s')%Z
      /\ (TemporalBuffer.len (face_roi_buffer s)
          <= TemporalBuffer.len (face_roi_buffer s'))%nat
      /\ (st = Disabled -> enabled s = false)
      /\ (st = NoDetection \/ st = NoFace \/ st = EmptyCrop -> ~ frame_has_face frame metadata)
      /\ (st = Throttled ->
          (frame_count s + 1 - last_update_frame s < update_interval cfg)%Z)
      /\ (st = Filling ->
          (TemporalBuffer.len (face_roi_buffer s') < window_size cfg)%nat)
      /\ match st with
         | Processed result =>
             result = process env cfg (TemporalBuffer.buffer (face_roi_buffer s'))
             /\ enabled s = true
             /\ (update_interval cfg <= frame_count s' - last_update_frame s)%Z
             /\ (window_size cfg <= TemporalBuffer.len (face_roi_buffer s'))%nat
             /\ match result with
                | Some v =>
                    if valid cfg v then
                      last_update_frame s' = frame_count s'
                      /\ r = Some (mkEvent "vital_signs" (timestamp metadata)
                                     (vs_signal_quality v) "vital_signs" (frame_id metadata)
                                     (PVital (mkVitalData
                                                (Some (vs_heart_rate v))
                                                (Some (vs_respiratory_rate v))
                                                (vs_signal_quality v)
                                                (vs_hr_confidence v)
                                                (vs_rr_confidence v))))
                    else r = None /\ last_update_frame s' = last_update_frame s
                | None => r = None /\ last_update_frame s' = last_update_frame s
                end
         | _ => r = None /\ last_update_frame s' = last_update_frame s
         end
  | Raised _ _ _ => False
  end.

End WithEnv.

End VitalSpec.

(** ** The bed exit agent *)

Module BedExitSpec.
Import BedExit.

(** The number of places where two successive items of a list differ. *)
Fixpoint count_changes (l : list string) : nat :=
  match l with
  | a :: (b :: _) as rest => (if String.eqb a b then 0 else 1) + count_changes rest
  | _ => 0
  end.

(** The events a run returned, in order. *)
Definition emitted {St In} (calls : list (Call St In (option Event))) : list Event :=
  flat_map (fun c => match returned c with Some ev => [ev] | None => [] end) calls.

(** The four states of the bed-exit state machine. *)
Definition state_names : list string :=
  ["IN_BED"; "SITTING_UP"; "STANDING"; "OUT_OF_BED"].

(** The boxes a calibration collects from a sequence of frames: the box of
    the first detection of every frame that has one. *)
Definition first_boxes (inputs : list (Image * FrameMetadata)) : list BoundingBox :=
  flat_map (fun i => match detections (snd i) with
                     | detection :: _ => [bbox detection]
                     | [] => []
                     end) inputs.

Section WithEnv.
Variable env : Env.
Variable cfg : Config.

(** One call of [detect] in a run over (frame, metadata) pairs. *)
Definition step (i : Image * FrameMetadata) : M State (option Event) :=
  detect env cfg (fst i) (snd i).

(** The state in which [detect] classifies the frame: the frame is
    counted. *)
Definition counted (s : State) : State := set_frame_count (frame_count s + 1) s.

(** What one call does to the stored state, by its result. *)
Definition detect_spec (metadata : FrameMetadata) (w : World) (s : State)
  (res : Res State (option Event)) : Prop :=
  match res with
  | Ok (Some ev) w' s' =>
      exists region detection rest p new_state,
        bed_region s = Some region
        /\ detections metadata = detection :: rest
        /\ pose detection = Some p
        /\ _determine_state env cfg (bbox detection) p (height metadata) w (counted s)
           = Ok new_state w (counted s)
        /\ new_state <> current_state s
        /\ In new_state (alert_on_states cfg)
        /\ current_state s' = new_state
        /\ ev = mkEvent "bed_exit" (timestamp metadata) (transition_confidence cfg)
                  "bed_exit" (frame_id metadata)
                  (PBedExit (mkBedExitData new_state (Some (current_state s)) true 0
                               (Some region) (Some (bbox detection))))
  | Ok None w' s' => True
  | Raised _ w' s' => current_state s' = current_state s
  end.

End WithEnv.

End BedExitSpec.

(** ** The orchestrator *)

Module OrchestratorSpec.
Import Orchestrator.

(** The event types [_is_covered_by_rules] lets through to an individual
    alert. *)
Definition uncovered (e : Event) : Prop :=
  event_type e = "emotion_detection" \/ event_type e = "vital_signs".

(** The event type a condition of a rule asks for; [None] for the
    condition on the time of day and for a name [_apply_rule] does not
    know. *)
Definition required_type (condition : string) : option string :=
  if String.eqb condition "fall_detected" then Some "fall_detection"
  else if String.eqb condition "low_heart_rate" then Some "vital_signs"
  else if String.eqb condition "bed_exit" then Some "bed_exit"
  else if String.eqb condition "immobility_alert" then Some "immobility"
  else if String.eqb condition "seizure" then Some "seizure_detection"
  else None.

(** A heart rate is reported, is not zero and is below 50. *)
Definition low_heart_rate (e : Event) : Prop :=
  exists d hr, payload e = PVital d /\ heart_rate d = Some hr /\ hr < 50 /\ ~ hr == 0.

(** Every event of type [vital_signs] is a [VitalSignsEvent]. *)
Definition vitals_well_typed (evs : list Event) : Prop :=
  forall e, In e evs -> event_type e = "vital_signs" -> exists d, payload e = PVital d.

(** The events of a batch that get an individual alert. *)
Definition uncoveredb (e : Event) : bool := negb (_is_covered_by_rules e).

Section WithEnv.
Variable env : Env.
Variable cfg : Config.

(** A consolidated alert made by [_apply_rule] from a batch. *)
Definition from_rule (evs : list Event) (a : ConsolidatedAlert) : Prop :=
  exists name rule,
    In (name, rule) (rules cfg)
    /\ metadata a = [("rule", name)]
    /\ level a = rule_level rule
    /\ message a = rule_message rule
    /\ events a <> []
    /\ incl (events a) evs.

(** The single-event alert [_create_individual_alert] makes of [e]. *)
Definition wraps (a : ConsolidatedAlert) (e : Event) : Prop :=
  events a = [e]
  /\ level a = individual_level e
  /\ message a = individual_message env e
  /\ alert_timestamp a = event_timestamp e
  /\ metadata a = [("source", agent_name e)].

Definition from_event (evs : list Event) (a : ConsolidatedAlert) : Prop :=
  exists e, In e evs /\ uncovered e /\ wraps a e.

(** At its clock read [k], the alert [a] had no recorded alert of the same
    message within the deduplication window. *)
Definition fresh_at (k : nat) (recorded : list ConsolidatedAlert) (a : ConsolidatedAlert)
  : Prop :=
  forall r, In r recorded -> message r = message a ->
            deduplication_window cfg <= clock env k - alert_timestamp r.

(** At a clock read [k] between the reads [lo] and [hi], a recorded alert
    with the message of [e]'s individual alert was within the window. *)
Definition duplicate_between (lo hi : nat) (recorded : list ConsolidatedAlert) (e : Event)
  : Prop :=
  exists r k, In r recorded
              /\ message r = individual_message env e
              /\ (lo <= k < hi)%nat
              /\ clock env k - alert_timestamp r < deduplication_window cfg.

Section Call.
(** One call of [process_events] on the batch [evs], entered with the
    recorded alerts [R0] in the world [w0]. *)
Variable evs : list Event.
Variable R0 : list ConsolidatedAlert.
Variable w0 : World.

(** The invariant of both loops of [process_events] on the alerts returned
    so far. *)
Definition Inv (out : list ConsolidatedAlert) (w : World) (s : State) : Prop :=
  recent_alerts s = R0 ++ out
  /\ (time_reads w0 <= time_reads w)%nat
  /\ (forall o1 a o2,
        out = o1 ++ a :: o2 ->
        exists k, (time_reads w0 <= k < time_reads w)%nat /\ fresh_at k (R0 ++ o1) a)
  /\ Forall (fun a => from_rule evs a \/ from_event evs a) out.

(** Every uncovered event handled so far is wrapped in a returned alert or
    was discarded as a duplicate. *)
Definition settled (done : list Event) (out : list ConsolidatedAlert) (w : World) : Prop :=
  forall e, In e done -> uncovered e ->
            (exists a, In a out /\ wraps a e)
            \/ duplicate_between (time_reads w0) (time_reads w) (R0 ++ out) e.

End Call.

End WithEnv.

End OrchestratorSpec.

(** ** Bounding boxes *)

Module GeometrySpec.

(** The corners of a box are in order. *)
Definition well_formed (b : BoundingBox) : Prop :=
  x1 b <= x2 b /\ y1 b <= y2 b.

(** Two boxes do not overlap: one lies beside or above the other. *)
Definition apart (b1 b2 : BoundingBox) : Prop :=
  x2 b1 <= x1 b2 \/ x2 b2 <= x1 b1 \/ y2 b1 <= y1 b2 \/ y2 b2 <= y1 b1.

End GeometrySpec.

(** ** The fallback tracker *)

Module TrackerSpec.
Import Tracker.

Definition keys {V} (d : dict V) : list Z := map fst d.

(** The tracks have distinct identifiers, all of them non-negative and
    below the next identifier. *)
Definition well_tracked (s : State) : Prop :=
  (0 <= next_id s)%Z
  /\ Forall (fun k => (0 <= k < next_id s)%Z) (keys (tracks s))
  /\ NoDup (keys (tracks s)).

(** The detections as tracked objects numbered from [start] on. *)
Fixpoint numbered (start : Z) (detections : list BoundingBox) : list TrackedObject :=
  match detections with
  | [] => []
  | det :: rest => tracked start det :: numbered (start + 1) rest
  end.

End TrackerSpec.

(** * Concrete scenarios *)

Module Examples.

(** A test environment: the clock advances by three seconds per read from
    100, it is noon, the arctangent is exact on the axes and 90 degrees
    elsewhere, every analysed limb oscillates and no pulse can be
    extracted. *)
Definition env0 : Env :=
  mkEnv (fun n => 100 + 3 * inject_Z (Z.of_nat n))
        (fun _ => 12%Z)
        (fun _ => "00000000-0000-4000-8000-000000000000")
        (fun a b => if Qeq_bool a 0 then (if b <? 0 then 180 else 0) else 90)
        (fun x => x)
        (fun _ _ _ => mkFft true 5 1)
        (fun _ _ _ => None)
        (fun x => if Qeq_bool x 72 then "72.0" else "15.0").

(** The same environment under a clock that reads 100 twice and 1000 from
    then on. *)
Definition env_late : Env :=
  mkEnv (fun n => if (n <? 2)%nat then 100 else 1000)
        (local_hour env0) (uuid4 env0) (arctan2_deg env0) (np_sqrt env0)
        (fft_analysis env0) (pulse_analysis env0) (str_float env0).

Definition keypoint_at (x y v : Q) : Keypoint := mkKeypoint x y 0 v v.

(** A person lying low in a frame of height 1000: shoulders at x = 300,
    hips at x = 500, everything at y = 900. *)
Definition pose_lying : PoseData :=
  mkPose (map (fun i => if (i <? 23)%nat then keypoint_at 300 900 1
                        else keypoint_at 500 900 1) (seq 0 33)) 0.

(** Keypoint [i] at (i * i, i), all visible but the left elbow (13). *)
Definition pose_occluded_elbow : PoseData :=
  mkPose (map (fun i => keypoint_at (inject_Z (Z.of_nat (i * i))) (inject_Z (Z.of_nat i))
                          (if (i =? 13)%nat then 0.2 else 1)) (seq 0 33)) 0.

Definition box : BoundingBox := mkBBox 200 800 600 1000 1.
Definition face_box : BoundingBox := mkBBox 0 0 2 2 1.
Definition bed : BoundingBox := mkBBox 2000 2000 3000 3000 1.

Definition person (p : PoseData) : PersonDetection :=
  mkDetection 1 box 1 (Some p) (Some face_box).

Definition frame_meta (p : PoseData) : FrameMetadata :=
  mkMeta 30 100 1000 1000 30 [person p].

Definition image : Image := [[(1, 1, 1); (1, 1, 1)]; [(1, 1, 1); (1, 1, 1)]].

(** The fall agent one sample short of a full window. *)
Definition fall_state : Fall.State :=
  Fall.mkState true 29
    (TemporalBuffer.mk 30 (repeat (Fall.mkSample pose_lying 0 box) 29)) 0.

Definition fall_disabled : Fall.State :=
  Fall.mkState false 29
    (TemporalBuffer.mk 30 (repeat (Fall.mkSample pose_lying 0 box) 29)) 0.

(** The seizure agent with a full window of the pose with the occluded
    elbow, and one sample short of a full window of visible poses. *)
Definition seizure_occluded : Seizure.State :=
  Seizure.mkState true 150
    (TemporalBuffer.mk 150 (repeat (mkPoseSample pose_occluded_elbow 0) 150)) None 0.

Definition seizure_state : Seizure.State :=
  Seizure.mkState true 149
    (TemporalBuffer.mk 150 (repeat (mkPoseSample pose_lying 0) 149)) None 0.

(** The vital signs agent with a window of one frame, updating on every
    frame. *)
Definition vital_config : Vital.Config :=
  Vital.mkConfig "CHROM" 30 1 (40, 180) (8, 30) 0.6 1.

(** The bed exit agent calibrated to a bed away from the person. *)
Definition bed_exit_state : BedExit.State := BedExit.init (Some bed) 100.

Definition fall_event : Event :=
  mkEvent "fall_detection" 100 0.9 "fall_detection" 100
          (PFall (mkFallData "fall" None None None None None)).

Definition vital_event : Event :=
  mkEvent "vital_signs" 100 0.8 "vital_signs" 100
          (PVital (mkVitalData (Some 72) (Some 15) 0.8 0.9 0.9)).

(** The test environment with a pulse extractor that always reports 72
    beats and 15 breaths per minute at a signal quality of exactly 0.6. *)
Definition env_pulse : Env :=
  mkEnv (clock env0) (local_hour env0) (uuid4 env0) (arctan2_deg env0) (np_sqrt env0)
        (fft_analysis env0)
        (fun _ _ _ => Some (mkVitalSigns 72 15 0.6 0.9 0.9))
        (str_float env0).

(** A frame in which nobody was detected. *)
Definition empty_meta : FrameMetadata := mkMeta 31 101 1000 1000 30 [].

(** The seizure agent one sample short of a full window, in an episode that
    started at time 90. *)
Definition seizure_ongoing : Seizure.State :=
  Seizure.mkState true 149
    (TemporalBuffer.mk 150 (repeat (mkPoseSample pose_lying 0) 149)) (Some 90) 0.

(** A person standing upright in a frame of height 1000: shoulders at
    y = 600 straight above the hips at y = 750, everything at x = 500; and
    the fall agent one sample short of a full window of that pose. *)
Definition pose_upright : PoseData :=
  mkPose (map (fun i => if (i <? 23)%nat then keypoint_at 500 600 1
                        else keypoint_at 500 750 1) (seq 0 33)) 0.

Definition fall_upright : Fall.State :=
  Fall.mkState true 29
    (TemporalBuffer.mk 30 (repeat (Fall.mkSample pose_upright 0 box) 29)) 0.

(** The test environment under a clock that advances by one second per
    read from 100, with a limb analysis that reports the seizure pattern
    exactly for the trajectories that are not constant. *)
Definition moving (trajectory : list (Q * Q)) : bool :=
  match trajectory with
  | [] => false
  | p :: rest =>
      negb (forallb (fun q => Qeq_bool (fst q) (fst p) && Qeq_bool (snd q) (snd p)) rest)
  end.

Definition env_motion : Env :=
  mkEnv (fun n => 100 + inject_Z (Z.of_nat n))
        (local_hour env0) (uuid4 env0) (arctan2_deg env0) (np_sqrt env0)
        (fun _ _ trajectory => mkFft (moving trajectory) 5 1)
        (pulse_analysis env0) (str_float env0).

(** The default seizure configuration with a window of two frames. *)
Definition seizure_small : Seizure.Config := Seizure.mkConfig (3, 10) 0.3 5 0.75 2 2 10.

(** The lying person with every keypoint moved to x = 310. *)
Definition pose_shifted : PoseData :=
  mkPose (map (fun _ => keypoint_at 310 900 1) (seq 0 33)) 0.

(** Fifteen frames: the person moves from frame to frame over the first
    five, lies still for nine frames and moves again in the last. *)
Definition episode_frames : list (Image * FrameMetadata) :=
  [ (image, frame_meta pose_lying); (image, frame_meta pose_shifted);
    (image, frame_meta pose_lying); (image, frame_meta pose_shifted);
    (image, frame_meta pose_lying) ]
  ++ repeat (image, frame_meta pose_lying) 9
  ++ [ (image, frame_meta pose_shifted) ].

(** The vital signs agent with a window of one frame, updating every third
    frame, two frames after its last update. *)
Definition vital_slow_config : Vital.Config :=
  Vital.mkConfig "CHROM" 30 1 (40, 180) (8, 30) 0.6 3.

Definition vital_due : Vital.State :=
  Vital.mkState true 2 (TemporalBuffer.init 1) 0.

(** The bed exit agent before its calibration, and thirty frames of the
    lying person. *)
Definition uncalibrated : BedExit.State := BedExit.init None 100.

Definition thirty_frames : list (Image * FrameMetadata) :=
  repeat (image, frame_meta pose_lying) 30.

(** The immobility agent created when the clock read 0, the last movement
    having been 8000 seconds earlier. *)
Definition immobile_state : Immobility.State := Immobility.init (-8000) 0.

Definition bed_exit_event : Event :=
  mkEvent "bed_exit" 100 0.7 "bed_exit" 100
          (PBedExit (mkBedExitData "OUT_OF_BED" (Some "IN_BED") true 0 None None)).

Definition low_heart_rate_event : Event :=
  mkEvent "vital_signs" 100 0.8 "vital_signs" 100
          (PVital (mkVitalData (Some 45) (Some 15) 0.8 0.9 0.9)).

(** The fallback tracker following one person in [box] under the
    identifier 0. *)
Definition tracker_state : Tracker.State := Tracker.mkState 1 [(0%Z, box)] [(0%Z, 0%Z)].

Definition critical_fall : Orchestrator.Rule :=
  Orchestrator.mkRule ["fall_detected"; "low_heart_rate"] "CRITICAL"
    "Critical: Fall detected with abnormal vital signs".

Definition bed_exit_night : Orchestrator.Rule :=
  Orchestrator.mkRule ["bed_exit"; "nighttime"] "HIGH"
    "High Alert: Patient exited bed during nighttime".

(** The orchestrator after a first tick with one vital signs event. *)
Definition after_first_tick : World * Orchestrator.State :=
  match Orchestrator.process_events env_late Orchestrator.default_config
          [vital_event] world0 Orchestrator.init with
  | Ok _ w s => (w, s)
  | Raised _ w s => (w, s)
  end.

End Examples.

(** * Properties *)

(** ** Comparisons *)

Lemma Qltb_lt (x y : Q) : (x <? y) = true <-> x < y.
Proof.
  unfold Qltb. rewrite negb_true_iff, <- not_true_iff_false, Qle_bool_iff.
  split; [apply Qnot_le_lt | apply Qlt_not_le].
Qed.

Lemma Qltb_ge (x y : Q) : (x <? y) = false <-> y <= x.
Proof.
  unfold Qltb. rewrite negb_false_iff. apply Qle_bool_iff.
Qed.

Lemma Qleb_le (x y : Q) : (x <=? y) = true <-> x <= y.
Proof. apply Qle_bool_iff. Qed.

Lemma Qleb_gt (x y : Q) : (x <=? y) = false <-> y < x.
Proof.
  unfold Qleb. rewrite <- not_true_iff_false, Qle_bool_iff.
  split; [apply Qnot_le_lt | apply Qlt_not_le].
Qed.

(** ** The sliding window buffer *)

Module TemporalBufferFacts.
Import TemporalBuffer.

Section Facts.
Context {A : Type}.
Implicit Types (b : t A) (xs : list A).

Lemma len_add_le x b :
  (length (buffer b) <= maxlen b)%nat ->
  (length (buffer (add x b)) <= maxlen b)%nat.
Proof.
  intros H. unfold add; simpl.
  destruct (Nat.ltb_spec (maxlen b) (length (buffer b ++ [x]))) as [Hlt | Hge].
  - destruct (buffer b ++ [x]) eqn:E; simpl in *; [lia |].
    assert (L : length (buffer b ++ [x]) = Datatypes.S (length l)) by (rewrite E; reflexivity).
    rewrite length_app in L; simpl in L. lia.
  - exact Hge.
Qed.

Lemma add_skipn x b :
  (length (buffer b) <= maxlen b)%nat ->
  buffer (add x b)
  = skipn (length (buffer b ++ [x]) - maxlen b) (buffer b ++ [x]).
Proof.
  intros H. unfold add; simpl.
  assert (L : length (buffer b ++ [x]) = Datatypes.S (length (buffer b)))
    by (rewrite length_app; simpl; lia).
  destruct (Nat.ltb_spec (maxlen b) (length (buffer b ++ [x]))) as [Hlt | Hge].
  - replace (length (buffer b ++ [x]) - maxlen b)%nat with 1%nat by lia.
    destruct (buffer b ++ [x]); reflexivity.
  - replace (length (buffer b ++ [x]) - maxlen b)%nat with 0%nat by lia.
    reflexivity.
Qed.

Lemma maxlen_add_all xs b : maxlen (add_all xs b) = maxlen b.
Proof.
  revert b; induction xs as [| x xs IH]; intros b; simpl; [reflexivity |].
  unfold add_all in *; simpl. rewrite IH. reflexivity.
Qed.

(** The buffer holds the last [maxlen] items of everything inserted. *)
Lemma add_all_skipn xs b :
  (length (buffer b) <= maxlen b)%nat ->
  buffer (add_all xs b)
  = skipn (length (buffer b ++ xs) - maxlen b) (buffer b ++ xs).
Proof.
  revert b; induction xs as [| x xs IH]; intros b H.
  - simpl. rewrite app_nil_r.
    replace (length (buffer b) - maxlen b)%nat with 0%nat by lia. reflexivity.
  - change (add_all (x :: xs) b) with (add_all xs (add x b)).
    assert (H' : (length (buffer (add x b)) <= maxlen b)%nat)
      by (apply len_add_le; exact H).
    rewrite IH by exact H'.
    change (maxlen (add x b)) with (maxlen b).
    rewrite add_skipn by exact H.
    assert (L : length (buffer b ++ [x]) = Datatypes.S (length (buffer b)))
      by (rewrite length_app; simpl; lia).
    replace (buffer b ++ x :: xs) with ((buffer b ++ [x]) ++ xs)
      by (rewrite <- app_assoc; reflexivity).
    set (l := buffer b ++ [x]) in *.
    destruct (Nat.le_gt_cases (length l) (maxlen b)) as [Hle | Hgt].
    + replace (length l - maxlen b)%nat with 0%nat by lia. reflexivity.
    + replace (length l - maxlen b)%nat with 1%nat by lia.
      destruct l as [| h l']; [simpl in Hgt; lia |].
      change (skipn 1 (h :: l')) with l'.
      change ((h :: l') ++ xs) with (h :: (l' ++ xs)).
      assert (E1 : (length (l' ++ xs) - maxlen b = length xs)%nat)
        by (rewrite length_app; simpl in L, Hgt; lia).
      assert (E2 : (length (h :: l' ++ xs) - maxlen b = Datatypes.S (length xs))%nat)
        by (simpl length; rewrite length_app; simpl in L, Hgt; lia).
      rewrite E1, E2. reflexivity.
Qed.

Lemma add_all_init xs c :
  buffer (add_all xs (init c)) = skipn (length xs - c) xs.
Proof.
  rewrite add_all_skipn by (simpl; lia). reflexivity.
Qed.

(** The parts of the buffer's contract that hold: after [k > c] insertions
    the size is [c], the oldest item is the [(k - c + 1)]-th inserted one,
    a window of at least the size is the whole buffer in insertion order and
    a positive smaller window holds the [n] most recent items in insertion
    order. *)
Lemma contract_after_overflow xs c :
  (c < length xs)%nat ->
  let b := add_all xs (init c) in
  len b = c
  /\ get_oldest b = (if (0 <? c)%nat then nth_error xs (length xs - c) else None)
  /\ (forall n, (Z.of_nat (len b) <= n)%Z -> get_window n b = skipn (length xs - c) xs)
  /\ (forall n, (0 < n < Z.of_nat (len b))%Z ->
        get_window n b = skipn (length xs - Z.to_nat n) xs).
Proof.
  intros Hk b.
  assert (Hb : buffer b = skipn (length xs - c) xs) by apply add_all_init.
  assert (Hlen : len b = c) by (unfold len; rewrite Hb, length_skipn; lia).
  split; [exact Hlen |]. split; [| split].
  - unfold get_oldest. rewrite Hlen.
    destruct (0 <? c)%nat; [| reflexivity].
    rewrite Hb, nth_error_skipn. f_equal; lia.
  - intros n Hn. unfold get_window.
    destruct (Z.geb_spec n (Z.of_nat (len b))); [exact Hb | lia].
  - intros n Hn. unfold get_window, slice_from.
    destruct (Z.geb_spec n (Z.of_nat (len b))); [lia |].
    destruct (Z.ltb_spec (- n) 0); [| lia].
    fold (len b). rewrite Z.max_l by lia.
    rewrite Hb, skipn_skipn. f_equal. lia.
Qed.

Lemma empty_accessors c :
  get_latest (init c : t A) = None /\ get_oldest (init c : t A) = None.
Proof. split; reflexivity. Qed.

(** C8: [get_window(0)] returns every buffered item, because the slice
    [list(self.buffer)[-0:]] starts at index 0; the zero most recent items
    would be the empty list. *)
Theorem get_window_zero_returns_all b : get_window 0 b = buffer b.
Proof.
  unfold get_window, slice_from.
  destruct (Z.geb_spec 0 (Z.of_nat (len b))); [reflexivity |].
  change (- 0 <? 0)%Z with false. cbv iota.
  rewrite Z.min_l by lia. reflexivity.
Qed.

End Facts.

(** At capacity 3, after the insertions 1, 2, 3, 4, the window of size 0 is
    the whole buffer and not the empty list. *)
Example get_window_zero_example :
  get_window 0 (add_all [1; 2; 3; 4]%nat (init 3)) = [2; 3; 4]%nat.
Proof. reflexivity. Qed.

End TemporalBufferFacts.

(** ** Disabled agents *)

(** C10: a disabled agent's [detect] returns [None] and leaves the world and
    every field of the agent as they were, whatever the frame and metadata. *)
Theorem disabled_agent_is_inert (env : Env) (k : AgentKind) (cfg : agent_config k)
  (frame : Image) (metadata : FrameMetadata) (w : World) (s : agent_state k) :
  agent_enabled k s = false ->
  agent_detect env k cfg frame metadata w s = Ok None w s.
Proof.
  intros H. destruct k; simpl in *.
  - unfold Fall.detect, bind, get. rewrite H. reflexivity.
  - unfold Seizure.detect, Seizure.detect_staged, bind, get. rewrite H. reflexivity.
  - unfold Vital.detect, Vital.detect_staged, bind, get. rewrite H. reflexivity.
  - unfold BedExit.detect, bind, get. rewrite H. reflexivity.
  - unfold Immobility.detect, bind, get. rewrite H. reflexivity.
Qed.

(** ** Reasoning about methods *)

Lemma index_in_range {St A} (xs : list A) (i : nat) (w : World) (s : St) :
  (i < length xs)%nat -> exists x, nth_error xs i = Some x /\ index xs i w s = Ok x w s.
Proof.
  intros H. unfold index. destruct (nth_error xs i) as [x |] eqn:E.
  - exists x. split; reflexivity.
  - apply nth_error_None in E. lia.
Qed.

Lemma py_div_nonzero {St} (x y : Q) (w : World) (s : St) :
  ~ y == 0 -> py_div x y w s = Ok (x / y) w s.
Proof.
  intros H. unfold py_div. destruct (Qeq_bool y 0) eqn:E; [| reflexivity].
  apply Qeq_bool_iff in E. contradiction.
Qed.

Lemma inject_Z_nonzero (z : Z) : z <> 0%Z -> ~ inject_Z z == 0.
Proof.
  intros H E. apply H. unfold Qeq, inject_Z in E; simpl in E. lia.
Qed.

(** Rewrites the next [index] of the goal whose list is long enough. *)
Ltac step_index H :=
  match goal with
  | |- context [index ?xs ?i ?w ?s] =>
      let x := fresh "kp" in
      let E := fresh "E" in
      let R := fresh "R" in
      destruct (@index_in_range _ _ xs i w s) as (x & E & R);
      [ lia || (simpl; lia) || (revert H; simpl; lia) | rewrite R; clear R ]
  end.

(** ** The fall agent *)

Module FallFacts.
Import Fall FallSpec.

Section Facts.
Variable env : Env.
Variable cfg : Config.

Lemma and_true_iff_Q (a b : bool) (P R : Prop) :
  (a = true <-> P) -> (b = true <-> R) -> (a && b = true <-> P /\ R).
Proof. intros HP HR. rewrite andb_true_iff, HP, HR. reflexivity. Qed.

Lemma classify_Classified ind :
  flags_of_measurements cfg ind ->
  exists c, Classified cfg ind c
            /\ classify ind = (option_map fst c,
                               match c with Some (_, q) => q | None => 0 end).
Proof.
  intros (Hl & Hf & Hn). unfold classify.
  assert (L : is_lying ind = true <->
              ind_hip_height ind < hip_height_threshold cfg
              /\ ind_torso_angle ind > fall_angle_threshold cfg)
    by (rewrite Hl; apply and_true_iff_Q; apply Qltb_lt).
  assert (F : is_falling ind = true <->
              ind_vertical_velocity ind > velocity_threshold cfg
              /\ ind_torso_angle ind > fall_angle_threshold cfg / 2)
    by (rewrite Hf; apply and_true_iff_Q; apply Qltb_lt).
  assert (N : is_near_fall ind = true <->
              ind_vertical_velocity ind > 0.7 * velocity_threshold cfg
              /\ ind_torso_angle ind > 0.7 * fall_angle_threshold cfg).
  { rewrite Hn. apply and_true_iff_Q; rewrite Qltb_lt;
      (split; intros H; [rewrite Qmult_comm | rewrite Qmult_comm in H]; exact H). }
  destruct (is_lying ind) eqn:El.
  { destruct (proj1 L eq_refl) as (H1 & H2).
    eexists; split; [apply Lying; assumption | reflexivity]. }
  assert (NL : ~ (ind_hip_height ind < hip_height_threshold cfg
                  /\ ind_torso_angle ind > fall_angle_threshold cfg))
    by (intros H; apply L in H; discriminate).
  destruct (is_falling ind) eqn:Ef.
  { destruct (proj1 F eq_refl) as (H1 & H2).
    eexists; split; [apply Falling; assumption | reflexivity]. }
  assert (NF : ~ (ind_vertical_velocity ind > velocity_threshold cfg
                  /\ ind_torso_angle ind > fall_angle_threshold cfg / 2))
    by (intros H; apply F in H; discriminate).
  destruct (is_near_fall ind) eqn:En.
  { destruct (proj1 N eq_refl) as (H1 & H2).
    eexists; split; [apply NearFall; assumption | reflexivity]. }
  exists None; split; [| reflexivity].
  apply Unclassified; try assumption.
  intros H; apply N in H; discriminate.
Qed.

Lemma poses_have_add n smp b :
  (n <= length (keypoints (sample_pose smp)))%nat ->
  poses_have n b -> poses_have n (TemporalBuffer.add smp b).
Proof.
  unfold poses_have, TemporalBuffer.add; simpl. intros Hs Hb.
  assert (H : Forall (fun x => (n <= length (keypoints (sample_pose x)))%nat)
                     (TemporalBuffer.buffer b ++ [smp]))
    by (apply Forall_app; split; [exact Hb | constructor; [exact Hs | constructor]]).
  destruct (TemporalBuffer.maxlen b <? _)%nat; [| exact H].
  destruct (TemporalBuffer.buffer b ++ [smp]); [exact H |].
  simpl. inversion H; assumption.
Qed.

Lemma vertical_velocity_measures w s :
  poses_have 25 (pose_buffer s) ->
  _compute_vertical_velocity w s = Ok (vertical_velocity_of (pose_buffer s)) w s.
Proof.
  intros Hwf. unfold _compute_vertical_velocity, vertical_velocity_of, bind, get.
  destruct (TemporalBuffer.len (pose_buffer s) <? 2)%nat; [reflexivity |].
  destruct (TemporalBuffer.get_oldest (pose_buffer s)) as [first |] eqn:Eo;
    [| reflexivity].
  destruct (TemporalBuffer.get_latest (pose_buffer s)) as [last |] eqn:El;
    [| reflexivity].
  assert (Hf : (25 <= length (keypoints (sample_pose first)))%nat).
  { unfold TemporalBuffer.get_oldest in Eo.
    destruct (0 <? TemporalBuffer.len (pose_buffer s))%nat; [| discriminate].
    apply nth_error_In in Eo.
    exact (proj1 (Forall_forall _ _) Hwf _ Eo). }
  assert (Hl : (25 <= length (keypoints (sample_pose last)))%nat).
  { unfold TemporalBuffer.get_latest in El.
    destruct (0 <? TemporalBuffer.len (pose_buffer s))%nat; [| discriminate].
    apply nth_error_In in El.
    exact (proj1 (Forall_forall _ _) Hwf _ El). }
  do 4 step_index Hf.
  unfold ret, hip_y_of, keypoint_of.
  repeat match goal with
         | E : nth_error ?l ?i = Some ?x |- _ =>
             rewrite (nth_error_nth l i (mkKeypoint 0 0 0 0 0) E); clear E
         end.
  match goal with |- context [if ?c then _ else _] => destruct c end; reflexivity.
Qed.

Lemma analyze_measures p h w s :
  (27 <= length (keypoints p))%nat ->
  h <> 0%Z ->
  poses_have 25 (pose_buffer s) ->
  exists ind, _analyze_fall_indicators env cfg p h w s = Ok ind w s
              /\ flags_of_measurements cfg ind
              /\ measured env p h (pose_buffer s) ind.
Proof.
  intros Hp Hh Hwf. unfold _analyze_fall_indicators, bind.
  do 7 step_index Hp.
  rewrite py_div_nonzero by (apply inject_Z_nonzero; exact Hh).
  rewrite (vertical_velocity_measures w s Hwf).
  eexists. split; [reflexivity |].
  split; [repeat split |].
  unfold measured, torso_angle_of, hip_height_of, hip_y_of, keypoint_of.
  repeat match goal with
         | E : nth_error ?l ?i = Some ?x |- _ =>
             rewrite (nth_error_nth l i (mkKeypoint 0 0 0 0 0) E); clear E
         end.
  repeat split.
Qed.


End Facts.

(** C4 fails on the code for an upright person: with the shoulders straight
    above the hips the torso angle of the specification, taken from the
    shoulder midpoint to the hip midpoint, is 0 degrees, but [detect]
    measures the vector from the hip midpoint to the shoulder midpoint and
    finds 180 degrees; with the hips in the lowest 30 percent of the frame,
    a full window and the cooldown elapsed it returns an event of type
    lying, of confidence 1, for a still, upright person. *)
Theorem upright_person_is_reported_lying :
  spec_torso_angle Examples.env0 Examples.pose_upright = 0
  /\ exists ev d w' s' h v,
      detect Examples.env0 default_config Examples.image
        (Examples.frame_meta Examples.pose_upright) world0 Examples.fall_upright
      = Ok (Some ev) w' s'
      /\ payload ev = PFall d
      /\ fall_type d = "lying"
      /\ torso_angle d = Some 180
      /\ hip_height d = Some h /\ h == 0.25
      /\ vertical_velocity d = Some v /\ v == 0
      /\ confidence ev == 1.
Proof.
  split; [vm_compute; reflexivity |].
  do 6 eexists.
  split; [vm_compute; reflexivity |].
  split; [reflexivity |].
  split; [reflexivity |].
  split; [reflexivity |].
  split; [reflexivity |].
  split; [reflexivity |].
  split; [reflexivity |].
  split; reflexivity.
Qed.

End FallFacts.

(** ** The seizure agent: limb trajectories *)

Module SeizureFacts.
Import Seizure.

Lemma positions_spec idxs pose xy :
  In xy (positions idxs pose)
  <-> exists idx kp, In idx idxs
                     /\ nth_error (keypoints pose) idx = Some kp
                     /\ visibility kp > 0.5
                     /\ xy = (kx kp, ky kp).
Proof.
  unfold positions. rewrite in_flat_map. split.
  - intros (idx & Hin & H). exists idx.
    destruct (nth_error (keypoints pose) idx) as [kp |]; [| contradiction].
    destruct (visibility kp >? 0.5) eqn:V; [| contradiction].
    destruct H as [H | []]. exists kp.
    repeat split; [exact Hin | apply Qltb_lt; exact V | symmetry; exact H].
  - intros (idx & kp & Hin & Hkp & V & ->). exists idx. split; [exact Hin |].
    rewrite Hkp. apply Qltb_lt in V. rewrite V. left; reflexivity.
Qed.

Lemma collect_some idxs frames trajectories :
  collect idxs frames = Some trajectories ->
  trajectories = map (fun smp => mean_position (positions idxs (ps_pose smp))) frames
  /\ Forall (fun smp => positions idxs (ps_pose smp) <> []) frames.
Proof.
  revert trajectories; induction frames as [| f rest IH]; intros t H; simpl in H.
  - injection H as <-. split; constructor.
  - destruct (positions idxs (ps_pose f)) as [| p ps] eqn:E; [discriminate |].
    destruct (collect idxs rest) as [t' |]; [| discriminate].
    injection H as <-. destruct (IH t' eq_refl) as (-> & HF).
    split; [simpl; rewrite E; reflexivity |].
    constructor; [rewrite E; discriminate | exact HF].
Qed.

Lemma collect_none idxs frames :
  collect idxs frames = None
  <-> exists smp, In smp frames /\ positions idxs (ps_pose smp) = [].
Proof.
  induction frames as [| f rest IH]; simpl.
  - split; [discriminate | intros (smp & [] & _)].
  - destruct (positions idxs (ps_pose f)) as [| p ps] eqn:E.
    + split; [| reflexivity]. intros _. exists f. split; [left; reflexivity | exact E].
    + destruct (collect idxs rest) as [t' |].
      * split; [discriminate |].
        intros (smp & [<- | Hin] & Hs); [rewrite E in Hs; discriminate |].
        assert (C : Some t' = None) by (apply (proj2 IH); exists smp; split; assumption).
        discriminate C.
      * split; [| reflexivity]. intros _.
        destruct (proj1 IH eq_refl) as (smp & Hin & Hs).
        exists smp. split; [right; exact Hin | exact Hs].
Qed.

Lemma length_collect idxs frames trajectories :
  collect idxs frames = Some trajectories -> length trajectories = length frames.
Proof.
  intros H. apply collect_some in H. destruct H as (-> & _). apply length_map.
Qed.

(** C3, as the code has it: the sample of a frame is the mean position of
    those keypoints of the limb whose visibility exceeds 0.5, the others
    being left out of the mean; the limb has no trajectory, and its
    iteration of the analysis loop changes nothing, exactly when some
    buffered frame has no such keypoint or the buffer holds fewer than
    [buffer_size] frames. *)
Theorem trajectory_averages_visible_keypoints (env : Env) (cfg : Config) (s : State)
  (name : string) (idxs : list nat) :
  let frames := TemporalBuffer.buffer (pose_buffer s) in
  (forall pose xy,
      In xy (positions idxs pose)
      <-> exists idx kp, In idx idxs
                         /\ nth_error (keypoints pose) idx = Some kp
                         /\ visibility kp > 0.5
                         /\ xy = (kx kp, ky kp))
  /\ (_extract_trajectories cfg idxs s = None
      <-> (length frames < buffer_size cfg)%nat
          \/ exists smp, In smp frames /\ positions idxs (ps_pose smp) = [])
  /\ (forall trajectories,
        _extract_trajectories cfg idxs s = Some trajectories ->
        trajectories
        = map (fun smp => mean_position (positions idxs (ps_pose smp))) frames)
  /\ (_extract_trajectories cfg idxs s = None ->
      forall acc, analyze_limb env cfg s acc (name, idxs) = acc).
Proof.
  intros frames. split; [intros pose xy; apply positions_spec |].
  unfold _extract_trajectories. fold frames.
  split; [| split].
  - destruct (collect idxs frames) as [t |] eqn:E.
    + rewrite (length_collect _ _ _ E).
      destruct (Nat.ltb_spec (length frames) (buffer_size cfg)) as [Hlt | Hge].
      * split; [intros _; left; exact Hlt | reflexivity].
      * split; [discriminate |]. intros [Hlt | Hex]; [lia |].
        apply collect_none in Hex. congruence.
    + split; [| reflexivity]. intros _. right. apply collect_none. exact E.
  - intros t H. destruct (collect idxs frames) as [t' |] eqn:E; [| discriminate].
    destruct (length t' <? buffer_size cfg)%nat; [discriminate |].
    injection H as <-. apply (collect_some _ _ _ E).
  - intros H acc. unfold analyze_limb, _extract_trajectories. fold frames.
    destruct acc as [[affected m] f]. simpl snd. rewrite H. reflexivity.
Qed.

(** A limb that has no trajectory is not among the affected limbs. *)
Lemma affected_limbs_are_analyzed (env : Env) (cfg : Config) (s : State) ls acc :
  (forall name, In name (fst (fst acc)) -> In name (analyzed_limbs cfg s)) ->
  (forall limb, In limb ls -> In limb limbs) ->
  forall name, In name (fst (fst (fold_left (analyze_limb env cfg s) ls acc))) ->
               In name (analyzed_limbs cfg s).
Proof.
  revert acc; induction ls as [| limb ls IH]; intros acc Hacc Hls; simpl; [exact Hacc |].
  apply IH; [| intros l Hl; apply Hls; right; exact Hl].
  intros name. destruct acc as [[affected m] f]. unfold analyze_limb.
  destruct (_extract_trajectories cfg (snd limb) s) as [t |] eqn:E; [| apply Hacc].
  destruct (is_seizure_pattern _); [| apply Hacc].
  simpl. rewrite in_app_iff. intros [H | [<- | []]]; [apply Hacc; exact H |].
  unfold analyzed_limbs. apply in_map. apply filter_In.
  split; [apply Hls; left; reflexivity | rewrite E; reflexivity].
Qed.

End SeizureFacts.

(** ** Runs *)

Section Runs.
Context {St In A : Type}.
Variable step : In -> M St A.

(** A recorded call splits the run into the run before it, the call itself
    and the run after it. *)
Lemma run_split before c after inputs w s w' s' :
  run step inputs w s = (before ++ c :: after, w', s') ->
  exists inputs1 inputs2 w1 s1,
    inputs = inputs1 ++ input c :: inputs2
    /\ run step inputs1 w s = (before, world_before c, state_before c)
    /\ step (input c) (world_before c) (state_before c) = Ok (returned c) w1 s1
    /\ run step inputs2 w1 s1 = (after, w', s').
Proof.
  revert inputs w s.
  induction before as [| b before IH]; intros inputs w s H;
    (destruct inputs as [| i rest]; simpl in H; [discriminate |]);
    destruct (step i w s) as [a w1 s1 | e w1 s1] eqn:Es; try discriminate;
    destruct (run step rest w1 s1) as [[calls w2] s2] eqn:Er;
    injection H as Hc Hl Hw Hs; subst.
  - exists [], rest, w1, s1. simpl. repeat split; assumption.
  - destruct (IH _ _ _ Er) as (i1 & i2 & w3 & s3 & -> & H1 & H2 & H3).
    exists (i :: i1), i2, w3, s3. simpl. rewrite Es, H1.
    repeat split; assumption.
Qed.

End Runs.

(** ** The seizure agent: episodes *)

Module SeizureEpisodes.
Import Seizure SeizureSpec.

Section Facts.
Variable env : Env.
Variable cfg : Config.

Local Abbreviation step := (SeizureSpec.step env cfg).
Local Abbreviation step_spec := (SeizureSpec.step_spec env cfg).

Lemma analyze_leaves_state w s :
  (exists ind, _analyze_limb_movements env cfg w s = Ok ind w s)
  \/ (exists e, _analyze_limb_movements env cfg w s = Raised e w s).
Proof.
  unfold _analyze_limb_movements, bind, get.
  destruct (fold_left (analyze_limb env cfg s) limbs ([], 0, 0)) as [[affected m] f].
  destruct (Qeq_bool (magnitude_threshold cfg) 0).
  - destruct affected; [right | left]; eexists; reflexivity.
  - left; eexists; reflexivity.
Qed.

Lemma detect_staged_meets_step_spec frame metadata w s :
  step_spec w s (detect_staged env cfg frame metadata w s).
Proof.
  unfold detect_staged, bind, get, modify, ret.
  destruct (enabled s); cbn [negb]; [| split; reflexivity].
  destruct (detections metadata) as [| detection rest]; [split; reflexivity |].
  destruct (pose detection) as [p |]; [| split; reflexivity].
  match goal with
  | |- context [set_pose_buffer ?b ?s0] => set (s1 := set_pose_buffer b s0)
  end.
  assert (Hstart : seizure_start_time s1 = seizure_start_time s) by reflexivity.
  clearbody s1.
  destruct (TemporalBuffer.len (pose_buffer s1) <? buffer_size cfg)%nat;
    [split; [reflexivity | exact Hstart] |].
  unfold time_time at 1. cbv beta.
  destruct (clock env (time_reads w) - last_event_time s1 <? event_cooldown cfg);
    [split; [reflexivity | exact Hstart] |].
  match goal with
  | |- context [_analyze_limb_movements env cfg ?w1 s1] =>
      destruct (analyze_leaves_state w1 s1) as [(ind & ->) | (e & ->)]
  end; [| exact Hstart].
  destruct (ind_seizure_detected ind); [| split; reflexivity].
  unfold time_time. cbn [time_reads].
  destruct (seizure_start_time s1) as [t |] eqn:Es1.
  - match goal with
    | |- context [if ?c then _ else _] => destruct c eqn:Ed
    end.
    + exists t. split; [exact Es1 |]. split; [left; congruence |].
      intros ev Hev. injection Hev as <-. do 2 eexists.
      split; [reflexivity |]. split; [reflexivity |].
      split; [| apply Qltb_lt; exact Ed]. lia.
    + exists t. split; [exact Es1 |]. split; [left; congruence |]. discriminate.
  - match goal with
    | |- context [if ?c then _ else _] => destruct c eqn:Ed
    end.
    + eexists. split; [reflexivity |]. split; [right; split; [congruence | reflexivity] |].
      intros ev Hev. injection Hev as <-. do 2 eexists.
      split; [reflexivity |]. split; [reflexivity |].
      split; [| apply Qltb_lt; exact Ed]. lia.
    + eexists. split; [reflexivity |]. split; [right; split; [congruence | reflexivity] |].
      discriminate.
Qed.

Local Abbreviation evaluates := (SeizureSpec.evaluates env cfg).
Local Abbreviation condition := (SeizureSpec.condition env cfg).
Local Abbreviation condition_at := (SeizureSpec.condition_at env cfg).
Local Abbreviation call := (SeizureSpec.call env cfg).

Lemma evaluates_functional w s metadata ind ind' :
  evaluates w s metadata ind -> evaluates w s metadata ind' -> ind' = ind.
Proof.
  intros (_ & d & r & p & Hd & Hp & _ & _ & Ha) (_ & d' & r' & p' & Hd' & Hp' & _ & _ & Ha').
  assert (d' = d) by congruence. subst d'.
  assert (p' = p) by congruence. subst p'. congruence.
Qed.

Lemma condition_functional w s metadata b b' :
  condition w s metadata b -> condition w s metadata b' -> b' = b.
Proof.
  intros (ind & He & Hb) (ind' & He' & Hb').
  rewrite (evaluates_functional _ _ _ _ _ He He') in Hb'. congruence.
Qed.

(** What the stage a call returned with says about the frame. *)
Lemma stage_meaning frame metadata w s :
  match detect_staged env cfg frame metadata w s with
  | Ok (Evaluated b, _) _ _ => condition w s metadata b
  | Ok (Skipped, _) _ _ => forall ind, ~ evaluates w s metadata ind
  | Raised _ _ _ => forall ind, ~ evaluates w s metadata ind
  end.
Proof.
  unfold detect_staged, bind, get, modify, ret.
  destruct (enabled s) eqn:Hen; cbn [negb];
    [| intros ind (H & _); congruence].
  destruct (detections metadata) as [| detection rest] eqn:Edet;
    [intros ind (_ & d & r & p & H & _); congruence |].
  destruct (pose detection) as [p |] eqn:Epose;
    [| intros ind (_ & d & r & p & H & Hp' & _); congruence].
  assert (Hsame : forall d r p',
             detections metadata = d :: r -> pose d = Some p' -> p' = p)
    by (intros d r p' H1 H2; congruence).
  match goal with
  | |- context [set_pose_buffer ?b ?s0] => set (s1 := set_pose_buffer b s0)
  end.
  assert (Hs1 : s1 = SeizureSpec.buffered metadata p s) by reflexivity.
  assert (Hlast : last_event_time s1 = last_event_time s) by reflexivity.
  clearbody s1.
  destruct (Nat.ltb_spec (TemporalBuffer.len (pose_buffer s1)) (buffer_size cfg))
    as [Hlen | Hlen].
  { intros ind (_ & d & r & p' & H1 & H2 & H3 & _).
    rewrite (Hsame d r p' H1 H2), <- Hs1 in H3. lia. }
  unfold time_time at 1. cbv beta.
  destruct (clock env (time_reads w) - last_event_time s1 <? event_cooldown cfg) eqn:Hcool.
  { apply Qltb_lt in Hcool. rewrite Hlast in Hcool.
    intros ind (_ & d & r & p' & _ & _ & _ & H4 & _). lra. }
  apply Qltb_ge in Hcool. rewrite Hlast in Hcool.
  match goal with
  | |- context [_analyze_limb_movements env cfg ?w1 s1] =>
      change w1 with (tick w);
      destruct (analyze_leaves_state (tick w) s1) as [(ind & Ha) | (e & Ha)]; rewrite Ha
  end.
  2:{ intros ind (_ & d & r & p' & H1 & H2 & _ & _ & H5).
      rewrite (Hsame d r p' H1 H2), <- Hs1 in H5. congruence. }
  assert (Hev : evaluates w s metadata ind).
  { split; [exact Hen |]. exists detection, rest, p.
    split; [exact Edet |]. split; [exact Epose |].
    rewrite <- Hs1. split; [exact Hlen |].
    split; [exact Hcool | exact Ha]. }
  destruct (ind_seizure_detected ind) eqn:Ed.
  - unfold time_time.
    destruct (seizure_start_time s1); cbv beta;
      match goal with
      | |- context [if ?c then _ else _] => destruct c
      end; exists ind; split; assumption.
  - exists ind. split; assumption.
Qed.

(** What a call of [detect] does to the episode, by the seizure condition
    of its frame. *)
Lemma episode_step frame metadata w s :
  match detect env cfg frame metadata w s with
  | Ok r w' s' =>
      (condition w s metadata true
       /\ exists t0,
            seizure_start_time s' = Some t0
            /\ (seizure_start_time s = Some t0
                \/ (seizure_start_time s = None /\ t0 = clock env (S (time_reads w))))
            /\ forall ev, r = Some ev ->
                 exists d k, payload ev = PSeizure d
                             /\ duration d = clock env k - t0
                             /\ (time_reads w < k)%nat
                             /\ duration d > duration_threshold cfg)
      \/ (condition w s metadata false /\ r = None /\ seizure_start_time s' = None)
      \/ ((forall ind, ~ evaluates w s metadata ind)
          /\ r = None /\ seizure_start_time s' = seizure_start_time s)
  | Raised _ _ s' =>
      (forall ind, ~ evaluates w s metadata ind)
      /\ seizure_start_time s' = seizure_start_time s
  end.
Proof.
  pose proof (stage_meaning frame metadata w s) as Hm.
  pose proof (detect_staged_meets_step_spec frame metadata w s) as Hs.
  unfold detect, bind.
  destruct (detect_staged env cfg frame metadata w s) as [[st r] w' s' | e w' s'];
    simpl in *; [| split; assumption].
  destruct st as [| []].
  - right. right. destruct Hs as (Hr & Hst). split; [exact Hm |]. split; assumption.
  - left. split; [exact Hm | exact Hs].
  - right. left. destruct Hs as (Hr & Hst). split; [exact Hm |]. split; assumption.
Qed.

(** While no evaluation comes out false, a run keeps the episode start
    time it had or the one it set at the first true evaluation. *)
Lemma run_keeps_episode inputs w s calls w' s' t0 :
  run call inputs w s = (calls, w', s') ->
  seizure_start_time s' = Some t0 ->
  (seizure_start_time s = Some t0 /\ Forall (fun c => ~ condition_at c false) calls)
  \/ (exists pre c mid,
        calls = pre ++ c :: mid
        /\ condition_at c true
        /\ seizure_start_time (state_before c) = None
        /\ t0 = clock env (S (time_reads (world_before c)))
        /\ Forall (fun c' => ~ condition_at c' false) mid).
Proof.
  revert w s calls; induction inputs as [| i rest IH]; intros w s calls H Ht; simpl in H.
  - injection H as <- <- <-. left. split; [exact Ht | constructor].
  - pose proof (episode_step (fst i) (snd i) w s) as Hspec. fold (call i) in Hspec.
    destruct (call i w s) as [r w1 s1 | e w1 s1].
    + destruct (run call rest w1 s1) as [[calls1 w2] s2] eqn:Er.
      injection H as <- <- <-.
      destruct (IH _ _ _ Er Ht) as [(Hs1 & Hnf) | (pre & c & mid & -> & Hc & Hb & Hc0 & Hnf)].
      * destruct Hspec as [(Hcond & t1 & Hs1' & Hor & _)
                          | [(Hcond & _ & Hnone) | (Hno & _ & Hsame)]].
        -- assert (t1 = t0) by congruence. subst t1.
           assert (Hnot : ~ condition_at (mkCall w s i r) false).
           { intros Hf. pose proof (condition_functional _ _ _ _ _ Hcond Hf). discriminate. }
           destruct Hor as [Hsome | (Hnone & Hclock)].
           ++ left. split; [exact Hsome | constructor; [exact Hnot | exact Hnf]].
           ++ right. exists [], (mkCall w s i r), calls1.
              split; [reflexivity |]. split; [exact Hcond |].
              split; [exact Hnone |]. split; [exact Hclock | exact Hnf].
        -- congruence.
        -- left. split; [congruence |].
           constructor; [| exact Hnf]. intros (ind & He & _). exact (Hno ind He).
      * right. exists (mkCall w s i r :: pre), c, mid.
        split; [reflexivity |]. split; [exact Hc |]. split; [exact Hb |].
        split; [exact Hc0 | exact Hnf].
    + injection H as <- <- <-. destruct Hspec as (_ & Hsame). left.
      split; [congruence | constructor].
Qed.


End Facts.
End SeizureEpisodes.

(** ** The vital signs agent *)

Module VitalFacts.
Import Vital VitalSpec.

Section Facts.
Variable env : Env.
Variable cfg : Config.

Local Abbreviation step := (VitalSpec.step env cfg).
Local Abbreviation in_range := (VitalSpec.in_range cfg).
Local Abbreviation due := (VitalSpec.due cfg).
Local Abbreviation staged_spec := (VitalSpec.staged_spec env cfg).
Local Abbreviation processes := (VitalSpec.processes cfg).
Local Abbreviation answer := (VitalSpec.answer env cfg).

Lemma valid_in_range v : valid cfg v = true <-> in_range v.
Proof.
  unfold valid, in_range. rewrite !andb_true_iff, !Qleb_le. tauto.
Qed.

Lemma len_add_ge {A} (x : A) (b : TemporalBuffer.t A) :
  (TemporalBuffer.len b <= TemporalBuffer.len (TemporalBuffer.add x b))%nat.
Proof.
  unfold TemporalBuffer.len, TemporalBuffer.add; simpl.
  assert (L : length (TemporalBuffer.buffer b ++ [x])
              = S (length (TemporalBuffer.buffer b)))
    by (rewrite length_app; simpl; lia).
  destruct (Nat.ltb_spec (TemporalBuffer.maxlen b)
                         (length (TemporalBuffer.buffer b ++ [x]))); [| lia].
  destruct (TemporalBuffer.buffer b ++ [x]); simpl in *; lia.
Qed.

Ltac easy_parts :=
  repeat match goal with
         | |- _ /\ _ => split
         | |- _ = _ => reflexivity
         | |- (_ <= _)%Z => simpl; lia
         | |- (_ <= _)%nat => simpl; solve [lia | apply len_add_ge]
         | |- _ -> _ => intro
         | H : _ \/ _ |- _ => destruct H
         | H : _ = _ |- _ => discriminate H
         end.

Lemma staged_detect_meets_spec frame metadata w s :
  staged_spec frame metadata w s (detect_staged env cfg frame metadata w s).
Proof.
  unfold detect_staged, bind, get, modify, ret.
  destruct (enabled s) eqn:Hen; cbn [negb];
    [| unfold staged_spec; easy_parts; congruence].
  destruct (detections metadata) as [| detection rest] eqn:Hd.
  { unfold staged_spec; easy_parts;
      intros (d & r & fb & Hdd & _); congruence. }
  destruct (face_bbox detection) as [fb |] eqn:Hf.
  2:{ unfold staged_spec; easy_parts;
        intros (d & r & fb & Hdd & Hff & _); congruence. }
  match goal with
  | |- context [if ?c then _ else _] => destruct c eqn:Hcrop
  end.
  { unfold staged_spec; easy_parts;
      intros (d & r & fb' & Hdd & Hff & Hx & Hy);
      assert (d = detection) by congruence; subst d;
      assert (fb' = fb) by congruence; subst fb';
      apply orb_true_iff in Hcrop; destruct Hcrop as [C | C];
      apply Z.leb_le in C; lia. }
  match goal with
  | |- context [set_face_roi_buffer ?b ?s0] => set (s1 := set_face_roi_buffer b s0)
  end.
  assert (H1 : enabled s1 = enabled s /\ frame_count s1 = (frame_count s + 1)%Z
               /\ last_update_frame s1 = last_update_frame s
               /\ (TemporalBuffer.len (face_roi_buffer s)
                   <= TemporalBuffer.len (face_roi_buffer s1))%nat)
    by (repeat split; apply len_add_ge).
  clearbody s1. destruct H1 as (He1 & Hc1 & Hu1 & Hb1).
  destruct (Z.ltb_spec (frame_count s1 - last_update_frame s1) (update_interval cfg)).
  { unfold staged_spec; easy_parts; try lia; try assumption. }
  destruct (Nat.ltb_spec (TemporalBuffer.len (face_roi_buffer s1)) (window_size cfg)).
  { unfold staged_spec; easy_parts; try lia; try assumption. }
  destruct (process env cfg (TemporalBuffer.buffer (face_roi_buffer s1))) as [v |] eqn:Hp.
  2:{ unfold staged_spec; easy_parts; try lia; try assumption.
      symmetry; exact Hp. }
  destruct (valid cfg v) eqn:Hv.
  - unfold staged_spec. cbn [face_roi_buffer set_last_update_frame frame_count
                              last_update_frame enabled].
    rewrite Hv. easy_parts; try lia; try assumption. symmetry; exact Hp.
  - unfold staged_spec. rewrite Hv.
    easy_parts; try lia; try assumption. symmetry; exact Hp.
Qed.

Lemma detect_is_staged frame metadata w s st r w' s' :
  detect_staged env cfg frame metadata w s = Ok (st, r) w' s' ->
  detect env cfg frame metadata w s = Ok r w' s'.
Proof. intros H. unfold detect, bind. rewrite H. reflexivity. Qed.

Lemma answer_spec metadata window ev :
  answer metadata window = Some ev
  <-> exists v, process env cfg (TemporalBuffer.buffer window) = Some v
                /\ in_range v /\ ev = event_of metadata v.
Proof.
  unfold VitalSpec.answer. split.
  - destruct (process env cfg (TemporalBuffer.buffer window)) as [v |]; [| discriminate].
    destruct (valid cfg v) eqn:Hv; [| discriminate].
    intros H. injection H as <-. exists v.
    split; [reflexivity |]. split; [apply valid_in_range; exact Hv | reflexivity].
  - intros (v & -> & Hin & ->). apply valid_in_range in Hin. rewrite Hin. reflexivity.
Qed.

(** What a call of [detect] does, by whether it reaches the processing. *)
(** Solves the conjuncts about the state a call leaves. *)
Ltac quiet_parts :=
  repeat match goal with |- _ /\ _ => split end;
  simpl;
  solve [ assumption | reflexivity | lia
        | unfold VitalSpec.window_with; apply len_add_ge ].

Lemma detect_by_cases frame metadata w s :
  (exists roi s',
      processes frame metadata s roi
      /\ detect env cfg frame metadata w s = Ok (answer metadata (window_with roi s)) w s'
      /\ enabled s' = true
      /\ frame_count s' = (frame_count s + 1)%Z
      /\ face_roi_buffer s' = window_with roi s
      /\ last_update_frame s'
         = match answer metadata (window_with roi s) with
           | Some _ => (frame_count s + 1)%Z
           | None => last_update_frame s
           end)
  \/ (exists s',
        (forall roi, ~ processes frame metadata s roi)
        /\ detect env cfg frame metadata w s = Ok None w s'
        /\ enabled s' = enabled s
        /\ (frame_count s <= frame_count s')%Z
        /\ last_update_frame s' = last_update_frame s
        /\ (TemporalBuffer.len (face_roi_buffer s)
            <= TemporalBuffer.len (face_roi_buffer s'))%nat).
Proof.
  unfold detect, detect_staged, bind, get, modify, ret, VitalSpec.processes,
    VitalSpec.face_crop.
  destruct (enabled s) eqn:Hen; cbn [negb].
  2:{ right. eexists. split; [intros roi (H & _); discriminate H |].
      split; [reflexivity |]. quiet_parts. }
  destruct (detections metadata) as [| detection rest] eqn:Hd.
  { right. eexists. split; [intros roi (_ & H & _); discriminate H |].
    split; [reflexivity |]. quiet_parts. }
  destruct (face_bbox detection) as [fb |] eqn:Hf.
  2:{ right. eexists. split; [intros roi (_ & H & _); discriminate H |].
      split; [reflexivity |]. quiet_parts. }
  cbv zeta.
  match goal with
  | |- context [if ?c then _ else _] => destruct c eqn:Hcrop
  end.
  { right. eexists. split; [intros roi (_ & H & _); discriminate H |].
    split; [reflexivity |]. quiet_parts. }
  match goal with
  | |- context [Some (crop ?f ?a ?b ?c ?d)] => set (roi0 := crop f a b c d)
  end.
  cbn [frame_count last_update_frame face_roi_buffer set_face_roi_buffer set_frame_count].
  fold (window_with roi0 s).
  destruct (Z.ltb_spec (frame_count s + 1 - last_update_frame s) (update_interval cfg))
    as [Hthr | Hthr].
  { right. eexists. split; [intros roi (_ & _ & H & _); lia |].
    split; [reflexivity |]. quiet_parts. }
  destruct (Nat.ltb_spec (TemporalBuffer.len (window_with roi0 s)) (window_size cfg))
    as [Hfill | Hfill].
  { right. eexists. split; [intros roi (_ & Hc & _ & H); injection Hc as <-; lia |].
    split; [reflexivity |]. quiet_parts. }
  left. exists roi0. unfold VitalSpec.answer.
  destruct (process env cfg (TemporalBuffer.buffer (window_with roi0 s))) as [v |].
  - destruct (valid cfg v); eexists;
      (split; [split; [reflexivity | split; [reflexivity | split; assumption]] |]);
      (split; [reflexivity |]); quiet_parts.
  - eexists. split; [split; [reflexivity | split; [reflexivity | split; assumption]] |].
    split; [reflexivity |]. quiet_parts.
Qed.

Lemma processes_functional frame metadata s roi roi' :
  processes frame metadata s roi -> processes frame metadata s roi' -> roi' = roi.
Proof. intros (_ & H & _) (_ & H' & _). congruence. Qed.

(** C7: a call of [detect] never raises, and it returns an event exactly
    when nothing kept it from processing the window of the frame (the agent
    is enabled, the frame has a face region, the update interval has
    elapsed, the window with that region is full) and the processing of
    that window yields a heart rate and a respiratory rate within their
    configured ranges and a signal quality at or above the threshold; the
    event then reports these readings.  In every other case the call
    returns no event. *)
Theorem event_iff_vitals_in_range frame metadata w s :
  exists r s',
    detect env cfg frame metadata w s = Ok r w s'
    /\ (forall ev,
          r = Some ev
          <-> exists roi v,
                processes frame metadata s roi
                /\ process env cfg (TemporalBuffer.buffer (window_with roi s)) = Some v
                /\ in_range v
                /\ ev = event_of metadata v).
Proof.
  destruct (detect_by_cases frame metadata w s)
    as [(roi & s' & Hp & Hd & _) | (s' & Hn & Hd & _)].
  - exists (answer metadata (window_with roi s)), s'. split; [exact Hd |].
    intros ev. rewrite answer_spec. split.
    + intros (v & Hv & Hin & Hev). exists roi, v.
      split; [exact Hp |]. split; [exact Hv |]. split; [exact Hin | exact Hev].
    + intros (roi' & v & Hp' & Hv & Hin & Hev).
      rewrite (processes_functional _ _ _ _ _ Hp Hp') in Hv.
      exists v. split; [exact Hv |]. split; [exact Hin | exact Hev].
  - exists None, s'. split; [exact Hd |]. intros ev. split; [discriminate |].
    intros (roi & v & Hp & _). exfalso. exact (Hn roi Hp).
Qed.

Lemma quiet_call_stays_due frame metadata w s w' s' :
  due s -> detect env cfg frame metadata w s = Ok None w' s' -> due s'.
Proof.
  intros (Hen & Hint & Hlen) H.
  destruct (detect_by_cases frame metadata w s)
    as [(roi & s1 & Hp & Hd & He & Hc & Hb & Hu) | (s1 & _ & Hd & He & Hc & Hu & Hb)];
    rewrite Hd in H.
  - injection H as Ha _ <-. rewrite Ha in Hu. unfold VitalSpec.due.
    rewrite He, Hc, Hu, Hb.
    split; [reflexivity |]. split; [lia |].
    unfold VitalSpec.window_with. pose proof (len_add_ge roi (face_roi_buffer s)). lia.
  - injection H as _ <-. unfold VitalSpec.due. rewrite He, Hu.
    split; [exact Hen |]. split; lia.
Qed.

Lemma quiet_run_stays_due inputs :
  forall w s calls w' s',
    run (VitalSpec.call env cfg) inputs w s = (calls, w', s') ->
    length calls = length inputs ->
    Forall (fun c => returned c = None) calls ->
    due s -> due s'.
Proof.
  induction inputs as [| i rest IH]; intros w s calls w' s' H Hlen Hq Hdue; simpl in H.
  - injection H as <- <- <-. exact Hdue.
  - destruct (VitalSpec.call env cfg i w s) as [r w1 s1 | e w1 s1] eqn:Es;
      [| injection H as <- <- <-; discriminate].
    destruct (run (VitalSpec.call env cfg) rest w1 s1) as [[calls1 w2] s2] eqn:Er.
    injection H as <- <- <-. simpl in Hlen.
    inversion Hq as [| c0 l Hr Hq']; subst. simpl in Hr. subst r.
    apply (IH _ _ _ _ _ Er); [lia | exact Hq' |].
    exact (quiet_call_stays_due _ _ _ _ _ _ Hdue Es).
Qed.

Lemma run_prefix_length {St In A} (step : In -> M St A) before c after inputs w s w' s' :
  run step inputs w s = (before ++ c :: after, w', s') ->
  exists inputs1 inputs2 w1 s1,
    length inputs1 = length before
    /\ run step inputs1 w s = (before, world_before c, state_before c)
    /\ step (input c) (world_before c) (state_before c) = Ok (returned c) w1 s1
    /\ run step inputs2 w1 s1 = (after, w', s').
Proof.
  revert inputs w s.
  induction before as [| b before IH]; intros inputs w s H;
    (destruct inputs as [| i rest]; simpl in H; [discriminate |]);
    destruct (step i w s) as [a w1 s1 | e w1 s1] eqn:Es; try discriminate;
    destruct (run step rest w1 s1) as [[calls w2] s2] eqn:Er;
    injection H as Hc Hl Hw Hs; subst.
  - exists [], rest, w1, s1. simpl. repeat split; assumption.
  - destruct (IH _ _ _ Er) as (i1 & i2 & w3 & s3 & Hn & H1 & H2 & H3).
    exists (i :: i1), i2, w3, s3. simpl. rewrite Es, H1, Hn.
    repeat split; assumption.
Qed.

(** C9: a call that returns no event leaves [last_update_frame] as it was,
    and a call that returns one sets it to the frame count; and after a call
    that processed its window and returned no event, every later call on a
    frame with a face region, up to and including the first call that
    returns an event, again has nothing that keeps it from processing: it
    returns what the processing of its own window, the buffered window with
    the region of its frame, answers. *)
Theorem discarded_window_is_reprocessed :
  (forall frame metadata w s r w' s',
      detect env cfg frame metadata w s = Ok r w' s' ->
      (r = None -> last_update_frame s' = last_update_frame s)
      /\ (r <> None -> last_update_frame s' = frame_count s'))
  /\ (forall i0 roi0 w0 s0 w1 s1 inputs before c after w' s' roi,
        processes (fst i0) (snd i0) s0 roi0 ->
        VitalSpec.call env cfg i0 w0 s0 = Ok None w1 s1 ->
        run (VitalSpec.call env cfg) inputs w1 s1 = (before ++ c :: after, w', s') ->
        Forall (fun b => returned b = None) before ->
        face_crop (fst (input c)) (snd (input c)) = Some roi ->
        processes (fst (input c)) (snd (input c)) (state_before c) roi
        /\ returned c = answer (snd (input c)) (window_with roi (state_before c))).
Proof.
  split.
  - intros frame metadata w s r w' s' H.
    destruct (detect_by_cases frame metadata w s)
      as [(roi & s1 & Hp & Hd & He & Hc & Hb & Hu) | (s1 & _ & Hd & He & Hc & Hu & Hb)];
      rewrite Hd in H.
    + injection H as <- _ <-.
      destruct (answer metadata (window_with roi s)); split; intros Hr;
        first [congruence | contradiction].
    + injection H as <- _ <-. split; [intros _; exact Hu | intros H; contradiction].
  - intros i0 roi0 w0 s0 w1 s1 inputs before c after w' s' roi Hp0 H0 Hrun Hquiet Hface.
    assert (Hdue : due s1).
    { unfold VitalSpec.call in H0.
      destruct (detect_by_cases (fst i0) (snd i0) w0 s0)
        as [(roi1 & s2 & Hp & Hd & He & Hc & Hb & Hu) | (s2 & Hn & _)];
        [| exfalso; exact (Hn roi0 Hp0)].
      rewrite Hd in H0. injection H0 as Ha _ <-. rewrite Ha in Hu.
      destruct Hp as (_ & _ & Hint & Hlen).
      unfold VitalSpec.due. rewrite He, Hc, Hu, Hb.
      split; [reflexivity |]. split; [lia | exact Hlen]. }
    destruct (run_prefix_length _ _ _ _ _ _ _ _ _ Hrun)
      as (i1 & i2 & w2 & s2 & Hlen & Hpre & Hstep & _).
    pose proof (quiet_run_stays_due _ _ _ _ _ _ Hpre (eq_sym Hlen) Hquiet Hdue)
      as (Hen & Hint & Hfull).
    assert (Hp : processes (fst (input c)) (snd (input c)) (state_before c) roi).
    { split; [exact Hen |]. split; [exact Hface |]. split; [exact Hint |].
      unfold VitalSpec.window_with.
      pose proof (len_add_ge roi (face_roi_buffer (state_before c))). lia. }
    split; [exact Hp |].
    unfold VitalSpec.call in Hstep.
    destruct (detect_by_cases (fst (input c)) (snd (input c)) (world_before c)
                (state_before c))
      as [(roi1 & s3 & Hp1 & Hd & _) | (s3 & Hn & _)]; [| exfalso; exact (Hn roi Hp)].
    rewrite (processes_functional _ _ _ _ _ Hp Hp1) in Hd.
    rewrite Hd in Hstep. injection Hstep as Hr _ _. symmetry. exact Hr.
Qed.

End Facts.
End VitalFacts.

(** ** The bed exit agent *)

Module BedExitFacts.
Import BedExit BedExitSpec.

Section Facts.
Variable env : Env.
Variable cfg : Config.

Local Abbreviation step := (BedExitSpec.step env cfg).
Local Abbreviation detect_spec := (BedExitSpec.detect_spec env cfg).

Lemma determine_state_leaves_state person_bbox p h w s :
  (exists st, _determine_state env cfg person_bbox p h w s = Ok st w s)
  \/ (exists e, _determine_state env cfg person_bbox p h w s = Raised e w s).
Proof.
  unfold _determine_state, bind, get, index, py_div, ret, raise.
  repeat match goal with
         | |- context [match nth_error ?l ?i with _ => _ end] =>
             destruct (nth_error l i); [| right; eexists; reflexivity]
         end.
  destruct (Qeq_bool (inject_Z h) 0); [right; eexists; reflexivity |].
  repeat match goal with
         | |- context [if ?c then _ else _] => destruct c
         end; left; eexists; reflexivity.
Qed.

Lemma in_states_In st l : in_states st l = true <-> In st l.
Proof.
  unfold in_states. rewrite existsb_exists. split.
  - intros (x & Hin & Heq). apply String.eqb_eq in Heq. subst. exact Hin.
  - intros Hin. exists st. split; [exact Hin | apply String.eqb_refl].
Qed.

Lemma calibrate_spec metadata w s :
  exists s', _calibrate_bed_region metadata w s = Ok None w s'
             /\ current_state s' = current_state s.
Proof.
  unfold _calibrate_bed_region, bind, get, modify, ret.
  destruct (detections metadata); [eexists; split; reflexivity |].
  match goal with
  | |- context [if ?c then _ else _] => destruct c
  end; eexists; split; reflexivity.
Qed.

Lemma detect_meets_spec frame metadata w s :
  detect_spec metadata w s (detect env cfg frame metadata w s).
Proof.
  unfold detect, bind, get, modify, ret.
  destruct (enabled s); cbn [negb]; [| exact I].
  change (set_frame_count (frame_count s + 1) s) with (counted s).
  destruct (bed_region s) as [region |] eqn:Hr.
  2:{ destruct (calibrate_spec metadata w (counted s)) as (s' & -> & _). exact I. }
  destruct (detections metadata) as [| detection rest] eqn:Hd; [exact I |].
  destruct (pose detection) as [p |] eqn:Hp; [| exact I].
  destruct (determine_state_leaves_state (bbox detection) p (height metadata) w (counted s))
    as [(new_state & Hs) | (e & Hs)]; rewrite Hs; [| reflexivity].
  destruct (String.eqb new_state (current_state s)) eqn:Heq; cbn [negb]; [exact I |].
  unfold time_time. cbv beta.
  destruct (in_states new_state (alert_on_states cfg)) eqn:Hin; [| exact I].
  exists region, detection, rest, p, new_state.
  repeat split; try reflexivity; try assumption.
  - apply String.eqb_neq. exact Heq.
  - apply in_states_In. exact Hin.
Qed.

(** A call that returns an event changes the stored state. *)
Lemma event_changes_state frame metadata w s ev w' s' :
  detect env cfg frame metadata w s = Ok (Some ev) w' s' ->
  String.eqb (current_state s) (current_state s') = false.
Proof.
  intros H. pose proof (detect_meets_spec frame metadata w s) as Hspec.
  rewrite H in Hspec. simpl in Hspec.
  destruct Hspec as (_ & _ & _ & _ & new_state & _ & _ & _ & _ & Hne & _ & Hs' & _).
  apply String.eqb_neq. congruence.
Qed.

Lemma states_start_with_current inputs w s calls w' s' :
  run step inputs w s = (calls, w', s') ->
  exists rest, map current_state (states_of calls s') = current_state s :: rest.
Proof.
  intros H. destruct inputs as [| i inputs]; simpl in H.
  - injection H as <- <- <-. eexists; reflexivity.
  - pose proof (detect_meets_spec (fst i) (snd i) w s) as Hspec. fold (step i) in Hspec.
    destruct (step i w s) as [r w1 s1 | e w1 s1].
    + destruct (run step inputs w1 s1) as [[calls1 w2] s2].
      injection H as <- <- <-. eexists; reflexivity.
    + injection H as <- <- <-. simpl in Hspec. rewrite <- Hspec.
      eexists; reflexivity.
Qed.

Lemma events_bounded_by_changes inputs w s calls w' s' :
  run step inputs w s = (calls, w', s') ->
  (length (emitted calls) <= count_changes (map current_state (states_of calls s')))%nat.
Proof.
  revert w s calls; induction inputs as [| i rest IH]; intros w s calls H; simpl in H.
  - injection H as <- <- <-. simpl. lia.
  - destruct (step i w s) as [r w1 s1 | e w1 s1] eqn:Es.
    + destruct (run step rest w1 s1) as [[calls1 w2] s2] eqn:Er.
      injection H as <- <- <-. specialize (IH _ _ _ Er).
      destruct (states_start_with_current _ _ _ _ _ _ Er) as (tl & Htl).
      unfold states_of in *. cbn [map app emitted flat_map returned state_before].
      fold (emitted calls1). rewrite Htl in *. cbn [count_changes].
      destruct r as [ev |].
      * rewrite (event_changes_state (fst i) (snd i) w s ev w1 s1 Es).
        rewrite length_app. simpl in IH |- *. lia.
      * simpl in IH |- *. lia.
    + injection H as <- <- <-. simpl. lia.
Qed.

(** C5: a call returns an event only when the state it classified differs
    from the stored state and is in the alert set; the event carries the
    stored state as its previous state, the transition flag and a duration
    of 0, and the classified state becomes the stored one; and along any
    run the events are at most as many as the changes of the stored
    state. *)
Theorem event_only_on_alerting_transition :
  (forall frame metadata w s ev w' s',
      detect env cfg frame metadata w s = Ok (Some ev) w' s' ->
      exists region detection rest p new_state d,
        bed_region s = Some region
        /\ detections metadata = detection :: rest
        /\ pose detection = Some p
        /\ _determine_state env cfg (bbox detection) p (height metadata) w (counted s)
           = Ok new_state w (counted s)
        /\ new_state <> current_state s
        /\ In new_state (alert_on_states cfg)
        /\ current_state s' = new_state
        /\ payload ev = PBedExit d
        /\ state d = new_state
        /\ previous_state d = Some (current_state s)
        /\ transition d = true
        /\ duration_in_state d = 0)
  /\ (forall inputs w s calls w' s',
        run step inputs w s = (calls, w', s') ->
        (length (emitted calls)
         <= count_changes (map current_state (states_of calls s')))%nat).
Proof.
  split; [| exact events_bounded_by_changes].
  intros frame metadata w s ev w' s' H.
  pose proof (detect_meets_spec frame metadata w s) as Hspec.
  rewrite H in Hspec. simpl in Hspec.
  destruct Hspec as (region & detection & rest & p & new_state
                     & Hr & Hd & Hp & Hc & Hne & Hin & Hs' & ->).
  exists region, detection, rest, p, new_state. eexists.
  repeat split; try eassumption; reflexivity.
Qed.

End Facts.
End BedExitFacts.

(** ** Loops *)

Lemma foldM_invariant {St A B} (f : B -> A -> M St B)
  (P : list A -> B -> World -> St -> Prop) (xs : list A) :
  (forall done x acc w s acc' w' s',
      P done acc w s -> In x xs -> f acc x w s = Ok acc' w' s' ->
      P (done ++ [x]) acc' w' s') ->
  forall acc w s acc' w' s',
    P [] acc w s -> foldM f xs acc w s = Ok acc' w' s' -> P xs acc' w' s'.
Proof.
  intros Hstep.
  assert (G : forall rest done acc w s acc' w' s',
             (forall x, In x rest -> In x xs) ->
             P done acc w s -> foldM f rest acc w s = Ok acc' w' s' ->
             P (done ++ rest) acc' w' s').
  { induction rest as [| x rest IH]; intros done acc w s acc' w' s' Hsub HP H; simpl in H.
    - injection H as <- <- <-. rewrite app_nil_r. exact HP.
    - unfold bind in H. destruct (f acc x w s) as [acc1 w1 s1 | e w1 s1] eqn:E;
        [| discriminate].
      replace (done ++ x :: rest) with ((done ++ [x]) ++ rest)
        by (rewrite <- app_assoc; reflexivity).
      apply (IH (done ++ [x]) acc1 w1 s1); [intros y Hy; apply Hsub; right; exact Hy | | exact H].
      apply (Hstep done x acc w s); [exact HP | apply Hsub; left; reflexivity | exact E]. }
  intros acc w s acc' w' s' HP H. apply (G xs [] acc w s); [auto | exact HP | exact H].
Qed.

(** ** The orchestrator *)

Module OrchestratorFacts.
Import Orchestrator OrchestratorSpec.

Section Facts.
Variable env : Env.
Variable cfg : Config.

Local Abbreviation from_rule := (OrchestratorSpec.from_rule cfg).
Local Abbreviation wraps := (OrchestratorSpec.wraps env).
Local Abbreviation from_event := (OrchestratorSpec.from_event env).
Local Abbreviation fresh_at := (OrchestratorSpec.fresh_at env cfg).
Local Abbreviation duplicate_between := (OrchestratorSpec.duplicate_between env cfg).

Lemma covered_false e : _is_covered_by_rules e = false <-> uncovered e.
Proof.
  unfold _is_covered_by_rules, uncovered.
  rewrite negb_false_iff, orb_true_iff, !String.eqb_eq. reflexivity.
Qed.

Lemma uncovered_level e : uncovered e -> individual_level e = "INFO".
Proof. unfold individual_level. intros [-> | ->]; reflexivity. Qed.

Lemma duplicate_at_true t recent alert :
  duplicate_at cfg t recent alert = true
  <-> exists r, In r recent
                /\ t - alert_timestamp r < deduplication_window cfg
                /\ message r = message alert.
Proof.
  unfold duplicate_at. rewrite existsb_exists.
  split; intros (r & Hin & H); exists r; (split; [exact Hin |]).
  - apply andb_true_iff in H. destruct H as (H1 & H2).
    split; [apply Qltb_lt; exact H1 | apply String.eqb_eq; exact H2].
  - destruct H as (H1 & H2). apply andb_true_iff.
    split; [apply Qltb_lt; exact H1 | apply String.eqb_eq; exact H2].
Qed.

Lemma duplicate_at_false t recent alert :
  duplicate_at cfg t recent alert = false ->
  forall r, In r recent -> message r = message alert ->
            deduplication_window cfg <= t - alert_timestamp r.
Proof.
  intros H r Hin Hm.
  destruct (Qlt_le_dec (t - alert_timestamp r) (deduplication_window cfg)) as [Hlt | Hle];
    [| exact Hle].
  assert (C : duplicate_at cfg t recent alert = true)
    by (apply duplicate_at_true; exists r; repeat split; assumption).
  congruence.
Qed.

Lemma offer_eq out alert w s :
  offer env cfg out alert w s
  = if duplicate_at cfg (clock env (time_reads w)) (recent_alerts s) alert
    then Ok out (tick w) s
    else Ok (out ++ [alert]) (tick w)
            (mkState (recent_alerts s ++ [alert]) (event_buffer s)).
Proof.
  unfold offer, _is_duplicate, _add_to_recent, bind, time_time, get, modify, ret.
  fold (tick w).
  destruct (duplicate_at cfg (clock env (time_reads w)) (recent_alerts s) alert);
    reflexivity.
Qed.

Lemma first_low_heart_rate_spec vital_events w s r w' s' :
  first_low_heart_rate vital_events w s = Ok r w' s' ->
  w' = w /\ s' = s /\ forall ve, r = Some ve -> In ve vital_events.
Proof.
  induction vital_events as [| ve rest IH]; simpl; intros H.
  - injection H as <- <- <-. repeat split; discriminate.
  - destruct (payload ve); try discriminate.
    destruct (heart_rate d) as [hr |].
    + destruct (negb (Qeq_bool hr 0) && (hr <? 50)).
      * injection H as <- <- <-. repeat split.
        intros ve' Hv. injection Hv as <-. left; reflexivity.
      * destruct (IH H) as (-> & -> & Hin). repeat split. intros ve' Hv.
        right. apply Hin. exact Hv.
    + destruct (IH H) as (-> & -> & Hin). repeat split. intros ve' Hv.
      right. apply Hin. exact Hv.
Qed.

#[local] Arguments first_low_heart_rate : simpl never.

Lemma of_type_incl ty evs : incl (of_type ty evs) evs.
Proof. intros e H. apply filter_In in H. apply H. Qed.

Lemma match_conditions_spec conds evs :
  forall matched w s r w' s',
    match_conditions env conds evs matched w s = Ok r w' s' ->
    s' = s /\ time_reads w' = time_reads w
    /\ forall m, r = Some m -> forall e, In e m -> In e matched \/ In e evs.
Proof.
  induction conds as [| condition rest IH]; intros matched w s r w' s' H.
  - simpl in H. injection H as <- <- <-. repeat split.
    intros m Hm e He. injection Hm as <-. left; exact He.
  - assert (Hreq : forall ty,
               match of_type ty evs with
               | [] => ret None
               | x :: l => match_conditions env rest evs (matched ++ x :: l)
               end w s = Ok r w' s' ->
               s' = s /\ time_reads w' = time_reads w
               /\ forall m, r = Some m -> forall e, In e m -> In e matched \/ In e evs).
    { intros ty Hty. destruct (of_type ty evs) as [| x l] eqn:E.
      - injection Hty as <- <- <-. repeat split. discriminate.
      - destruct (IH _ _ _ _ _ _ Hty) as (-> & -> & Hm). repeat split.
        intros m Hr e He. destruct (Hm m Hr e He) as [Hin | Hin]; [| right; exact Hin].
        apply in_app_or in Hin. destruct Hin as [Hin | Hin]; [left; exact Hin |].
        right. apply (of_type_incl ty). rewrite E. exact Hin. }
    simpl in H.
    destruct (String.eqb condition "fall_detected"); [exact (Hreq _ H) |].
    destruct (String.eqb condition "low_heart_rate").
    { destruct (of_type "vital_signs" evs) as [| x l] eqn:E.
      - injection H as <- <- <-. repeat split. discriminate.
      - unfold bind in H.
        destruct (first_low_heart_rate (x :: l) w s) as [fr w1 s1 | e1 w1 s1] eqn:Ef;
          [| discriminate].
        destruct (first_low_heart_rate_spec _ _ _ _ _ _ Ef) as (-> & -> & Hve).
        destruct fr as [ve |].
        + destruct (IH _ _ _ _ _ _ H) as (-> & -> & Hm). repeat split.
          intros m Hr e He. destruct (Hm m Hr e He) as [Hin | Hin]; [| right; exact Hin].
          apply in_app_or in Hin. destruct Hin as [Hin | [<- | []]]; [left; exact Hin |].
          right. apply (of_type_incl "vital_signs"). rewrite E. apply Hve. reflexivity.
        + injection H as <- <- <-. repeat split. discriminate. }
    destruct (String.eqb condition "bed_exit"); [exact (Hreq _ H) |].
    destruct (String.eqb condition "nighttime").
    { unfold is_nighttime, now_hour, ret in H. unfold bind in H. cbv beta in H.
      match type of H with
      | context [if ?c then _ else _] => destruct c
      end.
      - destruct (IH _ _ _ _ _ _ H) as (-> & Ht & Hm). repeat split; assumption.
      - injection H as <- <- <-. repeat split. discriminate. }
    destruct (String.eqb condition "immobility_alert"); [exact (Hreq _ H) |].
    destruct (String.eqb condition "seizure"); [exact (Hreq _ H) |].
    exact (IH _ _ _ _ _ _ H).
Qed.

Lemma apply_rule_spec name rule evs w s ra w' s' :
  _apply_rule env name rule evs w s = Ok ra w' s' ->
  s' = s /\ (time_reads w <= time_reads w')%nat
  /\ forall a, ra = Some a ->
       metadata a = [("rule", name)]
       /\ level a = rule_level rule
       /\ message a = rule_message rule
       /\ events a <> []
       /\ incl (events a) evs.
Proof.
  unfold _apply_rule, bind. intros H.
  destruct (match_conditions env (conditions rule) evs [] w s) as [r w1 s1 | e w1 s1] eqn:E;
    [| discriminate].
  destruct (match_conditions_spec _ _ _ _ _ _ _ _ E) as (-> & Ht & Hm).
  destruct r as [[| e es] |]; unfold ret, new_uuid, time_time in H; cbv beta in H;
    injection H as <- <- <-.
  - split; [reflexivity | split; [lia | discriminate]].
  - split; [reflexivity | split; [simpl; lia |]].
    intros a Ha. injection Ha as <-. simpl.
    repeat split; [discriminate |].
    intros x Hx. destruct (Hm _ eq_refl x Hx) as [[] | Hin]. exact Hin.
  - split; [reflexivity | split; [lia | discriminate]].
Qed.

Lemma snoc_split {A} (out : list A) (a : A) o1 b o2 :
  out ++ [a] = o1 ++ b :: o2 ->
  (exists o2', o2 = o2' ++ [a] /\ out = o1 ++ b :: o2')
  \/ (o1 = out /\ b = a /\ o2 = []).
Proof.
  intros H. induction o2 as [| x o2' _] using rev_ind.
  - right. apply app_inj_tail in H. destruct H as (-> & ->). repeat split.
  - left. exists o2'.
    replace (o1 ++ b :: o2' ++ [x]) with ((o1 ++ b :: o2') ++ [x]) in H
      by (rewrite <- app_assoc; reflexivity).
    apply app_inj_tail in H. destruct H as (-> & ->). split; reflexivity.
Qed.

Section Call.
(** One call of [process_events] on the batch [evs], entered with the
    recorded alerts [R0] in the world [w0]. *)
Variable evs : list Event.
Variable R0 : list ConsolidatedAlert.
Variable w0 : World.

Local Abbreviation Inv := (OrchestratorSpec.Inv env cfg evs R0 w0).
Local Abbreviation settled := (OrchestratorSpec.settled env cfg R0 w0).

Lemma offer_inv out a w s wa out' w' s' :
  Inv out w s ->
  (time_reads w <= time_reads wa)%nat ->
  from_rule evs a \/ from_event evs a ->
  offer env cfg out a wa s = Ok out' w' s' ->
  Inv out' w' s'
  /\ time_reads w' = S (time_reads wa)
  /\ event_buffer s' = event_buffer s
  /\ (out' = out ++ [a]
      \/ (out' = out
          /\ exists r, In r (R0 ++ out)
                       /\ message r = message a
                       /\ clock env (time_reads wa) - alert_timestamp r
                          < deduplication_window cfg)).
Proof.
  intros (Hrec & Hle & Hpass & Horig) Hwa Ha H. rewrite offer_eq in H.
  destruct (duplicate_at cfg (clock env (time_reads wa)) (recent_alerts s) a) eqn:Ed;
    injection H as <- <- <-.
  - split; [| split; [reflexivity | split; [reflexivity |]]].
    + split; [exact Hrec | split; [simpl; lia | split; [| exact Horig]]].
      intros o1 b o2 Ho. destruct (Hpass o1 b o2 Ho) as (k & Hk & Hf).
      exists k. split; [simpl; lia | exact Hf].
    + right. split; [reflexivity |].
      apply duplicate_at_true in Ed. destruct Ed as (r & Hin & Hlt & Hm).
      exists r. rewrite <- Hrec. repeat split; assumption.
  - split; [| split; [reflexivity | split; [reflexivity | left; reflexivity]]].
    split; [simpl; rewrite Hrec, app_assoc; reflexivity |].
    split; [simpl; lia |]. split.
    + intros o1 b o2 Ho. destruct (snoc_split _ _ _ _ _ Ho)
        as [(o2' & -> & Hout) | (-> & -> & ->)].
      * destruct (Hpass o1 b o2' Hout) as (k & Hk & Hf).
        exists k. split; [simpl; lia | exact Hf].
      * exists (time_reads wa). split; [simpl; lia |].
        intros r Hin Hm. rewrite <- Hrec in Hin.
        apply (duplicate_at_false _ _ _ Ed r Hin Hm).
    + apply Forall_app. split; [exact Horig | constructor; [exact Ha | constructor]].
Qed.

Lemma rule_step_inv out rule w s out' w' s' :
  Inv out w s ->
  In rule (rules cfg) ->
  rule_step env cfg evs out rule w s = Ok out' w' s' ->
  Inv out' w' s' /\ event_buffer s' = event_buffer s.
Proof.
  intros HI Hin H. unfold rule_step, bind in H.
  destruct (_apply_rule env (fst rule) (snd rule) evs w s) as [ra w1 s1 | e w1 s1] eqn:E;
    [| discriminate].
  destruct (apply_rule_spec _ _ _ _ _ _ _ _ E) as (-> & Ht & Ha).
  destruct ra as [a |].
  - assert (Hfrom : from_rule evs a \/ from_event evs a).
    { left. destruct (Ha a eq_refl) as (H1 & H2 & H3 & H4 & H5).
      exists (fst rule), (snd rule). rewrite <- surjective_pairing.
      repeat split; assumption. }
    destruct (offer_inv _ _ _ _ _ _ _ _ HI Ht Hfrom H) as (HI' & _ & Hb & _).
    split; assumption.
  - injection H as <- <- <-. split; [| reflexivity].
    destruct HI as (H1 & H2 & H3 & H4). split; [exact H1 | split; [lia | split; [| exact H4]]].
    intros o1 b o2 Ho. destruct (H3 o1 b o2 Ho) as (k & Hk & Hf).
    exists k. split; [lia | exact Hf].
Qed.

Lemma settled_mono done out w out' w' :
  settled done out w ->
  (out' = out \/ exists a, out' = out ++ [a]) ->
  (time_reads w <= time_reads w')%nat ->
  settled done out' w'.
Proof.
  intros Hs Hout Hw e He Hu.
  assert (Hincl : forall x, In x out -> In x out').
  { destruct Hout as [-> | (a & ->)]; intros x Hx; [exact Hx |].
    apply in_or_app. left; exact Hx. }
  destruct (Hs e He Hu) as [(a & Hin & Hwr) | (r & k & Hin & Hm & Hk & Hlt)].
  - left. exists a. split; [apply Hincl; exact Hin | exact Hwr].
  - right. exists r, k. repeat split; try assumption; try lia.
    apply in_app_or in Hin. apply in_or_app.
    destruct Hin as [Hin | Hin]; [left; exact Hin | right; apply Hincl; exact Hin].
Qed.

Lemma individual_step_inv done out e w s out' w' s' :
  Inv out w s -> settled done out w ->
  In e evs ->
  individual_step env cfg out e w s = Ok out' w' s' ->
  Inv out' w' s' /\ settled (done ++ [e]) out' w' /\ event_buffer s' = event_buffer s.
Proof.
  intros HI Hs Hin H. unfold individual_step in H.
  destruct (_is_covered_by_rules e) eqn:Hc; cbn [negb] in H.
  - injection H as <- <- <-. split; [exact HI | split; [| reflexivity]].
    intros x Hx Hu. apply in_app_or in Hx. destruct Hx as [Hx | [<- | []]].
    + apply Hs; assumption.
    + apply covered_false in Hu. congruence.
  - apply covered_false in Hc.
    unfold _create_individual_alert, new_uuid, ret in H. unfold bind in H.
    cbv beta match in H.
    match type of H with
    | offer _ _ _ ?a ?wa _ = _ =>
        set (alert := a) in H; set (w1 := wa) in H;
        assert (Hwr : wraps alert e) by (repeat split);
        assert (Hw1 : (time_reads w <= time_reads w1)%nat) by (simpl; lia)
    end.
    assert (Hfrom : from_rule evs alert \/ from_event evs alert)
      by (right; exists e; repeat split; assumption).
    destruct (offer_inv _ _ _ _ _ _ _ _ HI Hw1 Hfrom H) as (HI' & Hw' & Hb & Hout).
    split; [exact HI' | split; [| exact Hb]].
    assert (Hmono : settled done out' w').
    { apply (settled_mono done out w); [exact Hs | | simpl in Hw'; lia].
      destruct Hout as [-> | (-> & _)]; [right; eexists; reflexivity | left; reflexivity]. }
    intros x Hx Hu. apply in_app_or in Hx. destruct Hx as [Hx | [<- | []]].
    + apply Hmono; assumption.
    + destruct Hout as [-> | (-> & r & Hr & Hm & Hlt)].
      * left. exists alert. split; [apply in_or_app; right; left; reflexivity | exact Hwr].
      * right. exists r, (time_reads w1). destruct HI as (_ & Hle & _).
        repeat split; try assumption; simpl in *; lia.
Qed.

End Call.

(** The two loops of a call on a non-empty batch, and its compaction. *)
Lemma process_events_spec evs w s out w' s' :
  evs <> [] ->
  process_events env cfg evs w s = Ok out w' s' ->
  exists w2 s2,
    OrchestratorSpec.Inv env cfg evs (recent_alerts s) w out w2 s2
    /\ OrchestratorSpec.settled env cfg (recent_alerts s) w evs out w2
    /\ w' = tick w2
    /\ recent_alerts s'
       = filter (fun alert => clock env (time_reads w2) - alert_timestamp alert
                                <? deduplication_window cfg * 2)
                (recent_alerts s2).
Proof.
  intros Hne H. destruct evs as [| e0 evs0]; [contradiction |].
  unfold process_events, bind, modify in H. cbv beta match in H.
  remember (e0 :: evs0) as evs eqn:Hevs. clear Hevs Hne.
  set (s0 := mkState (recent_alerts s) (event_buffer s ++ evs)) in H.
  destruct (foldM (rule_step env cfg evs) (rules cfg) [] w s0)
    as [out1 w1 s1 | e1 w1 s1] eqn:E1; [| discriminate].
  destruct (foldM (individual_step env cfg) evs out1 w1 s1)
    as [out2 w2 s2 | e2 w2 s2] eqn:E2; [| discriminate].
  unfold _cleanup_recent_alerts, bind, time_time, modify, ret in H. cbv beta match in H.
  injection H as <- <- <-.
  assert (H1 : OrchestratorSpec.Inv env cfg evs (recent_alerts s) w out1 w1 s1).
  { apply (foldM_invariant (rule_step env cfg evs)
             (fun _ out w' s' => OrchestratorSpec.Inv env cfg evs (recent_alerts s) w out w' s')
             (rules cfg)) with (acc := []) (w := w) (s := s0); [| | exact E1].
    - intros done x acc wa sa acc' wb sb HI Hin Hstep.
      apply (rule_step_inv evs (recent_alerts s) w acc x wa sa acc' wb sb HI Hin Hstep).
    - split; [simpl; rewrite app_nil_r; reflexivity |].
      split; [lia |]. split; [| constructor].
      intros o1 a o2 Ho. destruct o1; discriminate Ho. }
  assert (H2 : OrchestratorSpec.Inv env cfg evs (recent_alerts s) w out2 w2 s2
               /\ OrchestratorSpec.settled env cfg (recent_alerts s) w evs out2 w2).
  { apply (foldM_invariant (individual_step env cfg)
             (fun done out w' s' => OrchestratorSpec.Inv env cfg evs (recent_alerts s) w out w' s'
                                    /\ OrchestratorSpec.settled env cfg (recent_alerts s) w done out w')
             evs) with (acc := out1) (w := w1) (s := s1); [| | exact E2].
    - intros done x acc wa sa acc' wb sb (HI & Hs) Hin Hstep.
      destruct (individual_step_inv evs (recent_alerts s) w done acc x wa sa acc' wb sb
                  HI Hs Hin Hstep) as (HI' & Hs' & _).
      split; assumption.
    - split; [exact H1 |]. intros e [] . }
  destruct H2 as (HI & Hs). exists w2, s2. repeat split; try assumption; apply HI.
Qed.

(** C2, as the code has it: an alert offered while a recorded alert of the
    same message is within the deduplication window of the clock read of
    its check is neither returned nor recorded; and a call on a non-empty
    batch records exactly the alerts it returns, each of which passed its
    check against everything recorded before it, and then keeps of the
    history only the alerts younger than twice the window at the clock read
    of the compaction, the last of the call. *)
Theorem duplicates_discarded_and_history_compacted :
  (forall out alert w s r,
      In r (recent_alerts s) ->
      message r = message alert ->
      clock env (time_reads w) - alert_timestamp r < deduplication_window cfg ->
      offer env cfg out alert w s = Ok out (tick w) s)
  /\ (forall evs w s out w' s',
        evs <> [] ->
        process_events env cfg evs w s = Ok out w' s' ->
        let t_end := clock env (pred (time_reads w')) in
        recent_alerts s'
        = filter (fun a => t_end - alert_timestamp a <? deduplication_window cfg * 2)
                 (recent_alerts s ++ out)
        /\ (forall o1 a o2,
              out = o1 ++ a :: o2 ->
              exists k, (time_reads w <= k < time_reads w')%nat
                        /\ fresh_at k (recent_alerts s ++ o1) a)
        /\ (forall r, In r (recent_alerts s') ->
                      t_end - alert_timestamp r < deduplication_window cfg * 2)).
Proof.
  split.
  - intros out alert w s r Hin Hm Hlt. rewrite offer_eq.
    assert (Hd : duplicate_at cfg (clock env (time_reads w)) (recent_alerts s) alert = true)
      by (apply duplicate_at_true; exists r; repeat split; assumption).
    rewrite Hd. reflexivity.
  - intros evs w s out w' s' Hne H t_end.
    destruct (process_events_spec evs w s out w' s' Hne H)
      as (w2 & s2 & (Hrec & Hle & Hpass & _) & _ & -> & Hfilter).
    subst t_end. cbn [tick time_reads pred]. rewrite Hfilter, Hrec.
    split; [reflexivity |]. split.
    + intros o1 a o2 Ho. destruct (Hpass o1 a o2 Ho) as (k & Hk & Hf).
      exists k. split; [lia | exact Hf].
    + intros r Hr. apply filter_In in Hr. destruct Hr as (_ & Hr).
      apply Qltb_lt in Hr. exact Hr.
Qed.

(** C1, as the code has it: of a batch, every event of type
    [emotion_detection] or [vital_signs] is wrapped into a single-event
    alert of level INFO with the message of its type, which is returned
    unless it was discarded as a duplicate; and every returned alert is
    either the alert of a rule of the configuration or such a wrapping, so
    that an event of any other type reaches the output only through a
    rule. *)
Theorem uncovered_events_are_wrapped evs w s out w' s' :
  process_events env cfg evs w s = Ok out w' s' ->
  (forall e, In e evs -> uncovered e ->
        (exists a, In a out /\ wraps a e /\ level a = "INFO")
        \/ duplicate_between (time_reads w) (time_reads w') (recent_alerts s ++ out) e)
  /\ (forall a, In a out -> from_rule evs a \/ from_event evs a).
Proof.
  intros H. destruct evs as [| e0 evs0].
  - simpl in H. injection H as <- <- <-. split; intros x [].
  - destruct (process_events_spec (e0 :: evs0) w s out w' s' ltac:(discriminate) H)
      as (w2 & s2 & (_ & _ & _ & Horig) & Hs & -> & _).
    split.
    + intros e He Hu. destruct (Hs e He Hu) as [(a & Hin & Hwr) | (r & k & Hr & Hm & Hk & Hlt)].
      * left. exists a. split; [exact Hin | split; [exact Hwr |]].
        destruct Hwr as (_ & -> & _). apply uncovered_level. exact Hu.
      * right. exists r, k. repeat split; try assumption; simpl; lia.
    + intros a Ha. exact (proj1 (Forall_forall _ _) Horig a Ha).
Qed.

End Facts.
End OrchestratorFacts.

(** * The properties on the scenarios *)

Module Scenarios.
Import Examples.

Ltac by_computation := vm_compute; first [reflexivity | discriminate | intro; discriminate].

(** Witness of C10: the disabled fall agent ignores the frame of a lying
    person. *)
Lemma disabled_fall_agent_is_inert :
  agent_detect env0 FallAgent Fall.default_config image (frame_meta pose_lying)
               world0 fall_disabled
  = Ok None world0 fall_disabled.
Proof.
  apply (disabled_agent_is_inert env0 FallAgent Fall.default_config image
           (frame_meta pose_lying) world0 fall_disabled).
  reflexivity.
Defined.


(** Counterexample to C1: a batch of one fall event fires no rule of the
    default configuration and is not wrapped either; no alert is
    returned. *)
Lemma lone_fall_event_yields_no_alert :
  Orchestrator.process_events env0 Orchestrator.default_config [fall_event]
    world0 Orchestrator.init
  = Ok [] (tick world0) (Orchestrator.mkState [] [fall_event]).
Proof. vm_compute. reflexivity. Qed.

(** Witness of C1: a batch of a fall event and a vital signs event. *)
Lemma vital_signs_event_is_wrapped :
  exists out w' s',
    Orchestrator.process_events env0 Orchestrator.default_config
      [fall_event; vital_event] world0 Orchestrator.init
    = Ok out w' s'
    /\ ((exists a, In a out /\ OrchestratorSpec.wraps env0 a vital_event /\ level a = "INFO")
        \/ OrchestratorSpec.duplicate_between env0 Orchestrator.default_config
             (time_reads world0) (time_reads w')
             (Orchestrator.recent_alerts Orchestrator.init ++ out) vital_event).
Proof.
  pose (res := Orchestrator.process_events env0 Orchestrator.default_config
                 [fall_event; vital_event] world0 Orchestrator.init).
  assert (E : exists out w' s', res = Ok out w' s')
    by (vm_compute; do 3 eexists; reflexivity).
  destruct E as (out & w' & s' & E). exists out, w', s'. split; [exact E |].
  apply (proj1 (OrchestratorFacts.uncovered_events_are_wrapped env0
                  Orchestrator.default_config [fall_event; vital_event]
                  world0 Orchestrator.init out w' s' E)).
  - right; left; reflexivity.
  - right; reflexivity.
Defined.

(** Counterexample to C2: after a first tick at time 100 recorded an alert,
    a tick with an empty batch at time 1000 returns at once and the history
    still holds that alert, 900 seconds old. *)
Lemma empty_tick_keeps_stale_alert :
  exists r,
    Orchestrator.process_events env_late Orchestrator.default_config []
      (fst after_first_tick) (snd after_first_tick)
    = Ok [] (fst after_first_tick) (snd after_first_tick)
    /\ In r (Orchestrator.recent_alerts (snd after_first_tick))
    /\ Orchestrator.deduplication_window Orchestrator.default_config * 2
       < clock env_late (time_reads (fst after_first_tick)) - alert_timestamp r.
Proof.
  eexists. split; [reflexivity |]. split.
  - vm_compute. left. reflexivity.
  - vm_compute. reflexivity.
Qed.

(** Witness of C2: the first tick. *)
Lemma first_tick_records_what_it_returns :
  exists out w' s',
    Orchestrator.process_events env_late Orchestrator.default_config [vital_event]
      world0 Orchestrator.init
    = Ok out w' s'
    /\ Orchestrator.recent_alerts s'
       = filter (fun a => clock env_late (pred (time_reads w')) - alert_timestamp a
                            <? Orchestrator.deduplication_window
                                 Orchestrator.default_config * 2)
                (Orchestrator.recent_alerts Orchestrator.init ++ out).
Proof.
  pose (res := Orchestrator.process_events env_late Orchestrator.default_config
                 [vital_event] world0 Orchestrator.init).
  assert (E : exists out w' s', res = Ok out w' s')
    by (vm_compute; do 3 eexists; reflexivity).
  destruct E as (out & w' & s' & E). exists out, w', s'. split; [exact E |].
  apply (proj2 (OrchestratorFacts.duplicates_discarded_and_history_compacted env_late
                  Orchestrator.default_config)
           [vital_event] world0 Orchestrator.init out w' s'); [discriminate | exact E].
Defined.

(** Counterexample to C3: in every frame of the window the left elbow has
    visibility 0.2, below 0.5; yet the left arm has a trajectory, the mean
    of its shoulder (121, 11) and wrist (225, 15) in each frame, and is
    analysed. *)
Lemma occluded_elbow_is_left_out_of_the_mean :
  (exists kp, nth_error (keypoints pose_occluded_elbow) 13 = Some kp
              /\ visibility kp < 0.5)
  /\ In (mkPoseSample pose_occluded_elbow 0)
        (TemporalBuffer.buffer (Seizure.pose_buffer seizure_occluded))
  /\ Seizure._extract_trajectories Seizure.default_config [11; 13; 15]%nat seizure_occluded
     = Some (repeat (Seizure.mean_position [(121, 11); (225, 15)]) 150)
  /\ In "left_arm" (Seizure.analyzed_limbs Seizure.default_config seizure_occluded).
Proof.
  split; [eexists; split; [reflexivity | vm_compute; reflexivity] |].
  split; [left; reflexivity |].
  split; [vm_compute; reflexivity | vm_compute; left; reflexivity].
Qed.

(** Witness of C3: the trajectory of the left arm in that window. *)
Lemma left_arm_trajectory_of_occluded_window :
  exists trajectories,
    Seizure._extract_trajectories Seizure.default_config [11; 13; 15]%nat seizure_occluded
    = Some trajectories
    /\ trajectories
       = map (fun smp => Seizure.mean_position
                           (Seizure.positions [11; 13; 15]%nat (ps_pose smp)))
             (TemporalBuffer.buffer (Seizure.pose_buffer seizure_occluded)).
Proof.
  pose proof (SeizureFacts.trajectory_averages_visible_keypoints env0
                Seizure.default_config seizure_occluded "left_arm" [11; 13; 15]%nat) as H.
  cbv zeta in H. destruct H as (_ & _ & H & _).
  assert (E : exists t, Seizure._extract_trajectories Seizure.default_config
                          [11; 13; 15]%nat seizure_occluded = Some t)
    by (vm_compute; eexists; reflexivity).
  destruct E as (t & E). exists t. split; [exact E | apply H; exact E].
Defined.

(** Witness of C5: the person is away from the calibrated bed. *)
Lemma leaving_the_bed_emits_once :
  exists ev d,
    payload ev = PBedExit d
    /\ state d = "OUT_OF_BED"
    /\ previous_state d = Some "IN_BED"
    /\ transition d = true
    /\ duration_in_state d = 0.
Proof.
  pose (res := BedExit.detect env0 BedExit.default_config image (frame_meta pose_lying)
                 world0 bed_exit_state).
  assert (E : exists ev w' s', res = Ok (Some ev) w' s'
                               /\ BedExit.current_state s' = "OUT_OF_BED")
    by (vm_compute; do 3 eexists; split; reflexivity).
  destruct E as (ev & w' & s' & E & Hs).
  destruct (proj1 (BedExitFacts.event_only_on_alerting_transition env0
                     BedExit.default_config)
              image (frame_meta pose_lying) world0 bed_exit_state ev w' s' E)
    as (region & detection & rest & p & new_state & d
        & _ & _ & _ & _ & _ & _ & Hnew & Hd & Hst & Hprev & Htr & Hdur).
  exists ev, d. split; [exact Hd |].
  split; [congruence |]. split; [exact Hprev |]. split; [exact Htr | exact Hdur].
Defined.



(** Witness of C7: a frame with a face under a pulse extractor that reports
    72 beats and 15 breaths per minute at quality 0.6. *)
Lemma pulse_reading_is_reported :
  exists ev roi v,
    Vital.detect env_pulse vital_config image (frame_meta pose_lying) world0
      (Vital.init vital_config)
    = Ok (Some ev) world0
         (Vital.mkState true 1 (VitalSpec.window_with roi (Vital.init vital_config)) 1)
    /\ VitalSpec.processes vital_config image (frame_meta pose_lying)
         (Vital.init vital_config) roi
    /\ Vital.process env_pulse vital_config
         (TemporalBuffer.buffer (VitalSpec.window_with roi (Vital.init vital_config)))
       = Some v
    /\ VitalSpec.in_range vital_config v
    /\ ev = VitalSpec.event_of (frame_meta pose_lying) v.
Proof.
  destruct (VitalFacts.event_iff_vitals_in_range env_pulse vital_config image
              (frame_meta pose_lying) world0 (Vital.init vital_config))
    as (r & s' & Hd & Hiff).
  assert (E : exists ev, Vital.detect env_pulse vital_config image (frame_meta pose_lying)
                           world0 (Vital.init vital_config)
                         = Ok (Some ev) world0
                              (Vital.mkState true 1
                                 (VitalSpec.window_with image (Vital.init vital_config)) 1))
    by (vm_compute; eexists; reflexivity).
  destruct E as (ev & E).
  assert (Hr : r = Some ev) by congruence.
  destruct (proj1 (Hiff ev) Hr) as (roi & v & Hp & Hv & Hin & Hev).
  assert (Hroi : roi = image).
  { destruct Hp as (_ & Hc & _). vm_compute in Hc. injection Hc as <-. reflexivity. }
  subst roi. exists ev, image, v.
  split; [exact E |]. split; [exact Hp |]. split; [exact Hv |].
  split; [exact Hin | exact Hev].
Defined.

(** Witness of C9: three frames with a face and no extractable pulse; the
    window of the first is discarded, the third call processes again. *)
Lemma discarded_window_is_followed_by_processing :
  exists (c : Call Vital.State (Image * FrameMetadata) (option Event)) roi,
    VitalSpec.processes vital_config (fst (input c)) (snd (input c)) (state_before c) roi
    /\ returned c
       = VitalSpec.answer env0 vital_config (snd (input c))
           (VitalSpec.window_with roi (state_before c)).
Proof.
  pose (i := (image, frame_meta pose_lying)).
  pose (first := VitalSpec.call env0 vital_config i world0 (Vital.init vital_config)).
  assert (E0 : exists w s, first = Ok None w s)
    by (vm_compute; do 2 eexists; reflexivity).
  destruct E0 as (w & s & E0).
  assert (E : exists c1 c2 w' s',
             run (VitalSpec.call env0 vital_config) [i; i] w s
             = ([c1] ++ c2 :: [], w', s')
             /\ returned c1 = None /\ input c2 = i).
  { unfold first in E0. vm_compute in E0. injection E0 as <- <-.
    vm_compute. do 4 eexists. split; [reflexivity | split; reflexivity]. }
  destruct E as (c1 & c2 & w' & s' & E & Hq & Hi).
  assert (Hp0 : VitalSpec.processes vital_config (fst i) (snd i)
                  (Vital.init vital_config) image).
  { split; [reflexivity |]. split; [vm_compute; reflexivity |].
    split; [vm_compute; intro; discriminate | vm_compute; lia]. }
  assert (Hface : VitalSpec.face_crop (fst (input c2)) (snd (input c2)) = Some image)
    by (rewrite Hi; vm_compute; reflexivity).
  exists c2, image.
  exact (proj2 (VitalFacts.discarded_window_is_reprocessed env0 vital_config)
           i image world0 (Vital.init vital_config) w s [i; i] [c1] c2 [] w' s' image
           Hp0 E0 E (Forall_cons c1 Hq (Forall_nil _)) Hface).
Defined.

End Scenarios.

(** * Further properties of the code *)

(** ** The sliding window buffer, for any insertion sequence *)

Module TemporalBufferMore.
Import TemporalBuffer TemporalBufferFacts.

Section Facts.
Context {A : Type}.
Implicit Types (b : t A) (xs : list A).

Lemma len_add_succ x b : (len (add x b) <= S (len b))%nat.
Proof.
  unfold len, add; simpl.
  assert (L : length (buffer b ++ [x]) = S (length (buffer b)))
    by (rewrite length_app; simpl; lia).
  destruct (maxlen b <? length (buffer b ++ [x]))%nat; [| lia].
  destruct (buffer b ++ [x]); simpl in *; lia.
Qed.

Lemma len_add_all_init xs c :
  len (add_all xs (init c)) = Nat.min (length xs) c.
Proof.
  unfold len. rewrite add_all_init, length_skipn. lia.
Qed.

(** X1: a positive window over a buffer of capacity [c] filled by any
    insertions holds the most recent items in insertion order, as many as
    asked for or as the capacity allows. *)
Theorem positive_window_holds_most_recent xs c (n : Z) :
  (0 < n)%Z ->
  get_window n (add_all xs (init c))
  = skipn (length xs - Nat.min (Z.to_nat n) c) xs.
Proof.
  intros Hn.
  pose proof (len_add_all_init xs c) as Hlen.
  pose proof (add_all_init xs c) as Hb.
  unfold get_window, slice_from. rewrite Hlen.
  destruct (Z.geb_spec n (Z.of_nat (Nat.min (length xs) c))) as [Hge | Hlt].
  - rewrite Hb. f_equal. lia.
  - destruct (Z.ltb_spec (- n) 0); [| lia].
    fold (len (add_all xs (init c))). rewrite Hlen, Hb, skipn_skipn.
    f_equal. lia.
Qed.

(** X2: after any insertions into a fresh buffer of capacity [c] the size
    is the smaller of the number of insertions and [c], and [is_full] says
    whether at least [c] items were inserted. *)
Theorem size_after_insertions xs c :
  len (add_all xs (init c)) = Nat.min (length xs) c
  /\ is_full (add_all xs (init c)) = (c <=? length xs)%nat.
Proof.
  pose proof (len_add_all_init xs c) as Hlen.
  split; [exact Hlen |].
  unfold is_full. rewrite Hlen, maxlen_add_all. simpl.
  destruct (Nat.leb_spec c (length xs)); [apply Nat.eqb_eq | apply Nat.eqb_neq]; lia.
Qed.

(** X3: after any insertions into a fresh buffer of capacity [c] > 0 the
    latest item is the last one inserted and the oldest is the one inserted
    [c] insertions ago, or the first one if fewer were made; with capacity
    0, or before the first insertion, both accessors return [None]. *)
Theorem accessors_after_insertions xs c :
  get_latest (add_all xs (init c))
  = (if (0 <? c)%nat then nth_error xs (length xs - 1) else None)
  /\ get_oldest (add_all xs (init c))
     = (if (0 <? c)%nat then nth_error xs (length xs - c) else None).
Proof.
  pose proof (len_add_all_init xs c) as Hlen.
  pose proof (add_all_init xs c) as Hb.
  unfold get_latest, get_oldest. rewrite Hlen, Hb.
  destruct (Nat.ltb_spec 0 c) as [Hc | Hc].
  - destruct xs as [| x xs'].
    + simpl. split; reflexivity.
    + assert (Hpos : (0 <? Nat.min (length (x :: xs')) c)%nat = true)
        by (apply Nat.ltb_lt; simpl length; lia).
      rewrite Hpos, !nth_error_skipn. split; f_equal; simpl length; lia.
  - assert (Hz : (0 <? Nat.min (length xs) c)%nat = false)
      by (apply Nat.ltb_ge; lia).
    rewrite Hz. split; reflexivity.
Qed.

(** X4: a negative window size does not give an empty window: it drops the
    [-n] oldest items and returns the rest. *)
Theorem negative_window_drops_oldest (n : Z) b :
  (n < 0)%Z -> get_window n b = skipn (Z.to_nat (- n)) (buffer b).
Proof.
  intros Hn. unfold get_window, slice_from.
  destruct (Z.geb_spec n (Z.of_nat (len b))); [lia |].
  destruct (Z.ltb_spec (- n) 0); [lia |].
  destruct (Z.le_gt_cases (- n) (Z.of_nat (length (buffer b)))) as [Hle | Hgt].
  - rewrite Z.min_l by lia. reflexivity.
  - rewrite Z.min_r by lia. rewrite Nat2Z.id.
    rewrite !skipn_all2 by lia. reflexivity.
Qed.

End Facts.
End TemporalBufferMore.

(** ** Bounding boxes *)

Module GeometryFacts.
Import GeometrySpec.

Lemma py_max_cases (a b : Q) :
  (a < b /\ py_max a b = b) \/ (b <= a /\ py_max a b = a).
Proof.
  unfold py_max. destruct (a <? b) eqn:E.
  - left. split; [apply Qltb_lt; exact E | reflexivity].
  - right. split; [apply Qltb_ge; exact E | reflexivity].
Qed.

(** The width (or height) of the overlap of two intervals, as [compute_iou]
    computes it. *)
Lemma overlap_bounds (a1 a2 b1 b2 : Q) :
  a1 <= a2 -> b1 <= b2 ->
  let o := py_max 0 ((if b2 <? a2 then b2 else a2) - py_max a1 b1) in
  0 <= o /\ o <= a2 - a1 /\ o <= b2 - b1.
Proof.
  intros Ha Hb o. subst o.
  destruct (b2 <? a2) eqn:E; [apply Qltb_lt in E | apply Qltb_ge in E];
    destruct (py_max_cases a1 b1) as [(H1 & ->) | (H1 & ->)];
    match goal with
    | |- context [py_max 0 ?d] =>
        destruct (py_max_cases 0 d) as [(H2 & ->) | (H2 & ->)]
    end; repeat split; lra.
Qed.

Lemma overlap_sym (a1 a2 b1 b2 : Q) :
  py_max 0 ((if b2 <? a2 then b2 else a2) - py_max a1 b1)
  == py_max 0 ((if a2 <? b2 then a2 else b2) - py_max b1 a1).
Proof.
  destruct (b2 <? a2) eqn:E1; [apply Qltb_lt in E1 | apply Qltb_ge in E1];
    destruct (a2 <? b2) eqn:E2; [apply Qltb_lt in E2 | apply Qltb_ge in E2
                                | apply Qltb_lt in E2 | apply Qltb_ge in E2];
    destruct (py_max_cases a1 b1) as [(H1 & ->) | (H1 & ->)];
    destruct (py_max_cases b1 a1) as [(H2 & ->) | (H2 & ->)];
    repeat match goal with
           | |- context [py_max 0 ?d] =>
               let H := fresh "H" in
               destruct (py_max_cases 0 d) as [(H & ->) | (H & ->)]
           end; lra.
Qed.

Lemma overlap_apart (a1 a2 b1 b2 : Q) :
  a2 <= b1 \/ b2 <= a1 ->
  py_max 0 ((if b2 <? a2 then b2 else a2) - py_max a1 b1) = 0.
Proof.
  intros H.
  destruct (b2 <? a2) eqn:E; [apply Qltb_lt in E | apply Qltb_ge in E];
    destruct (py_max_cases a1 b1) as [(H1 & ->) | (H1 & ->)];
    match goal with
    | |- context [py_max 0 ?d] =>
        destruct (py_max_cases 0 d) as [(H2 & ->) | (H2 & ->)]
    end; try reflexivity; exfalso; lra.
Qed.

(** X5: the overlap ratio of two boxes with ordered corners lies between 0
    and 1. *)
Theorem compute_iou_is_a_ratio (bbox1 bbox2 : BoundingBox) :
  well_formed bbox1 -> well_formed bbox2 ->
  0 <= compute_iou bbox1 bbox2 <= 1.
Proof.
  intros (Hx1 & Hy1) (Hx2 & Hy2). unfold compute_iou. cbv zeta.
  pose proof (overlap_bounds _ _ _ _ Hx1 Hx2) as Hw.
  pose proof (overlap_bounds _ _ _ _ Hy1 Hy2) as Hh.
  cbv zeta in Hw, Hh.
  destruct Hw as (Hw0 & Hw1 & Hw2). destruct Hh as (Hh0 & Hh1 & Hh2).
  match type of Hw0 with _ <= ?a => remember a as W eqn:EW end. clear EW.
  match type of Hh0 with _ <= ?a => remember a as H eqn:EH end. clear EH.
  set (w1 := x2 bbox1 - x1 bbox1) in *. set (h1 := y2 bbox1 - y1 bbox1) in *.
  set (w2 := x2 bbox2 - x1 bbox2) in *. set (h2 := y2 bbox2 - y1 bbox2) in *.
  assert (HI0 : 0 <= W * H) by nra.
  assert (HI1 : W * H <= w1 * h1) by nra.
  assert (HI2 : W * H <= w2 * h2) by nra.
  destruct (w1 * h1 + w2 * h2 - W * H >? 0) eqn:E; [| split; lra].
  apply Qltb_lt in E. split.
  - apply Qle_shift_div_l; [exact E | lra].
  - apply Qle_shift_div_r; [exact E | lra].
Qed.

(** X6: the overlap ratio does not depend on the order of the two boxes. *)
Theorem compute_iou_sym (bbox1 bbox2 : BoundingBox) :
  compute_iou bbox1 bbox2 == compute_iou bbox2 bbox1.
Proof.
  unfold compute_iou. cbv zeta.
  pose proof (overlap_sym (x1 bbox1) (x2 bbox1) (x1 bbox2) (x2 bbox2)) as Hw.
  pose proof (overlap_sym (y1 bbox1) (y2 bbox1) (y1 bbox2) (y2 bbox2)) as Hh.
  match type of Hw with ?a == ?b =>
    remember a as W eqn:EW; remember b as W' eqn:EW' end. clear EW EW'.
  match type of Hh with ?a == ?b =>
    remember a as H eqn:EH; remember b as H' eqn:EH' end. clear EH EH'.
  set (a1 := (x2 bbox1 - x1 bbox1) * (y2 bbox1 - y1 bbox1)).
  set (a2 := (x2 bbox2 - x1 bbox2) * (y2 bbox2 - y1 bbox2)).
  assert (HI : W * H == W' * H') by (rewrite Hw, Hh; reflexivity).
  assert (HU : a1 + a2 - W * H == a2 + a1 - W' * H') by (rewrite HI; ring).
  destruct (a1 + a2 - W * H >? 0) eqn:E1; [apply Qltb_lt in E1 | apply Qltb_ge in E1];
    destruct (a2 + a1 - W' * H' >? 0) eqn:E2;
    [apply Qltb_lt in E2 | apply Qltb_ge in E2 | apply Qltb_lt in E2 | apply Qltb_ge in E2].
  - rewrite HU, HI. reflexivity.
  - exfalso. lra.
  - exfalso. lra.
  - reflexivity.
Qed.

(** X7: boxes that lie apart, one beside or above the other, have overlap
    ratio 0. *)
Theorem compute_iou_of_boxes_apart (bbox1 bbox2 : BoundingBox) :
  apart bbox1 bbox2 -> compute_iou bbox1 bbox2 == 0.
Proof.
  intros Hap. unfold compute_iou. cbv zeta.
  assert (HI : py_max 0 ((if x2 bbox2 <? x2 bbox1 then x2 bbox2 else x2 bbox1)
                        - py_max (x1 bbox1) (x1 bbox2))
               * py_max 0 ((if y2 bbox2 <? y2 bbox1 then y2 bbox2 else y2 bbox1)
                           - py_max (y1 bbox1) (y1 bbox2)) == 0).
  { destruct Hap as [Hx | [Hx | [Hy | Hy]]].
    - rewrite (overlap_apart (x1 bbox1) (x2 bbox1) (x1 bbox2) (x2 bbox2)) by (left; exact Hx).
      ring.
    - rewrite (overlap_apart (x1 bbox1) (x2 bbox1) (x1 bbox2) (x2 bbox2)) by (right; exact Hx).
      ring.
    - rewrite (overlap_apart (y1 bbox1) (y2 bbox1) (y1 bbox2) (y2 bbox2)) by (left; exact Hy).
      ring.
    - rewrite (overlap_apart (y1 bbox1) (y2 bbox1) (y1 bbox2) (y2 bbox2)) by (right; exact Hy).
      ring. }
  match goal with
  | |- context [if ?c then _ else _] => destruct c
  end; [rewrite HI; unfold Qdiv; ring | reflexivity].
Qed.

(** X9: [normalize_keypoints] returns exactly when the list is empty or
    both the width and the height are non-zero, and then with one keypoint
    per input keypoint; otherwise the first division raises. *)
Theorem normalize_keypoints_returns_iff {St} (kps : list Keypoint) (width height : Z)
  (w : World) (s : St) :
  ((exists r, normalize_keypoints kps width height w s = Ok r w s
              /\ length r = length kps)
   <-> kps = [] \/ (width <> 0%Z /\ height <> 0%Z))
  /\ (kps <> [] -> (width = 0%Z \/ height = 0%Z) ->
      normalize_keypoints kps width height w s = Raised ZeroDivisionError w s).
Proof.
  assert (Hok : width <> 0%Z -> height <> 0%Z ->
                exists r, normalize_keypoints kps width height w s = Ok r w s
                          /\ length r = length kps).
  { intros Hw Hh. induction kps as [| kp rest IH].
    - exists []. split; reflexivity.
    - destruct IH as (r & Hr & Hl). simpl. unfold bind.
      rewrite !py_div_nonzero by (apply inject_Z_nonzero; assumption).
      rewrite Hr. eexists. split; [reflexivity | simpl; rewrite Hl; reflexivity]. }
  assert (Hzero : forall z, z = 0%Z -> Qeq_bool (inject_Z z) 0 = true)
    by (intros z ->; reflexivity).
  assert (Hraise : kps <> [] -> (width = 0%Z \/ height = 0%Z) ->
                   normalize_keypoints kps width height w s
                   = Raised ZeroDivisionError w s).
  { intros Hne Hz. destruct kps as [| kp rest]; [contradiction |].
    simpl. unfold bind, py_div, raise, ret.
    destruct (Qeq_bool (inject_Z width) 0) eqn:Ew; [reflexivity |].
    destruct Hz as [Hz | Hz]; [rewrite (Hzero _ Hz) in Ew; discriminate |].
    rewrite (Hzero _ Hz). reflexivity. }
  split; [| exact Hraise]. split.
  - intros (r & Hr & _). destruct kps as [| kp rest]; [left; reflexivity |].
    right. destruct (Z.eq_dec width 0) as [Hw | Hw].
    + rewrite Hraise in Hr; [discriminate | discriminate | left; exact Hw].
    + destruct (Z.eq_dec height 0) as [Hh | Hh]; [| split; assumption].
      rewrite Hraise in Hr; [discriminate | discriminate | right; exact Hh].
  - intros [-> | (Hw & Hh)]; [exists []; split; reflexivity | apply Hok; assumption].
Qed.

End GeometryFacts.

(** ** What a returning operation did *)

Lemma bind_ok {St A B} (m : M St A) (k : A -> M St B) w s b w' s' :
  bind m k w s = Ok b w' s' ->
  exists a w1 s1, m w s = Ok a w1 s1 /\ k a w1 s1 = Ok b w' s'.
Proof.
  unfold bind. destruct (m w s) as [a w1 s1 | e w1 s1]; [| discriminate].
  intros H. exists a, w1, s1. split; [reflexivity | exact H].
Qed.

Lemma index_ok {St A} (xs : list A) (i : nat) (w : World) (s : St) x w' s' :
  index xs i w s = Ok x w' s' -> w' = w /\ s' = s /\ nth_error xs i = Some x.
Proof.
  unfold index. destruct (nth_error xs i); [| discriminate].
  intros H. injection H as <- <- <-. repeat split.
Qed.

Lemma py_div_ok {St} (x y : Q) (w : World) (s : St) q w' s' :
  py_div x y w s = Ok q w' s' -> w' = w /\ s' = s /\ q = x / y /\ ~ y == 0.
Proof.
  unfold py_div. destruct (Qeq_bool y 0) eqn:E; [discriminate |].
  intros H. injection H as <- <- <-. repeat split.
  intros Hy. apply Qeq_bool_iff in Hy. congruence.
Qed.

Lemma min1_le (x : Q) : min1 x <= 1.
Proof.
  unfold min1. destruct (x <? 1) eqn:E; [apply Qltb_lt in E; lra | lra].
Qed.

Lemma min1_nonneg (x : Q) : 0 <= x -> 0 <= min1 x.
Proof.
  intros H. unfold min1. destruct (x <? 1); lra.
Qed.

(** [run_split], with the number of inputs the run before the call
    consumed. *)
Lemma run_split_exact {St In A} (step : In -> M St A) before c after inputs w s w' s' :
  run step inputs w s = (before ++ c :: after, w', s') ->
  exists inputs1 inputs2 w1 s1,
    inputs = inputs1 ++ input c :: inputs2
    /\ length inputs1 = length before
    /\ run step inputs1 w s = (before, world_before c, state_before c)
    /\ step (input c) (world_before c) (state_before c) = Ok (returned c) w1 s1
    /\ run step inputs2 w1 s1 = (after, w', s').
Proof.
  revert inputs w s.
  induction before as [| b before IH]; intros inputs w s H;
    (destruct inputs as [| i rest]; simpl in H; [discriminate |]);
    destruct (step i w s) as [a w1 s1 | e w1 s1] eqn:Es; try discriminate;
    destruct (run step rest w1 s1) as [[calls w2] s2] eqn:Er;
    injection H as Hc Hl Hw Hs; subst.
  - exists [], rest, w1, s1. simpl. repeat split; assumption.
  - destruct (IH _ _ _ Er) as (i1 & i2 & w3 & s3 & -> & Hn & H1 & H2 & H3).
    exists (i :: i1), i2, w3, s3. simpl. rewrite Es, H1, Hn.
    repeat split; assumption.
Qed.

Lemma scaled_speed_bounds (d td : Q) :
  0 < td -> 0 <= min1 (Qabs d / td / 100) <= 1.
Proof.
  intros Ht. split; [| apply min1_le].
  apply min1_nonneg. apply Qle_shift_div_l; [lra |]. rewrite Qmult_0_l.
  apply Qle_shift_div_l; [exact Ht |]. rewrite Qmult_0_l. apply Qabs_nonneg.
Qed.

(** Splits the first operation off a returning sequence [H]; a read of the
    state, an assignment or a clock read is resolved at once. *)
Ltac run_step H :=
  let E := fresh "E" in
  apply bind_ok in H; destruct H as (? & ? & ? & E & H); cbv beta in H;
  first
    [ unfold get in E; injection E as <- <- <-
    | unfold modify in E; injection E as <- <- <-
    | unfold time_time in E; injection E as <- <- <-
    | apply index_ok in E; destruct E as (-> & -> & E)
    | apply py_div_ok in E; destruct E as (-> & -> & -> & E)
    | idtac ].

(** ** The fall agent: windows and cooldown *)

Module FallMore.
Import Fall FallSpec.

Section Facts.
Variable env : Env.
Variable cfg : Config.

Lemma vertical_velocity_ok w s v w' s' :
  _compute_vertical_velocity w s = Ok v w' s' ->
  w' = w /\ s' = s /\ 0 <= v <= 1.
Proof.
  unfold _compute_vertical_velocity. intros H. run_step H.
  destruct (TemporalBuffer.len (pose_buffer s) <? 2)%nat;
    [injection H as <- <- <-; repeat split; lra |].
  destruct (TemporalBuffer.get_oldest (pose_buffer s)) as [first_frame |];
    [| injection H as <- <- <-; repeat split; lra].
  destruct (TemporalBuffer.get_latest (pose_buffer s)) as [last_frame |];
    [| injection H as <- <- <-; repeat split; lra].
  do 4 run_step H.
  match type of H with
  | context [if ?c then _ else _] => destruct c eqn:Et
  end; [| injection H as <- <- <-; repeat split; lra].
  apply Qltb_lt in Et.
  match type of H with
  | context [min1 (Qabs ?d / ?td / 100)] =>
      pose proof (scaled_speed_bounds d td Et) as Hb;
      remember (min1 (Qabs d / td / 100)) as v0 eqn:Ev0
  end.
  clear Ev0. injection H as <- <- <-. repeat split; apply Hb.
Qed.

Lemma fall_analysis_ok p h w s ind w' s' :
  _analyze_fall_indicators env cfg p h w s = Ok ind w' s' ->
  w' = w /\ s' = s
  /\ lying_confidence ind <= 1 /\ fall_confidence ind <= 1
  /\ near_fall_confidence ind <= 1
  /\ 0 <= ind_vertical_velocity ind <= 1.
Proof.
  unfold _analyze_fall_indicators. intros H. do 8 run_step H.
  run_step H. apply vertical_velocity_ok in E7. destruct E7 as (-> & -> & Hv).
  injection H as <- <- <-. simpl.
  split; [reflexivity |]. split; [reflexivity |].
  split; [apply min1_le |]. split; [apply min1_le |]. split; [apply min1_le | exact Hv].
Qed.

Lemma classify_ok ind ft conf :
  lying_confidence ind <= 1 -> fall_confidence ind <= 1 ->
  near_fall_confidence ind <= 1 ->
  classify ind = (Some ft, conf) -> conf <= 1 /\ In ft fall_types.
Proof.
  intros Hl Hf Hn. unfold classify, fall_types.
  destruct (is_lying ind); [intros H; injection H as <- <-; simpl; auto |].
  destruct (is_falling ind); [intros H; injection H as <- <-; simpl; auto |].
  destruct (is_near_fall ind); [intros H; injection H as <- <-; simpl; auto |].
  discriminate.
Qed.

(** What a returning call of [detect] did, by its result. *)
Lemma detect_cases frame metadata w s r w' s' :
  detect env cfg frame metadata w s = Ok r w' s' ->
  match r with
  | Some ev =>
      enabled s = true
      /\ (sequence_length cfg <= TemporalBuffer.len (pose_buffer s'))%nat
      /\ event_cooldown cfg <= clock env (time_reads w) - last_event_time s
      /\ w' = tick (tick w)
      /\ last_event_time s' = clock env (S (time_reads w))
      /\ confidence_threshold cfg < confidence ev
      /\ confidence ev <= 1
      /\ exists d, payload ev = PFall d /\ In (fall_type d) fall_types
  | None => last_event_time s' = last_event_time s
  end.
Proof.
  unfold detect. intros H. run_step H.
  destruct (enabled s) eqn:En; cbn [negb] in H;
    [| injection H as <- <- <-; reflexivity].
  run_step H.
  destruct (detections metadata) as [| detection rest];
    [injection H as <- <- <-; reflexivity |].
  destruct (pose detection) as [p |]; [| injection H as <- <- <-; reflexivity].
  do 2 run_step H.
  match type of H with
  | context [(TemporalBuffer.len ?b <? _)%nat] =>
      destruct (Nat.ltb_spec (TemporalBuffer.len b) (sequence_length cfg)) as [Hlen | Hlen]
  end; [injection H as <- <- <-; reflexivity |].
  run_step H.
  match type of H with
  | context [if ?c then _ else _] => destruct c eqn:Ecool
  end; [injection H as <- <- <-; reflexivity |].
  apply Qltb_ge in Ecool. simpl in Ecool.
  run_step H. apply fall_analysis_ok in E. destruct E as (-> & -> & Hl & Hf & Hn & _).
  destruct (classify _) as [[ft |] conf] eqn:Ec; [| injection H as <- <- <-; reflexivity].
  destruct (classify_ok _ _ _ Hl Hf Hn Ec) as (Hconf & Hft).
  destruct (conf >? confidence_threshold cfg) eqn:Ethr;
    [| injection H as <- <- <-; reflexivity].
  apply Qltb_lt in Ethr.
  do 2 run_step H. injection H as <- <- <-. simpl.
  split; [reflexivity |]. split; [exact Hlen |]. split; [exact Ecool |].
  split; [reflexivity |]. split; [reflexivity |]. split; [exact Ethr |].
  split; [exact Hconf |]. eexists. split; [reflexivity | exact Hft].
Qed.

Lemma detect_below_window frame metadata w s :
  (S (TemporalBuffer.len (pose_buffer s)) < sequence_length cfg)%nat ->
  exists s', detect env cfg frame metadata w s = Ok None w s'
             /\ (TemporalBuffer.len (pose_buffer s')
                 <= S (TemporalBuffer.len (pose_buffer s)))%nat.
Proof.
  intros Hlen. unfold detect, bind, get, modify, ret.
  destruct (enabled s); cbn [negb]; [| eexists; split; [reflexivity | lia]].
  destruct (detections metadata) as [| detection rest];
    [eexists; split; [reflexivity | simpl; lia] |].
  destruct (pose detection) as [p |]; [| eexists; split; [reflexivity | simpl; lia]].
  match goal with
  | |- context [TemporalBuffer.add ?x ?b] =>
      pose proof (TemporalBufferMore.len_add_succ x b) as Hadd
  end.
  simpl in Hadd |- *.
  match goal with
  | |- context [(?a <? ?b)%nat] =>
      destruct (Nat.ltb_spec a b) as [Hlt | Hge]
  end; [| lia].
  eexists. split; [reflexivity | simpl; lia].
Qed.

(** X10: as long as fewer samples than the sequence length can have been
    buffered, every call of [detect] returns no event, raises nothing and
    does not read the clock, whatever the frames hold. *)
Theorem detect_waits_for_full_window inputs w s :
  (TemporalBuffer.len (pose_buffer s) + length inputs < sequence_length cfg)%nat ->
  exists calls s',
    run (step env cfg) inputs w s = (calls, w, s')
    /\ length calls = length inputs
    /\ Forall (fun c => returned c = None) calls.
Proof.
  revert s. induction inputs as [| i rest IH]; intros s Hlen.
  - exists [], s. repeat split. constructor.
  - simpl in Hlen.
    destruct (detect_below_window (fst i) (snd i) w s) as (s1 & Hd & Hl); [lia |].
    destruct (IH s1) as (calls & s' & Hr & Hn & Hall); [lia |].
    exists (mkCall w s i None :: calls), s'.
    simpl. unfold step at 1. rewrite Hd, Hr.
    split; [reflexivity |]. split; [simpl; lia |].
    constructor; [reflexivity | exact Hall].
Qed.

(** X11: an event is returned only by an enabled agent with a full window
    whose cooldown has elapsed at the first clock read of the call; the
    call reads the clock twice and stores the second reading as the last
    event time, and the event's confidence exceeds the confidence threshold
    and is at most 1. *)
Theorem event_needs_window_and_cooldown frame metadata w s ev w' s' :
  detect env cfg frame metadata w s = Ok (Some ev) w' s' ->
  enabled s = true
  /\ (sequence_length cfg <= TemporalBuffer.len (pose_buffer s'))%nat
  /\ event_cooldown cfg <= clock env (time_reads w) - last_event_time s
  /\ w' = tick (tick w)
  /\ last_event_time s' = clock env (S (time_reads w))
  /\ confidence_threshold cfg < confidence ev <= 1
  /\ exists d, payload ev = PFall d /\ In (fall_type d) fall_types.
Proof.
  intros H. apply detect_cases in H.
  destruct H as (H1 & H2 & H3 & H4 & H5 & H6 & H7 & H8).
  split; [exact H1 |]. split; [exact H2 |]. split; [exact H3 |].
  split; [exact H4 |]. split; [exact H5 |]. split; [split; assumption | exact H8].
Qed.

Lemma quiet_run_keeps_event_time inputs :
  forall w s calls w' s',
    run (step env cfg) inputs w s = (calls, w', s') ->
    length calls = length inputs ->
    Forall (fun c => returned c = None) calls ->
    last_event_time s' = last_event_time s.
Proof.
  induction inputs as [| i rest IH]; intros w s calls w' s' Hrun Hlen Hq; simpl in Hrun.
  - injection Hrun as <- <- <-. reflexivity.
  - destruct (step env cfg i w s) as [a w1 s1 | e w1 s1] eqn:Es;
      [| injection Hrun as <- <- <-; discriminate].
    destruct (run (step env cfg) rest w1 s1) as [[calls1 w2] s2] eqn:Er.
    injection Hrun as <- <- <-. simpl in Hlen.
    inversion Hq as [| c l Hc Hl]; subst. simpl in Hc. subst a.
    unfold step in Es. apply detect_cases in Es. simpl in Es.
    rewrite (IH _ _ _ _ _ Er) by (lia || assumption). exact Es.
Qed.

(** X12: between two successive events of a run the cooldown has elapsed:
    the clock reading at which the later call checked the cooldown is at
    least the cooldown after the reading the earlier call stored. *)
Theorem events_are_a_cooldown_apart inputs w s before c1 mid c2 after w' s' e1 e2 :
  run (step env cfg) inputs w s = (before ++ c1 :: mid ++ c2 :: after, w', s') ->
  returned c1 = Some e1 ->
  returned c2 = Some e2 ->
  Forall (fun c => returned c = None) mid ->
  event_cooldown cfg
  <= clock env (time_reads (world_before c2))
     - clock env (S (time_reads (world_before c1))).
Proof.
  intros Hrun H1 H2 Hq.
  destruct (run_split_exact _ _ _ _ _ _ _ _ _ Hrun)
    as (i1 & i2 & w1 & s1 & _ & _ & _ & Hc1 & Hrest).
  destruct (run_split_exact _ _ _ _ _ _ _ _ _ Hrest)
    as (j1 & j2 & w2 & s2 & _ & Hlen & Hmid & Hc2 & _).
  rewrite H1 in Hc1. rewrite H2 in Hc2. unfold step in Hc1, Hc2.
  apply detect_cases in Hc1. apply detect_cases in Hc2.
  destruct Hc1 as (_ & _ & _ & _ & Hlast & _).
  destruct Hc2 as (_ & _ & Hcool & _).
  rewrite (quiet_run_keeps_event_time _ _ _ _ _ _ Hmid (eq_sym Hlen) Hq), Hlast in Hcool.
  exact Hcool.
Qed.

End Facts.
End FallMore.

(** ** Frames without a person *)

(** X13: on a frame without detections every enabled agent returns no
    event and only counts the frame: nothing else of its state changes, no
    clock is read and nothing is raised. *)
Theorem empty_frame_is_only_counted (env : Env) (k : AgentKind) (cfg : agent_config k)
  (frame : Image) (metadata : FrameMetadata) (w : World) (s : agent_state k) :
  agent_enabled k s = true ->
  detections metadata = [] ->
  agent_detect env k cfg frame metadata w s = Ok None w (agent_count_frame k s).
Proof.
  intros Hen Hdet. destruct k; simpl in *.
  - unfold Fall.detect, bind, get, modify, ret. rewrite Hen, Hdet. reflexivity.
  - unfold Seizure.detect, Seizure.detect_staged, bind, get, modify, ret.
    rewrite Hen, Hdet. reflexivity.
  - unfold Vital.detect, Vital.detect_staged, bind, get, modify, ret.
    rewrite Hen, Hdet. reflexivity.
  - unfold BedExit.detect, BedExit._calibrate_bed_region, bind, get, modify, ret.
    rewrite Hen, Hdet. cbn [negb BedExit.bed_region BedExit.set_frame_count].
    destruct (BedExit.bed_region s); reflexivity.
  - unfold Immobility.detect, bind, get, modify, ret. rewrite Hen, Hdet. reflexivity.
Qed.

(** ** The seizure agent: what an event holds *)

Module SeizureMore.
Import Seizure.

Section Facts.
Variable env : Env.
Variable cfg : Config.

Lemma affected_limbs_bounded s ls :
  forall acc,
    let r := fold_left (analyze_limb env cfg s) ls acc in
    (length (fst (fst r)) <= length (fst (fst acc)) + length ls)%nat
    /\ incl (fst (fst r)) (fst (fst acc) ++ map fst ls).
Proof.
  induction ls as [| limb ls IH]; intros acc; simpl.
  - split; [lia | rewrite app_nil_r; apply incl_refl].
  - destruct (IH (analyze_limb env cfg s acc limb)) as (Hl & Hi).
    assert (Hstep : (length (fst (fst (analyze_limb env cfg s acc limb)))
                     <= S (length (fst (fst acc))))%nat
                    /\ incl (fst (fst (analyze_limb env cfg s acc limb)))
                            (fst (fst acc) ++ [fst limb])).
    { destruct acc as [[affected m] f]. unfold analyze_limb.
      destruct (_extract_trajectories cfg (snd limb) s);
        [| simpl; split; [lia | apply incl_appl, incl_refl]].
      destruct (is_seizure_pattern _); simpl;
        [split; [rewrite length_app; simpl; lia | apply incl_refl]
        | split; [lia | apply incl_appl, incl_refl]]. }
    destruct Hstep as (Hs1 & Hs2). split; [lia |].
    intros x Hx. apply Hi in Hx. apply in_app_or in Hx.
    destruct Hx as [Hx | Hx].
    + apply Hs2 in Hx. apply in_app_or in Hx. apply in_or_app.
      destruct Hx as [Hx | [<- | []]]; [left; exact Hx | right; left; reflexivity].
    + apply in_or_app. right. right. exact Hx.
Qed.

Lemma limb_analysis_ok w s ind w' s' :
  _analyze_limb_movements env cfg w s = Ok ind w' s' ->
  w' = w /\ s' = s
  /\ ind_seizure_detected ind
     = (affected_limbs_min cfg <=? Z.of_nat (length (ind_affected_limbs ind)))%Z
  /\ (length (ind_affected_limbs ind) <= 4)%nat
  /\ incl (ind_affected_limbs ind) (map fst limbs)
  /\ ind_confidence ind <= 1.
Proof.
  unfold _analyze_limb_movements. intros H. run_step H.
  pose proof (affected_limbs_bounded s limbs ([], 0, 0)) as Hb. cbv zeta in Hb.
  destruct (fold_left (analyze_limb env cfg s) limbs ([], 0, 0)) as [[affected m] f].
  simpl in Hb. destruct Hb as (Hlen & Hincl).
  run_step H.
  match type of E with
  | _ = Ok ?c ?w1 ?s1 => assert (Hc : c <= 1 /\ w1 = w /\ s1 = s)
  end.
  { destruct (Qeq_bool (magnitude_threshold cfg) 0).
    - destruct affected; [discriminate |]. injection E as <- <- <-.
      repeat split. lra.
    - injection E as <- <- <-. repeat split. apply min1_le. }
  destruct Hc as (Hc & -> & ->).
  injection H as <- <- <-. simpl. repeat split; assumption.
Qed.

(** X14: a seizure event reports a detected seizure whose duration exceeds
    the duration threshold, with at least the configured number of affected
    limbs, all among the four limbs, and a confidence of at most 1; with a
    duration threshold of at least 5 seconds, as configured by default, the
    event is critical by [is_critical].  It is returned only after the
    cooldown has elapsed at the first clock read of the call. *)
Theorem seizure_event_is_critical frame metadata w s ev w' s' :
  detect env cfg frame metadata w s = Ok (Some ev) w' s' ->
  exists d,
    payload ev = PSeizure d
    /\ seizure_detected d = true
    /\ duration_threshold cfg < duration d
    /\ (5 <= duration_threshold cfg -> is_critical d = true)
    /\ (affected_limbs_min cfg <= Z.of_nat (length (affected_limbs d)))%Z
    /\ (length (affected_limbs d) <= 4)%nat
    /\ incl (affected_limbs d) (map fst limbs)
    /\ confidence ev <= 1
    /\ event_cooldown cfg <= clock env (time_reads w) - last_event_time s.
Proof.
  unfold detect, detect_staged. intros H. run_step H.
  destruct x as [st r]. injection H as -> <- <-. rename E into H.
  run_step H.
  destruct (enabled s) eqn:En; cbn [negb] in H; [| discriminate].
  run_step H.
  destruct (detections metadata) as [| detection rest]; [discriminate |].
  destruct (pose detection) as [p |]; [| discriminate].
  do 2 run_step H.
  match type of H with
  | context [if ?c then _ else _] => destruct c
  end; [discriminate |].
  run_step H.
  match type of H with
  | context [if ?c then _ else _] => destruct c eqn:Ecool
  end; [discriminate |].
  apply Qltb_ge in Ecool. simpl in Ecool.
  run_step H. apply limb_analysis_ok in E.
  destruct E as (-> & -> & Hdet & Hlen & Hincl & Hconf).
  destruct (ind_seizure_detected x) eqn:Ed; [| run_step H; discriminate].
  symmetry in Hdet. apply Z.leb_le in Hdet.
  run_step H. run_step H.
  match type of H with
  | context [if ?c then _ else _] => destruct c eqn:Edur
  end; [| discriminate].
  apply Qltb_lt in Edur.
  do 2 run_step H. injection H as <- <- <- <-.
  eexists. split; [reflexivity |]. simpl.
  split; [reflexivity |]. split; [exact Edur |].
  split; [intros H5; unfold is_critical; simpl; apply Qltb_lt; lra |].
  split; [exact Hdet |]. split; [exact Hlen |]. split; [exact Hincl |].
  split; [exact Hconf | exact Ecool].
Qed.

End Facts.
End SeizureMore.

(** ** The vital signs agent: events and throttling *)

Module VitalMore.
Import Vital VitalSpec.

Section Facts.
Variable env : Env.
Variable cfg : Config.

(** What an event returned by [detect] is made of. *)
Lemma event_readings frame metadata w s ev w' s' :
  detect env cfg frame metadata w s = Ok (Some ev) w' s' ->
  exists v,
    valid cfg v = true
    /\ process env cfg (TemporalBuffer.buffer (face_roi_buffer s')) = Some v
    /\ last_update_frame s' = frame_count s'
    /\ w' = w
    /\ ev = mkEvent "vital_signs" (timestamp metadata) (vs_signal_quality v)
               "vital_signs" (frame_id metadata)
               (PVital (mkVitalData (Some (vs_heart_rate v))
                                    (Some (vs_respiratory_rate v))
                                    (vs_signal_quality v)
                                    (vs_hr_confidence v) (vs_rr_confidence v))).
Proof.
  intros H. unfold detect in H. run_step H.
  pose proof (VitalFacts.staged_detect_meets_spec env cfg frame metadata w s) as Hspec.
  rewrite E in Hspec. destruct x as [st r]. injection H as -> <- <-.
  simpl in Hspec. destruct Hspec as (-> & _ & _ & _ & _ & _ & _ & _ & Hst).
  destruct st as [| | | | | | result]; try (destruct Hst as (Hr & _); discriminate Hr).
  destruct Hst as (Hres & _ & _ & _ & Hr).
  destruct result as [v |]; [| destruct Hr as (Hr & _); discriminate Hr].
  destruct (valid cfg v) eqn:Hv; [| destruct Hr as (Hr & _); discriminate Hr].
  destruct Hr as (Hu & Hr). injection Hr as ->.
  exists v. split; [exact Hv |]. split; [symmetry; exact Hres |].
  split; [exact Hu |]. split; reflexivity.
Qed.

(** X15: with the default ranges and quality threshold, an event of the
    agent is valid by [is_valid] of its class exactly when its signal
    quality is above 0.6: the agent accepts a quality of 0.6 itself, which
    [is_valid] rejects. *)
Theorem event_is_valid_above_threshold frame metadata w s ev w' s' :
  hr_range cfg = (40, 180) ->
  rr_range cfg = (8, 30) ->
  signal_quality_threshold cfg = 0.6 ->
  detect env cfg frame metadata w s = Ok (Some ev) w' s' ->
  exists d,
    payload ev = PVital d
    /\ 0.6 <= signal_quality d
    /\ is_valid d = (signal_quality d >? 0.6).
Proof.
  intros Hhr Hrr Hq H.
  destruct (event_readings _ _ _ _ _ _ _ H) as (v & Hv & _ & _ & _ & ->).
  apply VitalFacts.valid_in_range in Hv.
  destruct Hv as ((Hh1 & Hh2) & (Hr1 & Hr2) & Hq1).
  rewrite Hhr in Hh1, Hh2. rewrite Hrr in Hr1, Hr2. rewrite Hq in Hq1.
  simpl in Hh1, Hh2, Hr1, Hr2.
  eexists. split; [reflexivity |]. split; [exact Hq1 |].
  unfold is_valid, truthy. simpl.
  assert (Eh : Qeq_bool (vs_heart_rate v) 0 = false).
  { destruct (Qeq_bool (vs_heart_rate v) 0) eqn:E; [| reflexivity].
    apply Qeq_bool_iff in E. lra. }
  assert (Er : Qeq_bool (vs_respiratory_rate v) 0 = false).
  { destruct (Qeq_bool (vs_respiratory_rate v) 0) eqn:E; [| reflexivity].
    apply Qeq_bool_iff in E. lra. }
  rewrite Eh, Er.
  rewrite (proj2 (Qleb_le 40 (vs_heart_rate v)) Hh1).
  rewrite (proj2 (Qleb_le (vs_heart_rate v) 180) Hh2).
  rewrite (proj2 (Qleb_le 8 (vs_respiratory_rate v)) Hr1).
  rewrite (proj2 (Qleb_le (vs_respiratory_rate v) 30) Hr2).
  reflexivity.
Qed.

(** One call before the update interval has elapsed. *)
Lemma throttled_call frame metadata w s :
  (frame_count s + 1 - last_update_frame s < update_interval cfg)%Z ->
  exists st s',
    detect_staged env cfg frame metadata w s = Ok (st, None) w s'
    /\ (forall result, st <> Processed result)
    /\ (frame_count s' <= frame_count s + 1)%Z
    /\ last_update_frame s' = last_update_frame s.
Proof.
  intros Hlt. unfold detect_staged, bind, get, modify, ret.
  destruct (enabled s); cbn [negb];
    [| do 2 eexists; split; [reflexivity |];
       split; [discriminate | split; [lia | reflexivity]]].
  destruct (detections metadata) as [| detection rest];
    [do 2 eexists; split; [reflexivity |];
     split; [discriminate | split; [simpl; lia | reflexivity]] |].
  destruct (face_bbox detection) as [fb |];
    [| do 2 eexists; split; [reflexivity |];
       split; [discriminate | split; [simpl; lia | reflexivity]]].
  match goal with
  | |- context [if ?c then _ else _] => destruct c
  end;
    [do 2 eexists; split; [reflexivity |];
     split; [discriminate | split; [simpl; lia | reflexivity]] |].
  cbn [frame_count last_update_frame set_face_roi_buffer set_frame_count].
  destruct (Z.ltb_spec (frame_count s + 1 - last_update_frame s) (update_interval cfg));
    [| lia].
  do 2 eexists. split; [reflexivity |].
  split; [discriminate | split; [simpl; lia | reflexivity]].
Qed.

Lemma throttled_run inputs :
  forall w s,
    (frame_count s - last_update_frame s + Z.of_nat (length inputs)
     < update_interval cfg)%Z ->
    exists calls s',
      run (step env cfg) inputs w s = (calls, w, s')
      /\ length calls = length inputs
      /\ Forall (fun c => snd (returned c) = None
                          /\ forall result, fst (returned c) <> Processed result) calls.
Proof.
  induction inputs as [| i rest IH]; intros w s Hlt.
  - exists [], s. repeat split. constructor.
  - simpl length in Hlt.
    destruct (throttled_call (fst i) (snd i) w s) as (st & s1 & Hd & Hst & Hc & Hu); [lia |].
    destruct (IH w s1) as (calls & s' & Hr & Hn & Hall); [lia |].
    exists (mkCall w s i (st, None) :: calls), s'.
    simpl. unfold step at 1. rewrite Hd, Hr.
    split; [reflexivity |]. split; [simpl; lia |].
    constructor; [split; [reflexivity | exact Hst] | exact Hall].
Qed.

(** X16: after a call that returned an event, the calls on the next frames,
    as long as they are fewer than the update interval, return no event and
    do not process the window, whatever the frames hold. *)
Theorem no_update_within_interval frame metadata w s ev w1 s1 inputs :
  detect env cfg frame metadata w s = Ok (Some ev) w1 s1 ->
  (Z.of_nat (length inputs) < update_interval cfg)%Z ->
  exists calls s',
    run (step env cfg) inputs w1 s1 = (calls, w1, s')
    /\ length calls = length inputs
    /\ Forall (fun c => snd (returned c) = None
                        /\ forall result, fst (returned c) <> Processed result) calls.
Proof.
  intros H Hn.
  destruct (event_readings _ _ _ _ _ _ _ H) as (_ & _ & _ & Hu & _ & _).
  apply throttled_run. lia.
Qed.

End Facts.
End VitalMore.

(** ** The bed exit agent: calibration and the state machine *)

Module BedExitMore.
Import BedExit BedExitSpec.

Section Facts.
Variable env : Env.
Variable cfg : Config.

(** The region [_calibrate_bed_region] stores for the collected boxes. *)
Local Abbreviation stored_region boxes :=
  (mkBBox (np_mean (map x1 boxes)
           - (np_mean (map x2 boxes) - np_mean (map x1 boxes)) * 0.1)
          (np_mean (map y1 boxes)
           - (np_mean (map y2 boxes) - np_mean (map y1 boxes)) * 0.1)
          (np_mean (map x2 boxes)
           + (np_mean (map x2 boxes) - np_mean (map x1 boxes)) * 0.1)
          (np_mean (map y2 boxes)
           + (np_mean (map y2 boxes) - np_mean (map y1 boxes)) * 0.1) 1).

Lemma calibration_step frame metadata w s :
  enabled s = true -> bed_region s = None ->
  exists s',
    detect env cfg frame metadata w s = Ok None w s'
    /\ enabled s' = true
    /\ current_state s' = current_state s
    /\ match detections metadata with
       | [] =>
           calibration_bboxes s' = calibration_bboxes s
           /\ calibration_frames s' = calibration_frames s
           /\ bed_region s' = None
       | detection :: _ =>
           calibration_bboxes s' = calibration_bboxes s ++ [bbox detection]
           /\ calibration_frames s' = (calibration_frames s + 1)%Z
           /\ bed_region s'
              = if (calibration_frames s + 1 >=? 30)%Z
                then Some (stored_region (calibration_bboxes s ++ [bbox detection]))
                else None
       end.
Proof.
  intros Hen Hreg.
  unfold detect, _calibrate_bed_region, bind, get, modify, ret.
  rewrite Hen, Hreg. cbn [negb].
  destruct (detections metadata) as [| detection rest].
  - eexists. split; [reflexivity |]. simpl. repeat split; assumption.
  - cbn [calibration_frames add_calibration set_frame_count].
    destruct (calibration_frames s + 1 >=? 30)%Z;
      (eexists; split; [reflexivity |]); simpl; repeat split; assumption.
Qed.

(** X17: while no bed region is known, [detect] only calibrates: it returns
    no event, reads no clock and keeps the state name, and it collects the
    box of the first detection of every frame that has one.  The region
    stays unknown until the thirtieth box, and is known with the
    thirtieth. *)
Theorem calibration_completes_at_thirtieth_box inputs w s :
  enabled s = true ->
  bed_region s = None ->
  calibration_frames s = Z.of_nat (length (calibration_bboxes s)) ->
  (length (calibration_bboxes s) < 30)%nat ->
  (length (calibration_bboxes s) + length inputs <= 30)%nat ->
  exists calls s',
    run (step env cfg) inputs w s = (calls, w, s')
    /\ length calls = length inputs
    /\ Forall (fun c => returned c = None) calls
    /\ current_state s' = current_state s
    /\ calibration_bboxes s' = calibration_bboxes s ++ first_boxes inputs
    /\ ((length (calibration_bboxes s') < 30)%nat -> bed_region s' = None)
    /\ (length (calibration_bboxes s') = 30%nat ->
        exists region, bed_region s' = Some region).
Proof.
  revert s. induction inputs as [| i rest IH]; intros s Hen Hreg Hfr Hlt Hle.
  - exists [], s. simpl. rewrite app_nil_r.
    split; [reflexivity |]. split; [reflexivity |]. split; [constructor |].
    split; [reflexivity |]. split; [reflexivity |].
    split; [intros _; exact Hreg | lia].
  - simpl length in Hle.
    destruct (calibration_step (fst i) (snd i) w s Hen Hreg)
      as (s1 & Hd & Hen1 & Hst1 & Hcal).
    assert (Hfirst : first_boxes (i :: rest)
                     = match detections (snd i) with
                       | detection :: _ => [bbox detection]
                       | [] => []
                       end ++ first_boxes rest) by reflexivity.
    destruct (detections (snd i)) as [| detection others] eqn:Hdet.
    + destruct Hcal as (Hb1 & Hf1 & Hr1).
      assert (Hfr1 : calibration_frames s1 = Z.of_nat (length (calibration_bboxes s1)))
        by congruence.
      assert (Hlt1 : (length (calibration_bboxes s1) < 30)%nat) by (rewrite Hb1; lia).
      assert (Hle1 : (length (calibration_bboxes s1) + length rest <= 30)%nat)
        by (rewrite Hb1; lia).
      destruct (IH s1 Hen1 Hr1 Hfr1 Hlt1 Hle1)
        as (calls & s' & Hr & Hn & Hall & Hcs & Hbs & Hnone & Hsome).
      exists (mkCall w s i None :: calls), s'.
      simpl run. unfold step at 1. rewrite Hd, Hr.
      split; [reflexivity |]. split; [simpl; lia |].
      split; [constructor; [reflexivity | exact Hall] |].
      split; [congruence |].
      split; [rewrite Hbs, Hb1, Hfirst; reflexivity |].
      split; assumption.
    + destruct Hcal as (Hb1 & Hf1 & Hr1).
      assert (Hlen1 : length (calibration_bboxes s1) = S (length (calibration_bboxes s)))
        by (rewrite Hb1, length_app; simpl; lia).
      assert (Hfr1 : calibration_frames s1 = Z.of_nat (length (calibration_bboxes s1)))
        by (rewrite Hf1, Hlen1, Hfr; lia).
      destruct (Nat.lt_ge_cases (length (calibration_bboxes s1)) 30) as [Hlt1 | Hge1].
      * assert (Hr1' : bed_region s1 = None).
        { rewrite Hr1. destruct (Z.geb_spec (calibration_frames s + 1) 30); [lia | reflexivity]. }
        assert (Hle1 : (length (calibration_bboxes s1) + length rest <= 30)%nat) by lia.
        destruct (IH s1 Hen1 Hr1' Hfr1 Hlt1 Hle1)
          as (calls & s' & Hr & Hn & Hall & Hcs & Hbs & Hnone & Hsome).
        exists (mkCall w s i None :: calls), s'.
        simpl run. unfold step at 1. rewrite Hd, Hr.
        split; [reflexivity |]. split; [simpl; lia |].
        split; [constructor; [reflexivity | exact Hall] |].
        split; [congruence |].
        split; [rewrite Hbs, Hb1, Hfirst, <- app_assoc; reflexivity |].
        split; assumption.
      * assert (Hrest : rest = []) by (destruct rest; [reflexivity | simpl in Hle; lia]).
        subst rest.
        exists [mkCall w s i None], s1.
        simpl run. unfold step at 1. rewrite Hd.
        split; [reflexivity |]. split; [reflexivity |].
        split; [constructor; [reflexivity | constructor] |].
        split; [exact Hst1 |].
        split; [rewrite Hb1, Hfirst; simpl; reflexivity |].
        split; [lia |].
        intros _. rewrite Hr1.
        destruct (Z.geb_spec (calibration_frames s + 1) 30); [| lia].
        eexists. reflexivity.
Qed.

Lemma determine_state_names person_bbox p h w s st w' s' :
  _determine_state env cfg person_bbox p h w s = Ok st w' s' ->
  w' = w /\ s' = s /\ In st state_names.
Proof.
  unfold _determine_state, state_names. intros H. do 6 run_step H.
  repeat match type of H with
         | context [if ?c then _ else _] => destruct c
         end; injection H as <- <- <-; simpl; auto 10.
Qed.

(** X18: whatever a call of [detect] does, it either leaves the state name
    and both of its time stamps alone and reads no clock, or it moves to a
    different one of the four state names and stamps the change with one
    clock reading. *)
Theorem state_changes_only_to_a_named_state frame metadata w s :
  match detect env cfg frame metadata w s with
  | Ok _ w' s' | Raised _ w' s' =>
      (current_state s' = current_state s
       /\ state_start_time s' = state_start_time s
       /\ last_transition_time s' = last_transition_time s
       /\ w' = w)
      \/ (current_state s' <> current_state s
          /\ In (current_state s') state_names
          /\ state_start_time s' = clock env (time_reads w)
          /\ last_transition_time s' = clock env (time_reads w)
          /\ w' = tick w)
  end.
Proof.
  unfold detect, bind, get, modify, ret.
  destruct (enabled s); cbn [negb]; [| left; repeat split].
  change (set_frame_count (frame_count s + 1) s) with (counted s).
  destruct (bed_region s) as [region |] eqn:Hr.
  2:{ unfold _calibrate_bed_region, bind, get, modify, ret.
      destruct (detections metadata); [left; repeat split |].
      match goal with
      | |- context [if ?c then _ else _] => destruct c
      end; left; repeat split. }
  destruct (detections metadata) as [| detection rest]; [left; repeat split |].
  destruct (pose detection) as [p |]; [| left; repeat split].
  destruct (_determine_state env cfg (bbox detection) p (height metadata) w (counted s))
    as [new_state w1 s1 | e w1 s1] eqn:Hs.
  2:{ destruct (BedExitFacts.determine_state_leaves_state env cfg (bbox detection) p
                  (height metadata) w (counted s)) as [(st & Hst) | (e' & Hst)];
        rewrite Hst in Hs; [discriminate |].
      injection Hs as _ <- <-. left; repeat split. }
  destruct (determine_state_names _ _ _ _ _ _ _ _ Hs) as (-> & -> & Hin).
  destruct (String.eqb new_state (current_state s)) eqn:Heq; cbn [negb];
    [left; repeat split |].
  apply String.eqb_neq in Heq.
  unfold time_time. cbv beta. fold (tick w).
  destruct (in_states new_state (alert_on_states cfg)); right; repeat split; assumption.
Qed.

End Facts.
End BedExitMore.

(** ** The immobility agent: what an event holds *)

Module ImmobilityMore.
Import Immobility.

Section Facts.
Variable env : Env.
Variable cfg : Config.

Lemma compute_movement_ok pose1 pose2 w s q w' s' :
  _compute_movement env pose1 pose2 w s = Ok q w' s' -> w' = w /\ s' = s.
Proof.
  unfold _compute_movement. intros H. run_step H.
  match type of E with
  | foldM ?f ?xs _ w s = Ok _ ?w1 ?s1 =>
      pose proof (foldM_invariant f (fun _ _ w2 s2 => w2 = w /\ s2 = s) xs) as Hfold;
      assert (Hinv : w1 = w /\ s1 = s)
  end.
  { refine (Hfold _ _ _ _ _ _ _ (conj eq_refl eq_refl) E).
    intros done i acc0 w0 s0 acc1 w1 s1 (-> & ->) _ Hf.
    do 2 run_step Hf.
    match type of Hf with
    | context [if ?c then _ else _] => destruct c
    end; injection Hf as _ <- <-; split; reflexivity. }
  clear Hfold. destruct Hinv as (-> & ->).
  match type of H with
  | context [if ?c then _ else _] => destruct c
  end; injection H as _ <- <-; split; reflexivity.
Qed.

Lemma determine_posture_ok p w s st w' s' :
  _determine_posture env p w s = Ok st w' s' -> w' = w /\ s' = s.
Proof.
  unfold _determine_posture. intros H. do 4 run_step H.
  repeat match type of H with
         | context [if ?c then _ else _] => destruct c
         end; injection H as _ <- <-; split; reflexivity.
Qed.

(** X19: an immobility event is returned only when the check interval has
    elapsed since the last check, at the last clock reading of the call,
    which becomes the time of the last check.  Its duration is the time
    since the last movement it reports; its risk is HIGH when the duration
    exceeds the alert duration and MEDIUM when it exceeds only the warning
    duration, and its confidence is at most 1.  With the default alert
    duration of 7200 seconds the event is alert-worthy by
    [is_alert_worthy] exactly when its risk is HIGH. *)
Theorem immobility_event_reports_risk frame metadata w s ev w' s' :
  detect env cfg frame metadata w s = Ok (Some ev) w' s' ->
  exists d k,
    payload ev = PImmobility d
    /\ (time_reads w <= k)%nat /\ time_reads w' = S k
    /\ check_interval cfg <= clock env k - last_check_time s
    /\ last_check_time s' = clock env k
    /\ immobility_duration d = clock env k - event_last_movement_time d
    /\ ((risk_level d = "HIGH" /\ alert_duration cfg < immobility_duration d)
        \/ (risk_level d = "MEDIUM"
            /\ immobility_duration d <= alert_duration cfg
            /\ warning_duration cfg < immobility_duration d))
    /\ confidence ev <= 1
    /\ (alert_duration cfg == 7200 ->
        (is_alert_worthy d = true <-> risk_level d = "HIGH")).
Proof.
  unfold detect. intros H. run_step H.
  destruct (enabled s); cbn [negb] in H; [| discriminate].
  run_step H.
  destruct (detections metadata) as [| detection rest]; [discriminate |].
  destruct (pose detection) as [p |]; [| discriminate].
  run_step H. run_step H.
  match type of E with
  | _ = Ok _ ?w2 ?s2 =>
      assert (Hinner : last_check_time s2 = last_check_time s
                       /\ (time_reads w <= time_reads w2)%nat)
  end.
  { destruct (last_pose s) as [previous |];
      [| injection E as _ <- <-; split; [reflexivity | lia]].
    run_step E. apply compute_movement_ok in E0. destruct E0 as (-> & ->).
    run_step E.
    match type of E0 with
    | _ = Ok _ ?w3 ?s3 =>
        assert (Hmove : last_check_time s3 = last_check_time s
                        /\ (time_reads w <= time_reads w3)%nat)
    end.
    { match type of E0 with
      | context [if ?c then _ else _] => destruct c
      end.
      - run_step E0. unfold modify in E0. injection E0 as _ <- <-.
        split; [reflexivity | simpl; lia].
      - injection E0 as _ <- <-. split; [reflexivity | lia]. }
    destruct Hmove as (Hc & Ht).
    run_step E. apply determine_posture_ok in E1. destruct E1 as (-> & ->).
    run_step E.
    match type of E with
    | context [if ?c then _ else _] => destruct c
    end; [unfold modify in E | unfold ret in E]; injection E as _ <- <-;
      split; solve [exact Hc | exact Ht]. }
  destruct Hinner as (Hc & Ht).
  do 3 run_step H.
  match type of H with
  | context [if ?c then _ else _] => destruct c eqn:Echeck
  end; [discriminate |].
  apply Qltb_ge in Echeck. simpl in Echeck. rewrite Hc in Echeck.
  run_step H. cbn [last_movement_time set_last_check_time set_last_pose
                   current_posture posture_change_count] in H.
  match type of H with
  | context [clock env ?k - last_movement_time ?s3 >? alert_duration cfg] =>
      set (dur := clock env k - last_movement_time s3) in *;
      destruct (dur >? alert_duration cfg) eqn:Ehigh;
      [| destruct (dur >? warning_duration cfg) eqn:Emed]
  end; cbn [String.eqb Ascii.eqb Bool.eqb orb andb] in H; try discriminate;
    run_step H; injection H as <- <- <-; do 2 eexists;
    (split; [reflexivity |]); cbn [immobility_duration event_last_movement_time
                                    risk_level confidence last_check_time];
    (split; [exact Ht |]); (split; [reflexivity |]); (split; [exact Echeck |]);
    (split; [reflexivity |]); (split; [reflexivity |]).
  - apply Qltb_lt in Ehigh.
    split; [left; split; [reflexivity | exact Ehigh] |].
    split; [apply min1_le |].
    intros H72. unfold is_alert_worthy. cbn [immobility_duration].
    split; [reflexivity |]. intros _. apply Qltb_lt. fold dur. lra.
  - apply Qltb_ge in Ehigh. apply Qltb_lt in Emed.
    split; [right; split; [reflexivity | split; assumption] |].
    split; [apply min1_le |].
    intros H72. unfold is_alert_worthy. cbn [immobility_duration].
    split; [| discriminate]. intros Hw. apply Qltb_lt in Hw. fold dur in Hw. lra.
Qed.

End Facts.
End ImmobilityMore.

(** ** The orchestrator: the event buffer, the output and the rules *)

Module OrchestratorMore.
Import Orchestrator OrchestratorSpec.

Section Facts.
Variable env : Env.
Variable cfg : Config.

Lemma rule_step_effects evs out rule w s out' w' s' :
  rule_step env cfg evs out rule w s = Ok out' w' s' ->
  event_buffer s' = event_buffer s /\ (length out' <= S (length out))%nat.
Proof.
  unfold rule_step. intros H. run_step H.
  apply OrchestratorFacts.apply_rule_spec in E. destruct E as (-> & _ & _).
  match type of H with
  | match ?a with _ => _ end _ _ = _ => destruct a as [alert |]
  end; [| injection H as <- <- <-; split; [reflexivity | lia]].
  rewrite OrchestratorFacts.offer_eq in H.
  match type of H with
  | context [if ?c then _ else _] => destruct c
  end; injection H as <- <- <-; split;
    try reflexivity; rewrite ?length_app; simpl; lia.
Qed.

Lemma individual_step_effects out e w s out' w' s' :
  individual_step env cfg out e w s = Ok out' w' s' ->
  event_buffer s' = event_buffer s
  /\ (length out' <= length out + (if uncoveredb e then 1 else 0))%nat.
Proof.
  unfold individual_step, uncoveredb. intros H.
  destruct (negb (_is_covered_by_rules e));
    [| injection H as <- <- <-; split; [reflexivity | lia]].
  run_step H.
  rewrite OrchestratorFacts.offer_eq in H.
  match type of H with
  | context [if ?c then _ else _] => destruct c
  end; injection H as <- <- <-; split;
    try reflexivity; rewrite ?length_app; simpl; lia.
Qed.

Lemma process_events_effects evs w s out w' s' :
  process_events env cfg evs w s = Ok out w' s' ->
  event_buffer s' = event_buffer s ++ evs
  /\ (length out <= length (rules cfg) + length (filter uncoveredb evs))%nat.
Proof.
  intros H. destruct evs as [| e0 evs0].
  - simpl in H. injection H as <- <- <-. rewrite app_nil_r. split; [reflexivity | simpl; lia].
  - unfold process_events, bind, modify in H. cbv beta match in H.
    remember (e0 :: evs0) as evs eqn:Hevs. clear Hevs.
    set (s0 := mkState (recent_alerts s) (event_buffer s ++ evs)) in H.
    destruct (foldM (rule_step env cfg evs) (rules cfg) [] w s0)
      as [out1 w1 s1 | e1 w1 s1] eqn:E1; [| discriminate].
    destruct (foldM (individual_step env cfg) evs out1 w1 s1)
      as [out2 w2 s2 | e2 w2 s2] eqn:E2; [| discriminate].
    unfold _cleanup_recent_alerts, bind, time_time, modify, ret in H. cbv beta match in H.
    injection H as <- <- <-. cbn [event_buffer].
    assert (H1 : event_buffer s1 = event_buffer s ++ evs
                 /\ (length out1 <= length (rules cfg))%nat).
    { apply (foldM_invariant (rule_step env cfg evs)
               (fun done out _ s' => event_buffer s' = event_buffer s ++ evs
                                     /\ (length out <= length done)%nat)
               (rules cfg)) with (acc := []) (w := w) (s := s0) (w' := w1);
        [| | exact E1].
      - intros done x acc wa sa acc' wb sb (Hb & Hl) _ Hstep.
        apply rule_step_effects in Hstep. destruct Hstep as (Hb' & Hl').
        split; [congruence | rewrite length_app; simpl; lia].
      - split; [reflexivity | simpl; lia]. }
    destruct H1 as (Hb1 & Hl1).
    apply (foldM_invariant (individual_step env cfg)
             (fun done out _ s' =>
                event_buffer s' = event_buffer s ++ evs
                /\ (length out
                    <= length (rules cfg) + length (filter uncoveredb done))%nat)
             evs) with (acc := out1) (w := w1) (s := s1) (w' := w2);
      [| | exact E2].
    + intros done x acc wa sa acc' wb sb (Hb & Hl) _ Hstep.
      apply individual_step_effects in Hstep. destruct Hstep as (Hb' & Hl').
      split; [congruence |]. rewrite filter_app, length_app. simpl.
      destruct (uncoveredb x); simpl; lia.
    + split; [exact Hb1 | simpl; lia].
Qed.

(** X20: every event handed to [process_events] is appended to the event
    buffer, in order, and nothing is ever removed from it: after a run of
    calls the buffer holds what it held before followed by all the
    batches. *)
Theorem event_buffer_only_grows batches :
  forall w s calls w' s',
    run (process_events env cfg) batches w s = (calls, w', s') ->
    length calls = length batches ->
    event_buffer s' = event_buffer s ++ concat batches.
Proof.
  induction batches as [| evs rest IH]; intros w s calls w' s' Hrun Hlen; simpl in Hrun.
  - injection Hrun as <- <- <-. simpl. rewrite app_nil_r. reflexivity.
  - destruct (process_events env cfg evs w s) as [out w1 s1 | e w1 s1] eqn:E;
      [| injection Hrun as <- <- <-; discriminate].
    destruct (run (process_events env cfg) rest w1 s1) as [[calls1 w2] s2] eqn:Er.
    injection Hrun as <- <- <-. simpl in Hlen.
    apply process_events_effects in E. destruct E as (Hb & _).
    rewrite (IH _ _ _ _ _ Er) by lia. rewrite Hb. simpl.
    rewrite <- app_assoc. reflexivity.
Qed.

(** X21: a call of [process_events] returns at most one alert per rule of
    the configuration and one per event of type [emotion_detection] or
    [vital_signs] of the batch. *)
Theorem alerts_bounded_by_rules_and_events evs w s out w' s' :
  process_events env cfg evs w s = Ok out w' s' ->
  (length out <= length (rules cfg) + length (filter uncoveredb evs))%nat.
Proof.
  intros H. apply process_events_effects in H. apply H.
Qed.

Lemma of_type_spec ty evs e :
  In e (of_type ty evs) <-> In e evs /\ event_type e = ty.
Proof.
  unfold of_type. rewrite filter_In, String.eqb_eq. reflexivity.
Qed.

Lemma first_low_heart_rate_total vital_events w s :
  Forall (fun e => exists d, payload e = PVital d) vital_events ->
  exists r, first_low_heart_rate vital_events w s = Ok r w s.
Proof.
  induction 1 as [| ve rest (d & Hd) _ IH]; simpl.
  - eexists; reflexivity.
  - rewrite Hd. destruct (heart_rate d) as [hr |]; [| exact IH].
    destruct (negb (Qeq_bool hr 0) && (hr <? 50)); [eexists; reflexivity | exact IH].
Qed.

Lemma first_low_heart_rate_found vital_events w s ve w' s' :
  first_low_heart_rate vital_events w s = Ok (Some ve) w' s' ->
  In ve vital_events /\ low_heart_rate ve.
Proof.
  induction vital_events as [| v rest IH]; simpl; intros H; [discriminate |].
  destruct (payload v) as [| | d | | | |] eqn:Hp; try discriminate.
  destruct (heart_rate d) as [hr |] eqn:Hh;
    [| destruct (IH H) as (Hin & Hl); split; [right; exact Hin | exact Hl]].
  destruct (negb (Qeq_bool hr 0) && (hr <? 50)) eqn:Hc;
    [| destruct (IH H) as (Hin & Hl); split; [right; exact Hin | exact Hl]].
  injection H as <- <- <-. split; [left; reflexivity |].
  apply andb_true_iff in Hc. destruct Hc as (Hz & Hlt).
  exists d, hr. split; [exact Hp |]. split; [exact Hh |].
  split; [apply Qltb_lt; exact Hlt |].
  intros Hq. apply Qeq_bool_iff in Hq. rewrite Hq in Hz. discriminate.
Qed.

#[local] Arguments first_low_heart_rate : simpl never.

Lemma match_conditions_total conds evs :
  vitals_well_typed evs ->
  forall matched w s, exists r w', match_conditions env conds evs matched w s = Ok r w' s.
Proof.
  intros Hty. induction conds as [| condition rest IH]; intros matched w s; simpl.
  - do 2 eexists; reflexivity.
  - assert (Hreq : forall ty,
               exists r w',
                 match of_type ty evs with
                 | [] => ret None
                 | x :: l => match_conditions env rest evs (matched ++ x :: l)
                 end w s = Ok r w' s).
    { intros ty. destruct (of_type ty evs); [do 2 eexists; reflexivity | apply IH]. }
    destruct (String.eqb condition "fall_detected"); [apply Hreq |].
    destruct (String.eqb condition "low_heart_rate").
    { destruct (of_type "vital_signs" evs) as [| x l] eqn:E;
        [do 2 eexists; reflexivity |].
      destruct (first_low_heart_rate_total (x :: l) w s) as (r & Hr).
      { rewrite <- E. apply Forall_forall. intros e He.
        apply of_type_spec in He. destruct He as (Hin & Het). exact (Hty e Hin Het). }
      unfold bind. rewrite Hr. destruct r; [apply IH | do 2 eexists; reflexivity]. }
    destruct (String.eqb condition "bed_exit"); [apply Hreq |].
    destruct (String.eqb condition "nighttime").
    { unfold is_nighttime, now_hour, bind, ret.
      match goal with
      | |- context [if ?c then _ else _] => destruct c
      end; [apply IH | do 2 eexists; reflexivity]. }
    destruct (String.eqb condition "immobility_alert"); [apply Hreq |].
    destruct (String.eqb condition "seizure"); [apply Hreq |].
    apply IH.
Qed.

Lemma foldM_total {St A B} (f : B -> A -> M St B) (xs : list A) :
  (forall acc x w s, In x xs -> exists acc' w' s', f acc x w s = Ok acc' w' s') ->
  forall acc w s, exists acc' w' s', foldM f xs acc w s = Ok acc' w' s'.
Proof.
  induction xs as [| x rest IH]; intros Hf acc w s; simpl.
  - do 3 eexists; reflexivity.
  - destruct (Hf acc x w s (or_introl eq_refl)) as (acc1 & w1 & s1 & H1).
    unfold bind. rewrite H1. apply IH.
    intros acc0 y w0 s0 Hy. apply Hf. right. exact Hy.
Qed.

(** X22: [process_events] raises nothing on a batch whose events of type
    [vital_signs] are all [VitalSignsEvent] objects: it returns, whatever
    the rules of the configuration are. *)
Theorem well_typed_batch_never_raises evs w s :
  vitals_well_typed evs ->
  exists out w' s', process_events env cfg evs w s = Ok out w' s'.
Proof.
  intros Hty. destruct evs as [| e0 evs0]; [do 3 eexists; reflexivity |].
  unfold process_events, bind, modify. cbv beta match.
  remember (e0 :: evs0) as evs eqn:Hevs. clear Hevs.
  match goal with
  | |- context [foldM (rule_step env cfg evs) (rules cfg) [] w ?s0] =>
      destruct (foldM_total (rule_step env cfg evs) (rules cfg)) with
        (acc := @nil ConsolidatedAlert) (w := w) (s := s0) as (out1 & w1 & s1 & H1)
  end.
  { intros acc rule wa sa _. unfold rule_step, _apply_rule, bind.
    destruct (match_conditions_total (conditions (snd rule)) evs Hty [] wa sa)
      as (r & wb & Hr).
    rewrite Hr.
    destruct r as [[| e es] |]; unfold ret, new_uuid, time_time; cbv beta;
      try (do 3 eexists; reflexivity).
    rewrite OrchestratorFacts.offer_eq.
    match goal with
    | |- context [if ?c then _ else _] => destruct c
    end; do 3 eexists; reflexivity. }
  rewrite H1.
  destruct (foldM_total (individual_step env cfg) evs) with
    (acc := out1) (w := w1) (s := s1) as (out2 & w2 & s2 & H2).
  { intros acc e wa sa _. unfold individual_step.
    destruct (negb (_is_covered_by_rules e)); [| do 3 eexists; reflexivity].
    unfold _create_individual_alert, bind, new_uuid, ret. cbv beta.
    rewrite OrchestratorFacts.offer_eq.
    match goal with
    | |- context [if ?c then _ else _] => destruct c
    end; do 3 eexists; reflexivity. }
  rewrite H2.
  unfold _cleanup_recent_alerts, bind, time_time, modify, ret. cbv beta.
  do 3 eexists; reflexivity.
Qed.

Lemma match_conditions_daytime conds evs :
  (forall n, (6 <= local_hour env n < 22)%Z) ->
  In "nighttime" conds ->
  forall matched w s r w' s',
    match_conditions env conds evs matched w s = Ok r w' s' -> r = None.
Proof.
  intros Hday. induction conds as [| condition rest IH]; intros Hin; [destruct Hin |].
  intros matched w s r w' s' H. simpl in H.
  destruct (String.eqb_spec condition "nighttime") as [-> | Hne].
  - cbn [String.eqb Ascii.eqb Bool.eqb] in H.
    unfold is_nighttime, now_hour, bind, ret in H. cbv beta in H.
    pose proof (Hday (hour_reads w)) as Hh.
    destruct (Z.geb_spec (local_hour env (hour_reads w)) 22); [lia |].
    destruct (Z.ltb_spec (local_hour env (hour_reads w)) 6); [lia |].
    cbn [orb] in H. injection H as <- _ _. reflexivity.
  - destruct Hin as [Heq | Hin]; [congruence |].
    assert (Hreq : forall ty,
               match of_type ty evs with
               | [] => ret None
               | x :: l => match_conditions env rest evs (matched ++ x :: l)
               end w s = Ok r w' s' -> r = None).
    { intros ty Hty. destruct (of_type ty evs);
        [injection Hty as <- _ _; reflexivity | exact (IH Hin _ _ _ _ _ _ Hty)]. }
    destruct (String.eqb condition "fall_detected"); [exact (Hreq _ H) |].
    destruct (String.eqb condition "low_heart_rate").
    { destruct (of_type "vital_signs" evs) as [| x l];
        [injection H as <- _ _; reflexivity |].
      run_step H.
      match type of H with
      | match ?o with _ => _ end _ _ = _ => destruct o
      end; [exact (IH Hin _ _ _ _ _ _ H) | injection H as <- _ _; reflexivity]. }
    destruct (String.eqb condition "bed_exit"); [exact (Hreq _ H) |].
    destruct (String.eqb condition "immobility_alert"); [exact (Hreq _ H) |].
    destruct (String.eqb condition "seizure"); [exact (Hreq _ H) |].
    exact (IH Hin _ _ _ _ _ _ H).
Qed.

(** X23: while the local hour is from 6 to 21, a rule that has the
    condition [nighttime] yields no alert, whatever the batch holds. *)
Theorem daytime_blocks_nighttime_rules rule_name rule evs w s ra w' s' :
  (forall n, (6 <= local_hour env n < 22)%Z) ->
  In "nighttime" (conditions rule) ->
  _apply_rule env rule_name rule evs w s = Ok ra w' s' ->
  ra = None.
Proof.
  intros Hday Hin H. unfold _apply_rule in H. run_step H.
  apply (match_conditions_daytime _ _ Hday Hin) in E. subst.
  injection H as <- _ _. reflexivity.
Qed.

Lemma match_conditions_sound conds evs :
  forall matched w s m w' s',
    match_conditions env conds evs matched w s = Ok (Some m) w' s' ->
    incl matched m
    /\ forall c ty,
         In c conds -> required_type c = Some ty ->
         (exists e, In e m /\ In e evs /\ event_type e = ty
                    /\ (c = "low_heart_rate" -> low_heart_rate e))
         /\ (c <> "low_heart_rate" ->
             forall e, In e evs -> event_type e = ty -> In e m).
Proof.
  induction conds as [| condition rest IH]; intros matched w s m w' s' H; simpl in H.
  - injection H as <- _ _. split; [apply incl_refl | intros c ty []].
  - assert (Hrest : forall matched' w1 s1,
               match_conditions env rest evs matched' w1 s1 = Ok (Some m) w' s' ->
               incl matched matched' ->
               required_type condition = None ->
               incl matched m
               /\ forall c ty,
                    In c (condition :: rest) -> required_type c = Some ty ->
                    (exists e, In e m /\ In e evs /\ event_type e = ty
                               /\ (c = "low_heart_rate" -> low_heart_rate e))
                    /\ (c <> "low_heart_rate" ->
                        forall e, In e evs -> event_type e = ty -> In e m)).
    { intros matched' w1 s1 Hm Hincl Hnone.
      destruct (IH _ _ _ _ _ _ Hm) as (Hi & Hc).
      split; [intros e He; apply Hi, Hincl, He |].
      intros c ty [<- | Hin] Hty; [congruence | exact (Hc c ty Hin Hty)]. }
    assert (Hreq : forall ty0,
               required_type condition = Some ty0 ->
               condition <> "low_heart_rate" ->
               match of_type ty0 evs with
               | [] => ret None
               | x :: l => match_conditions env rest evs (matched ++ x :: l)
               end w s = Ok (Some m) w' s' ->
               incl matched m
               /\ forall c ty,
                    In c (condition :: rest) -> required_type c = Some ty ->
                    (exists e, In e m /\ In e evs /\ event_type e = ty
                               /\ (c = "low_heart_rate" -> low_heart_rate e))
                    /\ (c <> "low_heart_rate" ->
                        forall e, In e evs -> event_type e = ty -> In e m)).
    { intros ty0 Hty0 Hnl Hm.
      destruct (of_type ty0 evs) as [| x l] eqn:E; [discriminate |].
      destruct (IH _ _ _ _ _ _ Hm) as (Hi & Hc).
      split; [intros e He; apply Hi, in_or_app; left; exact He |].
      intros c ty [<- | Hin] Hty; [| exact (Hc c ty Hin Hty)].
      assert (ty = ty0) by congruence. subst ty.
      assert (Hx : In x (of_type ty0 evs)) by (rewrite E; left; reflexivity).
      apply of_type_spec in Hx. destruct Hx as (Hxin & Hxty).
      split.
      - exists x. split; [apply Hi, in_or_app; right; left; reflexivity |].
        split; [exact Hxin |]. split; [exact Hxty | intros Hc0; contradiction].
      - intros _ e He Het. apply Hi, in_or_app. right. rewrite <- E.
        apply of_type_spec. split; assumption. }
    destruct (String.eqb_spec condition "fall_detected") as [-> | N1];
      [apply (Hreq "fall_detection"); [reflexivity | discriminate | exact H] |].
    destruct (String.eqb_spec condition "low_heart_rate") as [-> | N2].
    { destruct (of_type "vital_signs" evs) as [| x l] eqn:E; [discriminate |].
      run_step H.
      match type of H with
      | match ?o with _ => _ end _ _ = _ => destruct o as [ve |]
      end; [| discriminate].
      apply first_low_heart_rate_found in E0. destruct E0 as (Hvin & Hlow).
      rewrite <- E in Hvin. apply of_type_spec in Hvin. destruct Hvin as (Hvin & Hvty).
      destruct (IH _ _ _ _ _ _ H) as (Hi & Hc).
      split; [intros e He; apply Hi, in_or_app; left; exact He |].
      intros c ty [<- | Hin] Hty; [| exact (Hc c ty Hin Hty)].
      injection Hty as <-. split; [| intros Hc0; contradiction].
      exists ve. split; [apply Hi, in_or_app; right; left; reflexivity |].
      split; [exact Hvin |]. split; [exact Hvty | intros _; exact Hlow]. }
    destruct (String.eqb_spec condition "bed_exit") as [-> | N3];
      [apply (Hreq "bed_exit"); [reflexivity | discriminate | exact H] |].
    assert (Hty5 : forall ty0,
               (if String.eqb condition "immobility_alert" then Some "immobility"
                else if String.eqb condition "seizure" then Some "seizure_detection"
                     else None) = ty0 ->
               required_type condition = ty0).
    { intros ty0 <-. unfold required_type.
      destruct (String.eqb_spec condition "fall_detected"); [contradiction |].
      destruct (String.eqb_spec condition "low_heart_rate"); [contradiction |].
      destruct (String.eqb_spec condition "bed_exit"); [contradiction |].
      reflexivity. }
    destruct (String.eqb_spec condition "nighttime") as [-> | N4].
    { unfold is_nighttime, now_hour, bind, ret in H. cbv beta in H.
      match type of H with
      | context [if ?c then _ else _] => destruct c
      end; [| discriminate].
      apply (Hrest _ _ _ H); [apply incl_refl | reflexivity]. }
    destruct (String.eqb_spec condition "immobility_alert") as [-> | N5];
      [apply (Hreq "immobility"); [reflexivity | discriminate | exact H] |].
    destruct (String.eqb_spec condition "seizure") as [-> | N6];
      [apply (Hreq "seizure_detection"); [reflexivity | discriminate | exact H] |].
    apply (Hrest _ _ _ H); [apply incl_refl |].
    apply Hty5.
    destruct (String.eqb_spec condition "immobility_alert"); [contradiction |].
    destruct (String.eqb_spec condition "seizure"); [contradiction |].
    reflexivity.
Qed.

(** X24: the alert of a rule holds, for every condition of the rule that
    asks for an event type, an event of that type from the batch; for the
    condition [low_heart_rate] this is an event with a non-zero heart rate
    below 50, and for the other conditions the alert holds every event of
    the type in the batch. *)
Theorem rule_alert_meets_its_conditions rule_name rule evs w s a w' s' :
  _apply_rule env rule_name rule evs w s = Ok (Some a) w' s' ->
  forall c ty,
    In c (conditions rule) -> required_type c = Some ty ->
    (exists e, In e (events a) /\ In e evs /\ event_type e = ty
               /\ (c = "low_heart_rate" -> low_heart_rate e))
    /\ (c <> "low_heart_rate" ->
        forall e, In e evs -> event_type e = ty -> In e (events a)).
Proof.
  intros H. unfold _apply_rule in H. run_step H.
  match type of E with
  | _ = Ok ?r _ _ => destruct r as [[| e es] |]
  end; try discriminate.
  apply match_conditions_sound in E. destruct E as (_ & Hc).
  injection H as <- _ _. exact Hc.
Qed.

End Facts.
End OrchestratorMore.

(** ** Indexing the buffer *)

Module TemporalBufferIndex.
Import TemporalBuffer.

(** X25: [buffer[index]] returns the item at position [index] from the
    oldest for an index from 0 to the size minus 1, the item at position
    [-index] from the latest for an index from -1 down to minus the size,
    and raises IndexError for every other index; [buffer[-1]] is the item
    [get_latest] returns and [buffer[0]] the one [get_oldest] returns. *)
Theorem getitem_counts_from_either_end {St A} (b : t A) (index : Z) (w : World) (s : St) :
  let n := Z.of_nat (len b) in
  ((0 <= index < n)%Z ->
   exists x, nth_error (buffer b) (Z.to_nat index) = Some x
             /\ getitem index b w s = Ok x w s)
  /\ ((- n <= index < 0)%Z ->
      exists x, nth_error (buffer b) (Z.to_nat (n + index)) = Some x
                /\ getitem index b w s = Ok x w s)
  /\ ((index < - n \/ n <= index)%Z -> getitem index b w s = Raised IndexError w s)
  /\ (forall x, get_latest b = Some x -> getitem (-1) b w s = Ok x w s)
  /\ (forall x, get_oldest b = Some x -> getitem 0 b w s = Ok x w s).
Proof.
  intros n.
  assert (Hin : forall i, (0 <= i < n)%Z ->
                  exists x, nth_error (buffer b) (Z.to_nat i) = Some x).
  { intros i Hi. destruct (nth_error (buffer b) (Z.to_nat i)) as [x |] eqn:E;
      [exists x; reflexivity |].
    apply nth_error_None in E. unfold n, len in Hi. lia. }
  assert (Hget : forall idx i,
             (if (idx <? 0)%Z then (idx + n)%Z else idx) = i -> (0 <= i < n)%Z ->
             exists x, nth_error (buffer b) (Z.to_nat i) = Some x
                       /\ getitem idx b w s = Ok x w s).
  { intros idx i Hi Hr. destruct (Hin i Hr) as (x & Hx). exists x.
    split; [exact Hx |]. unfold getitem. fold n. rewrite Hi.
    destruct (Z.ltb_spec i 0); [lia |]. destruct (Z.geb_spec i n); [lia |].
    simpl. rewrite Hx. reflexivity. }
  split; [| split; [| split; [| split]]].
  - intros Hr. apply Hget; [| exact Hr].
    destruct (Z.ltb_spec index 0); [lia | reflexivity].
  - intros Hr. replace (n + index)%Z with (index + n)%Z by lia.
    apply Hget; [| lia]. destruct (Z.ltb_spec index 0); [reflexivity | lia].
  - intros Hr. unfold getitem. fold n.
    destruct (Z.ltb_spec index 0).
    + destruct (Z.ltb_spec (index + n) 0); [reflexivity |].
      destruct (Z.geb_spec (index + n) n); [reflexivity | lia].
    + destruct (Z.ltb_spec index 0); [lia |].
      destruct (Z.geb_spec index n); [reflexivity | lia].
  - intros x Hx. unfold get_latest in Hx.
    destruct (Nat.ltb_spec 0 (len b)) as [Hpos | Hpos]; [| discriminate].
    destruct (Hget (-1)%Z (-1 + n)%Z) as (y & Hy & Hg);
      [reflexivity | unfold n; lia |].
    replace (Z.to_nat (-1 + n)) with (len b - 1)%nat in Hy by (unfold n; lia).
    rewrite Hg. congruence.
  - intros x Hx. unfold get_oldest in Hx.
    destruct (Nat.ltb_spec 0 (len b)) as [Hpos | Hpos]; [| discriminate].
    destruct (Hget 0%Z 0%Z) as (y & Hy & Hg); [reflexivity | unfold n; lia |].
    change (Z.to_nat 0) with 0%nat in Hy. rewrite Hg. congruence.
Qed.

End TemporalBufferIndex.

(** ** The fallback tracker *)

Module TrackerFacts.
Import Tracker TrackerSpec.

Section Dicts.
Context {V : Type}.
Implicit Types (d : dict V) (k : Z) (v : V).

Lemma keys_dict_set_in k v d : In k (keys d) -> keys (dict_set k v d) = keys d.
Proof.
  induction d as [| [k' v'] rest IH]; simpl; intros H; [destruct H |].
  destruct (Z.eqb_spec k' k) as [-> | Hne]; [reflexivity |].
  simpl. f_equal. apply IH. destruct H as [H | H]; [contradiction | exact H].
Qed.

Lemma keys_dict_set_notin k v d : ~ In k (keys d) -> keys (dict_set k v d) = keys d ++ [k].
Proof.
  induction d as [| [k' v'] rest IH]; simpl; intros H; [reflexivity |].
  destruct (Z.eqb_spec k' k) as [-> | Hne]; [exfalso; apply H; left; reflexivity |].
  simpl. f_equal. apply IH. intros Hin. apply H. right. exact Hin.
Qed.

Lemma in_dict_set k v d item : In item (dict_set k v d) -> item = (k, v) \/ In item d.
Proof.
  induction d as [| [k' v'] rest IH]; simpl.
  - intros [<- | []]. left; reflexivity.
  - destruct (Z.eqb_spec k' k) as [-> | Hne]; simpl.
    + intros [<- | H]; [left; reflexivity | right; right; exact H].
    + intros [<- | H]; [right; left; reflexivity |].
      destruct (IH H) as [-> | Hin]; [left; reflexivity | right; right; exact Hin].
Qed.

Lemma length_dict_set k v d : (length (dict_set k v d) <= S (length d))%nat.
Proof.
  induction d as [| [k' v'] rest IH]; simpl; [lia |].
  destruct (k' =? k)%Z; simpl; lia.
Qed.

Lemma NoDup_keys_dict_set k v d : NoDup (keys d) -> NoDup (keys (dict_set k v d)).
Proof.
  intros H. destruct (in_dec Z.eq_dec k (keys d)) as [Hin | Hnin].
  - rewrite keys_dict_set_in by exact Hin. exact H.
  - rewrite keys_dict_set_notin by exact Hnin.
    apply NoDup_app; [exact H | constructor; [intros [] | constructor] |].
    intros x Hx [<- | []]. contradiction.
Qed.

Lemma keys_dict_del k d : keys (dict_del k d) = filter (fun k' => negb (k' =? k)%Z) (keys d).
Proof.
  induction d as [| [k' v'] rest IH]; simpl; [reflexivity |].
  destruct (k' =? k)%Z; simpl; [exact IH | f_equal; exact IH].
Qed.

End Dicts.

Section Facts.
Variable cfg : Config.

Lemma best_track_is_a_track det trks track_id :
  snd (best_track cfg det trks) = Some track_id -> In track_id (keys trks).
Proof.
  unfold best_track.
  assert (G : forall best,
             snd (fold_left
                    (fun (best : Q * option Z) (item : Z * BoundingBox) =>
                       let iou := compute_iou det (snd item) in
                       if (iou >? fst best) && (iou >? iou_threshold cfg)
                       then (iou, Some (fst item)) else best) trks best)
             = Some track_id ->
             snd best = Some track_id \/ In track_id (keys trks)).
  { induction trks as [| item rest IH]; intros best H; simpl in H; [left; exact H |].
    destruct (IH _ H) as [Hb | Hin]; [| right; right; exact Hin].
    cbv zeta in Hb.
    destruct ((compute_iou det (snd item) >? fst best)
              && (compute_iou det (snd item) >? iou_threshold cfg));
      [right; left; simpl in Hb; congruence | left; exact Hb]. }
  intros H. destruct (G _ H) as [Hb | Hin]; [discriminate | exact Hin].
Qed.

(** The loop over the detections. *)
Lemma match_detections_inv trks dets :
  forall m0 u0 a0 m u a,
    fold_left (match_step cfg trks) dets (m0, u0, a0) = (m, u, a) ->
    (incl (keys m0) (keys trks) -> incl (keys m) (keys trks))
    /\ (NoDup (keys m0) -> NoDup (keys m))
    /\ (forall item, In item m -> In item m0 \/ In (snd item) dets)
    /\ (forall d, In d u -> In d u0 \/ In d dets)
    /\ (length m + length u <= length m0 + length u0 + length dets)%nat
    /\ (trks = [] -> m = m0 /\ u = u0 ++ dets).
Proof.
  induction dets as [| det rest IH]; intros m0 u0 a0 m u a H; simpl in H.
  - injection H as <- <- <-. rewrite app_nil_r.
    repeat split; auto. lia.
  - destruct (snd (best_track cfg det trks)) as [track_id |] eqn:Eb.
    + destruct (IH _ _ _ _ _ _ H) as (Hk & Hn & Hm & Hu & Hl & He).
      split; [| split; [| split; [| split; [| split]]]].
      * intros Hi. apply Hk. intros k Hin.
        destruct (in_dec Z.eq_dec track_id (keys m0)) as [Hin0 | Hnin0].
        -- rewrite keys_dict_set_in in Hin by exact Hin0. apply Hi. exact Hin.
        -- rewrite keys_dict_set_notin in Hin by exact Hnin0.
           apply in_app_or in Hin. destruct Hin as [Hin | [<- | []]]; [apply Hi; exact Hin |].
           apply (best_track_is_a_track det). exact Eb.
      * intros Hnd. apply Hn. apply NoDup_keys_dict_set. exact Hnd.
      * intros item Hin. destruct (Hm item Hin) as [Hin0 | Hin0]; [| right; right; exact Hin0].
        apply in_dict_set in Hin0. destruct Hin0 as [-> | Hin0];
          [right; left; reflexivity | left; exact Hin0].
      * intros d Hin. destruct (Hu d Hin) as [Hin0 | Hin0];
          [left; exact Hin0 | right; right; exact Hin0].
      * pose proof (length_dict_set track_id det m0). simpl. lia.
      * intros ->. discriminate Eb.
    + destruct (IH _ _ _ _ _ _ H) as (Hk & Hn & Hm & Hu & Hl & He).
      split; [exact Hk |]. split; [exact Hn |].
      split; [| split; [| split]].
      * intros item Hin. destruct (Hm item Hin) as [Hin0 | Hin0];
          [left; exact Hin0 | right; right; exact Hin0].
      * intros d Hin. destruct (Hu d Hin) as [Hin0 | Hin0]; [| right; right; exact Hin0].
        apply in_app_or in Hin0. destruct Hin0 as [Hin0 | [<- | []]];
          [left; exact Hin0 | right; left; reflexivity].
      * rewrite length_app in Hl. simpl in *. lia.
      * intros Ht. destruct (He Ht) as (-> & ->).
        split; [reflexivity | rewrite <- app_assoc; reflexivity].
Qed.

(** The loop that updates the matched tracks keeps the identifiers. *)
Lemma update_matched_keys m :
  forall trks, incl (keys m) (keys trks) -> keys (update_matched m trks) = keys trks.
Proof.
  induction m as [| [k b] rest IH]; intros trks Hi; [reflexivity |].
  unfold update_matched. simpl.
  assert (Hk : keys (dict_set k b trks) = keys trks)
    by (apply keys_dict_set_in; apply Hi; left; reflexivity).
  change (keys (update_matched rest (dict_set k b trks)) = keys trks).
  rewrite IH; [exact Hk |].
  rewrite Hk. intros x Hx. apply Hi. right. exact Hx.
Qed.

(** The loop that creates the new tracks. *)
Lemma create_tracks_spec u :
  forall nid trks ages objs nid' trks' ages' objs',
    fold_left create_step u (nid, trks, ages, objs) = (nid', trks', ages', objs') ->
    nid' = (nid + Z.of_nat (length u))%Z
    /\ objs' = objs ++ numbered nid u
    /\ ((0 <= nid)%Z ->
        Forall (fun k => (0 <= k < nid)%Z) (keys trks) -> NoDup (keys trks) ->
        Forall (fun k => (0 <= k < nid')%Z) (keys trks') /\ NoDup (keys trks')).
Proof.
  induction u as [| det rest IH]; intros nid trks ages objs nid' trks' ages' objs' H;
    simpl in H.
  - injection H as <- <- <- <-. rewrite app_nil_r. simpl.
    split; [lia |]. split; [reflexivity |]. intros H0 Hb Hn. split; assumption.
  - destruct (IH _ _ _ _ _ _ _ _ H) as (Hnid & Hobjs & Hinv).
    split; [simpl length; lia |].
    split; [rewrite Hobjs, <- app_assoc; reflexivity |].
    intros H0 Hb Hn.
    assert (Hnin : ~ In nid (keys trks)).
    { intros Hin. pose proof (proj1 (Forall_forall _ _) Hb nid Hin) as Hk.
      cbv beta in Hk. lia. }
    apply Hinv; [lia | | apply NoDup_keys_dict_set; exact Hn].
    rewrite keys_dict_set_notin by exact Hnin.
    apply Forall_app. split.
    + apply Forall_forall. intros k Hk.
      pose proof (proj1 (Forall_forall _ _) Hb k Hk) as Hk'. cbv beta in Hk'. lia.
    + constructor; [lia | constructor].
Qed.

(** The loop that removes the aged tracks. *)
Lemma remove_tracks_keys rem :
  forall trks ages,
    (forall P : Z -> Prop, Forall P (keys trks) ->
                           Forall P (keys (fst (fold_left remove_step rem (trks, ages)))))
    /\ (NoDup (keys trks) -> NoDup (keys (fst (fold_left remove_step rem (trks, ages))))).
Proof.
  induction rem as [| k rest IH]; intros trks ages; simpl; [split; auto |].
  destruct (IH (dict_del k trks) (dict_del k ages)) as (Hf & Hn).
  unfold remove_step at 2 4. simpl fst. simpl snd. split.
  - intros P HP. apply Hf. rewrite keys_dict_del.
    apply Forall_forall. intros x Hx. apply filter_In in Hx.
    exact (proj1 (Forall_forall _ _) HP x (proj1 Hx)).
  - intros Hnd. apply Hn. rewrite keys_dict_del. apply NoDup_filter. exact Hnd.
Qed.

Lemma numbered_spec u :
  forall start,
    length (numbered start u) = length u
    /\ map obj_bbox (numbered start u) = u
    /\ Forall (fun o => obj_confidence o = bb_confidence (obj_bbox o)) (numbered start u)
    /\ Forall (fun k => (start <= k < start + Z.of_nat (length u))%Z)
              (map obj_track_id (numbered start u))
    /\ NoDup (map obj_track_id (numbered start u)).
Proof.
  induction u as [| det rest IH]; intros start; simpl.
  - repeat split; constructor.
  - destruct (IH (start + 1)%Z) as (Hl & Hb & Hc & Hi & Hn).
    split; [rewrite Hl; reflexivity |]. split; [rewrite Hb; reflexivity |].
    split; [constructor; [reflexivity | exact Hc] |].
    split.
    + constructor; [lia |]. apply Forall_forall. intros k Hk.
      pose proof (proj1 (Forall_forall _ _) Hi k Hk) as Hk'. cbv beta in Hk'. lia.
    + constructor; [| exact Hn]. intros Hin.
      pose proof (proj1 (Forall_forall _ _) Hi start Hin) as Hk'. cbv beta in Hk'. lia.
Qed.

Lemma matched_ids (m : dict BoundingBox) :
  map obj_track_id (map (fun item => tracked (fst item) (snd item)) m) = keys m.
Proof.
  unfold keys. rewrite map_map. apply map_ext. reflexivity.
Qed.

(** What a call of [_update_simple] is made of. *)
Lemma update_simple_parts s dets objs s' :
  _update_simple cfg s dets = (objs, s') ->
  exists (m : dict BoundingBox) u ages (trks : dict BoundingBox),
    fold_left (match_step cfg (tracks s)) dets ([], [], track_ages s) = (m, u, ages)
    /\ objs = map (fun item => tracked (fst item) (snd item)) m
              ++ numbered (next_id s) u
    /\ next_id s' = (next_id s + Z.of_nat (length u))%Z
    /\ ((0 <= next_id s)%Z ->
        Forall (fun k => (0 <= k < next_id s)%Z) (keys (update_matched m (tracks s))) ->
        NoDup (keys (update_matched m (tracks s))) ->
        Forall (fun k => (0 <= k < next_id s')%Z) (keys trks) /\ NoDup (keys trks))
    /\ (forall P : Z -> Prop, Forall P (keys trks) -> Forall P (keys (tracks s')))
    /\ (NoDup (keys trks) -> NoDup (keys (tracks s'))).
Proof.
  unfold _update_simple. intros H.
  destruct (fold_left (match_step cfg (tracks s)) dets ([], [], track_ages s))
    as [[m u] a1] eqn:E1.
  destruct (fold_left create_step u
              (next_id s, update_matched m (tracks s), a1,
               map (fun item => tracked (fst item) (snd item)) m))
    as [[[nid t3] a3] objs3] eqn:E3.
  destruct (fold_left (age_step cfg m) (map fst t3) (a3, [])) as [a4 rem] eqn:E4.
  pose proof (remove_tracks_keys rem t3 a4) as Hrem.
  destruct (fold_left remove_step rem (t3, a4)) as [t5 a5] eqn:E5.
  injection H as <- <-. simpl in Hrem.
  destruct (create_tracks_spec _ _ _ _ _ _ _ _ _ E3) as (Hnid & Hobjs & Hinv).
  exists m, u, a1, t3. simpl.
  split; [reflexivity |]. split; [exact Hobjs |]. split; [exact Hnid |].
  split; [exact Hinv |]. exact Hrem.
Qed.

(** X26: a call of the fallback tracker keeps the identifiers of the
    tracks distinct, non-negative and below [next_id], which never
    decreases; the objects it returns carry distinct identifiers below the
    new [next_id]. *)
Theorem update_keeps_identifiers_distinct s dets objs s' :
  well_tracked s ->
  _update_simple cfg s dets = (objs, s') ->
  well_tracked s'
  /\ (next_id s <= next_id s')%Z
  /\ NoDup (map obj_track_id objs)
  /\ Forall (fun o => (0 <= obj_track_id o < next_id s')%Z) objs.
Proof.
  intros (H0 & Hb & Hn) H.
  destruct (update_simple_parts _ _ _ _ H)
    as (m & u & ages & trks & E1 & -> & Hnid & Hinv & HremF & HremN).
  destruct (match_detections_inv _ _ _ _ _ _ _ _ E1) as (Hk & Hnm & _).
  assert (Hkm : incl (keys m) (keys (tracks s))) by (apply Hk; intros x []).
  assert (Hndm : NoDup (keys m)) by (apply Hnm; constructor).
  rewrite (update_matched_keys m (tracks s) Hkm) in Hinv.
  destruct (Hinv H0 Hb Hn) as (Hb3 & Hn3).
  destruct (numbered_spec u (next_id s)) as (_ & _ & _ & Hids & Hnd).
  split; [| split; [lia | split]].
  - split; [lia |]. split; [apply HremF; exact Hb3 | apply HremN; exact Hn3].
  - rewrite map_app, matched_ids. apply NoDup_app; [exact Hndm | exact Hnd |].
    intros x Hx Hx'.
    pose proof (proj1 (Forall_forall _ _) Hb x (Hkm x Hx)) as B1.
    pose proof (proj1 (Forall_forall _ _) Hids x Hx') as B2.
    cbv beta in B1, B2. lia.
  - apply Forall_forall. intros o Ho. apply in_app_or in Ho.
    destruct Ho as [Ho | Ho].
    + assert (Hin : In (obj_track_id o) (keys m))
        by (rewrite <- matched_ids; apply in_map; exact Ho).
      pose proof (proj1 (Forall_forall _ _) Hb _ (Hkm _ Hin)) as B1.
      cbv beta in B1. lia.
    + assert (Hin : In (obj_track_id o) (map obj_track_id (numbered (next_id s) u)))
        by (apply in_map; exact Ho).
      pose proof (proj1 (Forall_forall _ _) Hids _ Hin) as B2.
      cbv beta in B2. lia.
Qed.

(** X27: the objects the fallback tracker returns are detections of the
    frame, at most as many as there are detections, each with the
    confidence of its box. *)
Theorem tracked_objects_are_detections s dets :
  let objs := fst (_update_simple cfg s dets) in
  (length objs <= length dets)%nat
  /\ incl (map obj_bbox objs) dets
  /\ Forall (fun o => obj_confidence o = bb_confidence (obj_bbox o)) objs.
Proof.
  destruct (_update_simple cfg s dets) as [objs s'] eqn:H. simpl.
  destruct (update_simple_parts _ _ _ _ H)
    as (m & u & ages & trks & E1 & -> & _).
  destruct (match_detections_inv _ _ _ _ _ _ _ _ E1) as (_ & _ & Hm & Hu & Hl & _).
  destruct (numbered_spec u (next_id s)) as (Hlen & Hbox & Hconf & _).
  split; [| split].
  - rewrite length_app, length_map, Hlen. simpl in Hl. lia.
  - rewrite map_app, Hbox. intros b Hb. apply in_app_or in Hb.
    destruct Hb as [Hb | Hb].
    + rewrite map_map in Hb. apply in_map_iff in Hb.
      destruct Hb as (item & <- & Hin). simpl.
      destruct (Hm item Hin) as [[] | Hd]. exact Hd.
    + destruct (Hu b Hb) as [[] | Hd]. exact Hd.
  - apply Forall_app. split; [| exact Hconf].
    apply Forall_forall. intros o Ho. apply in_map_iff in Ho.
    destruct Ho as (item & <- & _). reflexivity.
Qed.

(** X28: while the tracker follows nobody, every detection of a frame
    starts a track: the detections are returned in their order under
    consecutive new identifiers from [next_id] on. *)
Theorem first_frame_numbers_the_detections s dets :
  tracks s = [] ->
  fst (_update_simple cfg s dets) = numbered (next_id s) dets
  /\ next_id (snd (_update_simple cfg s dets))
     = (next_id s + Z.of_nat (length dets))%Z.
Proof.
  intros Ht. destruct (_update_simple cfg s dets) as [objs s'] eqn:H. simpl.
  destruct (update_simple_parts _ _ _ _ H)
    as (m & u & ages & trks & E1 & -> & Hnid & _).
  destruct (match_detections_inv _ _ _ _ _ _ _ _ E1) as (_ & _ & _ & _ & _ & He).
  destruct (He Ht) as (-> & ->). simpl. split; [reflexivity | exact Hnid].
Qed.

(** X29: when two detections of a frame both match the same track, only
    the later one is returned; the earlier one is dropped. *)
Theorem later_match_replaces_earlier s d1 d2 track_id :
  snd (best_track cfg d1 (tracks s)) = Some track_id ->
  snd (best_track cfg d2 (tracks s)) = Some track_id ->
  fst (_update_simple cfg s [d1; d2]) = [tracked track_id d2].
Proof.
  intros H1 H2. destruct (_update_simple cfg s [d1; d2]) as [objs s'] eqn:H. simpl.
  destruct (update_simple_parts _ _ _ _ H)
    as (m & u & ages & trks & E1 & -> & _).
  simpl in E1. unfold match_step in E1. rewrite H1, H2 in E1. simpl in E1.
  rewrite Z.eqb_refl in E1. injection E1 as <- <- <-. reflexivity.
Qed.

End Facts.
End TrackerFacts.

(** * Further scenarios *)

Module FurtherScenarios.
Import Examples.

Ltac by_comparison := vm_compute; intro; discriminate.

(** Witness of X1: the two latest of five items in a buffer of three. *)
Lemma two_latest_of_five :
  TemporalBuffer.get_window 2
    (TemporalBuffer.add_all [1; 2; 3; 4; 5]%nat (TemporalBuffer.init 3))
  = [4; 5]%nat.
Proof.
  exact (TemporalBufferMore.positive_window_holds_most_recent
           [1; 2; 3; 4; 5]%nat 3%nat 2%Z eq_refl).
Defined.

(** Witness of X4: a window of size -2 over five items. *)
Lemma window_of_minus_two :
  TemporalBuffer.get_window (-2)
    (TemporalBuffer.add_all [1; 2; 3; 4; 5]%nat (TemporalBuffer.init 5))
  = [3; 4; 5]%nat.
Proof.
  exact (TemporalBufferMore.negative_window_drops_oldest (-2)%Z
           (TemporalBuffer.add_all [1; 2; 3; 4; 5]%nat (TemporalBuffer.init 5)) eq_refl).
Defined.

(** Witness of X5: the person's box and the bed. *)
Lemma overlap_of_person_and_bed : 0 <= compute_iou box bed <= 1.
Proof.
  apply (GeometryFacts.compute_iou_is_a_ratio box bed); split; by_comparison.
Defined.

(** Witness of X7: the person's box lies to the left of the bed. *)
Lemma person_beside_the_bed : compute_iou box bed == 0.
Proof.
  apply (GeometryFacts.compute_iou_of_boxes_apart box bed).
  left. by_comparison.
Defined.

(** Witness of X10: the first two frames of a new fall agent. *)
Lemma two_frames_into_an_empty_window :
  exists calls s',
    run (FallSpec.step env0 Fall.default_config)
        [(image, frame_meta pose_lying); (image, frame_meta pose_lying)]
        world0 (Fall.init Fall.default_config)
    = (calls, world0, s')
    /\ length calls = 2%nat
    /\ Forall (fun c => returned c = None) calls.
Proof.
  apply (FallMore.detect_waits_for_full_window env0 Fall.default_config
           [(image, frame_meta pose_lying); (image, frame_meta pose_lying)]
           world0 (Fall.init Fall.default_config)).
  simpl. lia.
Defined.

(** Witness of X11: the frame that fills the window with a lying person. *)
Lemma lying_person_event_is_bounded :
  exists ev d,
    Fall.confidence_threshold Fall.default_config < confidence ev <= 1
    /\ payload ev = PFall d
    /\ In (fall_type d) FallSpec.fall_types.
Proof.
  pose (res := Fall.detect env0 Fall.default_config image (frame_meta pose_lying)
                 world0 fall_state).
  assert (E : exists ev w' s', res = Ok (Some ev) w' s')
    by (vm_compute; do 3 eexists; reflexivity).
  destruct E as (ev & w' & s' & E).
  destruct (FallMore.event_needs_window_and_cooldown env0 Fall.default_config image
              (frame_meta pose_lying) world0 fall_state ev w' s' E)
    as (_ & _ & _ & _ & _ & Hconf & d & Hd & Hin).
  exists ev, d. split; [exact Hconf |]. split; [exact Hd | exact Hin].
Defined.

(** Witness of X12: two frames of the lying person, three seconds of the
    clock apart, both with an event. *)
Lemma successive_fall_events_are_spaced :
  exists c1 c2 : Call Fall.State (Image * FrameMetadata) (option Event),
    Fall.event_cooldown Fall.default_config
    <= clock env0 (time_reads (world_before c2))
       - clock env0 (S (time_reads (world_before c1))).
Proof.
  pose (inputs := [(image, frame_meta pose_lying); (image, frame_meta pose_lying)]).
  pose (res := run (FallSpec.step env0 Fall.default_config) inputs world0 fall_state).
  assert (E : exists c1 c2 w' s' e1 e2,
             res = ([] ++ c1 :: [] ++ c2 :: [], w', s')
             /\ returned c1 = Some e1 /\ returned c2 = Some e2)
    by (vm_compute; do 6 eexists; split; [reflexivity | split; reflexivity]).
  destruct E as (c1 & c2 & w' & s' & e1 & e2 & E & H1 & H2).
  exists c1, c2.
  exact (FallMore.events_are_a_cooldown_apart env0 Fall.default_config inputs world0
           fall_state [] c1 [] c2 [] w' s' e1 e2 E H1 H2 (Forall_nil _)).
Defined.

(** Witness of X13: the fall agent on a frame without detections. *)
Lemma empty_frame_counts_for_the_fall_agent :
  agent_detect env0 FallAgent Fall.default_config image empty_meta world0 fall_state
  = Ok None world0 (agent_count_frame FallAgent fall_state).
Proof.
  apply (empty_frame_is_only_counted env0 FallAgent Fall.default_config image empty_meta
           world0 fall_state); reflexivity.
Defined.

(** Witness of X14: the frame that fills the window thirteen seconds into
    an episode. *)
Lemma ongoing_seizure_event_is_critical :
  exists ev d,
    payload ev = PSeizure d /\ is_critical d = true /\ confidence ev <= 1.
Proof.
  pose (res := Seizure.detect env0 Seizure.default_config image (frame_meta pose_lying)
                 world0 seizure_ongoing).
  assert (E : exists ev w' s', res = Ok (Some ev) w' s')
    by (vm_compute; do 3 eexists; reflexivity).
  destruct E as (ev & w' & s' & E).
  destruct (SeizureMore.seizure_event_is_critical env0 Seizure.default_config image
              (frame_meta pose_lying) world0 seizure_ongoing ev w' s' E)
    as (d & Hd & _ & _ & Hcrit & _ & _ & _ & Hconf & _).
  exists ev, d. split; [exact Hd |].
  split; [apply Hcrit; by_comparison | exact Hconf].
Defined.

(** Witness of X15: a reading at a signal quality of exactly 0.6 is
    reported by the agent and is not valid by [is_valid]. *)
Lemma borderline_reading_is_reported_but_not_valid :
  exists ev d, payload ev = PVital d /\ is_valid d = false.
Proof.
  pose (res := Vital.detect env_pulse vital_config image (frame_meta pose_lying)
                 world0 (Vital.init vital_config)).
  assert (E : exists ev w' s',
             res = Ok (Some ev) w' s'
             /\ payload ev = PVital (mkVitalData (Some 72) (Some 15) 0.6 0.9 0.9))
    by (vm_compute; do 3 eexists; split; reflexivity).
  destruct E as (ev & w' & s' & E & Hpay).
  destruct (VitalMore.event_is_valid_above_threshold env_pulse vital_config image
              (frame_meta pose_lying) world0 (Vital.init vital_config) ev w' s'
              eq_refl eq_refl eq_refl E)
    as (d & Hd & _ & Hv).
  exists ev, d. split; [exact Hd |].
  rewrite Hv. rewrite Hd in Hpay. injection Hpay as ->. reflexivity.
Defined.

(** Witness of X16: the two frames after an update at an interval of
    three. *)
Lemma two_frames_after_an_update_are_throttled :
  exists (calls : list (Call Vital.State (Image * FrameMetadata)
                             (Vital.Stage * option Event))),
    length calls = 2%nat
    /\ Forall (fun c => snd (returned c) = None
                        /\ forall result, fst (returned c) <> Vital.Processed result) calls.
Proof.
  pose (res := Vital.detect env_pulse vital_slow_config image (frame_meta pose_lying)
                 world0 vital_due).
  assert (E : exists ev w1 s1, res = Ok (Some ev) w1 s1)
    by (vm_compute; do 3 eexists; reflexivity).
  destruct E as (ev & w1 & s1 & E).
  destruct (VitalMore.no_update_within_interval env_pulse vital_slow_config image
              (frame_meta pose_lying) world0 vital_due ev w1 s1
              [(image, frame_meta pose_lying); (image, frame_meta pose_lying)] E eq_refl)
    as (calls & s' & _ & Hlen & Hall).
  exists calls. split; [exact Hlen | exact Hall].
Defined.

(** Witness of X17: thirty frames of the lying person calibrate the bed. *)
Lemma thirty_frames_calibrate_the_bed :
  exists calls s' region,
    run (BedExitSpec.step env0 BedExit.default_config) thirty_frames world0 uncalibrated
    = (calls, world0, s')
    /\ BedExit.calibration_bboxes s' = repeat box 30
    /\ BedExit.bed_region s' = Some region.
Proof.
  destruct (BedExitMore.calibration_completes_at_thirtieth_box env0 BedExit.default_config
              thirty_frames world0 uncalibrated eq_refl eq_refl eq_refl)
    as (calls & s' & Hrun & _ & _ & _ & Hb & _ & Hsome).
  - simpl. lia.
  - simpl. lia.
  - destruct Hsome as (region & Hreg); [rewrite Hb; reflexivity |].
    exists calls, s', region. split; [exact Hrun |]. split; [exact Hb | exact Hreg].
Defined.

(** Witness of X19: a first check 8100 seconds after the last movement. *)
Lemma long_immobility_is_alert_worthy :
  exists ev d,
    payload ev = PImmobility d /\ risk_level d = "HIGH" /\ is_alert_worthy d = true.
Proof.
  pose (res := Immobility.detect env0 Immobility.default_config image
                 (frame_meta pose_lying) world0 immobile_state).
  assert (E : exists ev w' s' d0,
             res = Ok (Some ev) w' s'
             /\ payload ev = PImmobility d0 /\ risk_level d0 = "HIGH")
    by (vm_compute; do 4 eexists; split; [reflexivity | split; reflexivity]).
  destruct E as (ev & w' & s' & d0 & E & Hpay & Hrisk).
  destruct (ImmobilityMore.immobility_event_reports_risk env0 Immobility.default_config
              image (frame_meta pose_lying) world0 immobile_state ev w' s' E)
    as (d & k & Hd & _ & _ & _ & _ & _ & _ & _ & Hworthy).
  assert (Hd0 : d = d0) by congruence. subst d0.
  exists ev, d. split; [exact Hd |]. split; [exact Hrisk |].
  apply Hworthy; [reflexivity | exact Hrisk].
Defined.

(** Witness of X20: three ticks, the second with an empty batch. *)
Lemma three_ticks_fill_the_buffer :
  exists calls w' s',
    run (Orchestrator.process_events env0 Orchestrator.default_config)
        [[vital_event]; []; [fall_event]] world0 Orchestrator.init
    = (calls, w', s')
    /\ Orchestrator.event_buffer s' = [vital_event; fall_event].
Proof.
  pose (res := run (Orchestrator.process_events env0 Orchestrator.default_config)
                   [[vital_event]; []; [fall_event]] world0 Orchestrator.init).
  assert (E : exists calls w' s', res = (calls, w', s') /\ length calls = 3%nat)
    by (vm_compute; do 3 eexists; split; reflexivity).
  destruct E as (calls & w' & s' & E & Hlen).
  exists calls, w', s'. split; [exact E |].
  exact (OrchestratorMore.event_buffer_only_grows env0 Orchestrator.default_config
           [[vital_event]; []; [fall_event]] world0 Orchestrator.init calls w' s' E Hlen).
Defined.

(** Witness of X21: a batch of a fall event and a vital signs event under
    the four default rules. *)
Lemma at_most_five_alerts :
  exists out w' s',
    Orchestrator.process_events env0 Orchestrator.default_config
      [fall_event; vital_event] world0 Orchestrator.init
    = Ok out w' s'
    /\ (length out <= 4 + 1)%nat.
Proof.
  pose (res := Orchestrator.process_events env0 Orchestrator.default_config
                 [fall_event; vital_event] world0 Orchestrator.init).
  assert (E : exists out w' s', res = Ok out w' s')
    by (vm_compute; do 3 eexists; reflexivity).
  destruct E as (out & w' & s' & E). exists out, w', s'. split; [exact E |].
  exact (OrchestratorMore.alerts_bounded_by_rules_and_events env0
           Orchestrator.default_config [fall_event; vital_event] world0
           Orchestrator.init out w' s' E).
Defined.

(** Witness of X22: a batch of a fall event and a vital signs event. *)
Lemma typed_batch_is_processed :
  exists out w' s',
    Orchestrator.process_events env0 Orchestrator.default_config
      [fall_event; low_heart_rate_event] world0 Orchestrator.init
    = Ok out w' s'.
Proof.
  apply (OrchestratorMore.well_typed_batch_never_raises env0 Orchestrator.default_config
           [fall_event; low_heart_rate_event] world0 Orchestrator.init).
  intros e [<- | [<- | []]] Het; [discriminate Het | eexists; reflexivity].
Defined.

(** Witness of X23: a bed exit at noon. *)
Lemma bed_exit_at_noon_fires_no_rule :
  exists ra w' s',
    Orchestrator._apply_rule env0 "bed_exit_night" bed_exit_night [bed_exit_event]
      world0 Orchestrator.init
    = Ok ra w' s'
    /\ ra = None.
Proof.
  pose (res := Orchestrator._apply_rule env0 "bed_exit_night" bed_exit_night
                 [bed_exit_event] world0 Orchestrator.init).
  assert (E : exists ra w' s', res = Ok ra w' s')
    by (vm_compute; do 3 eexists; reflexivity).
  destruct E as (ra & w' & s' & E). exists ra, w', s'. split; [exact E |].
  apply (OrchestratorMore.daytime_blocks_nighttime_rules env0 "bed_exit_night"
           bed_exit_night [bed_exit_event] world0 Orchestrator.init ra w' s');
    [intros n; simpl; lia | right; left; reflexivity | exact E].
Defined.

(** Witness of X24: a fall with a heart rate of 45. *)
Lemma critical_fall_alert_holds_the_low_heart_rate :
  exists a e, In e (events a) /\ OrchestratorSpec.low_heart_rate e.
Proof.
  pose (res := Orchestrator._apply_rule env0 "critical_fall" critical_fall
                 [fall_event; low_heart_rate_event] world0 Orchestrator.init).
  assert (E : exists a w' s', res = Ok (Some a) w' s')
    by (vm_compute; do 3 eexists; reflexivity).
  destruct E as (a & w' & s' & E).
  destruct (proj1 (OrchestratorMore.rule_alert_meets_its_conditions env0 "critical_fall"
                     critical_fall [fall_event; low_heart_rate_event] world0
                     Orchestrator.init a w' s' E "low_heart_rate" "vital_signs"
                     (or_intror (or_introl eq_refl)) eq_refl))
    as (e & He & _ & _ & Hlow).
  exists a, e. split; [exact He | apply Hlow; reflexivity].
Defined.

(** Witness of X26: the followed person and the bed in one frame. *)
Lemma two_boxes_get_distinct_identifiers :
  exists objs s',
    Tracker._update_simple Tracker.default_config tracker_state [box; bed] = (objs, s')
    /\ TrackerSpec.well_tracked s'
    /\ NoDup (map Tracker.obj_track_id objs).
Proof.
  pose (res := Tracker._update_simple Tracker.default_config tracker_state [box; bed]).
  exists (fst res), (snd res).
  assert (E : Tracker._update_simple Tracker.default_config tracker_state [box; bed]
              = (fst res, snd res)) by apply surjective_pairing.
  destruct (TrackerFacts.update_keeps_identifiers_distinct Tracker.default_config
              tracker_state [box; bed] (fst res) (snd res))
    as (Hwt & _ & Hnd & _).
  - split; [simpl; lia |].
    split; [constructor; [simpl; lia | constructor] |].
    constructor; [intros [] | constructor].
  - exact E.
  - split; [exact E |]. split; [exact Hwt | exact Hnd].
Defined.

(** Witness of X28: the first frame of a new tracker. *)
Lemma first_frame_of_a_new_tracker :
  fst (Tracker._update_simple Tracker.default_config Tracker.init [box; bed])
  = TrackerSpec.numbered 0 [box; bed].
Proof.
  exact (proj1 (TrackerFacts.first_frame_numbers_the_detections Tracker.default_config
                  Tracker.init [box; bed] eq_refl)).
Defined.

(** Witness of X29: the followed person detected twice in one frame. *)
Lemma person_detected_twice_is_returned_once :
  fst (Tracker._update_simple Tracker.default_config tracker_state [box; box])
  = [Tracker.tracked 0 box].
Proof.
  apply (TrackerFacts.later_match_replaces_earlier Tracker.default_config tracker_state
           box box 0%Z); vm_compute; reflexivity.
Defined.

End FurtherScenarios.
